(** * kerrokantasi: sections, section images, polls and the legacy kk models

    A shallow embedding of
      - [democracy/views/section.py] (serializers and view sets of the
        current generation), and
      - [kk/models/section.py], [kk/models/scenario.py] (legacy models),
    together with the properties their specification states about them.

    Python integers are unbounded and are modelled as [Z]; a Python [str]
    as the [string] of the bytes of its UTF-8 encoding; database tables as
    finite maps from primary key to row; the [set()] of kept ids as a
    [gset]; exceptions as an error type. *)

From Stdlib Require Import ZArith Lia Bool Ascii String List.
From Stdlib Require Import Decimal DecimalString DecimalPos.
From stdpp Require Import base option gmap strings list fin_maps sorting.

Local Open Scope Z_scope.

(** ** Exceptions raised by the modelled code *)

Inductive exn : Type :=
| ValueError (msg : string)
| ValidationError (msg : string)
| PermissionDenied (msg : string)
| KeyError (key : string)
| AttributeError
| AssertionError
| TypeError
| DoesNotExist
| IntegrityError.

(** ** Tables and query sets *)

(** The rows of a table that satisfy [p], with their keys. *)
Definition rows `{Countable K} {R} (p : R -> bool) (t : gmap K R)
  : list (K * R) :=
  filter (fun kr => p (snd kr) = true) (map_to_list t).

(** [.exclude(id__in=ids)] *)
Definition exclude_ids {R} (ids : gset Z) (q : list (Z * R)) : list (Z * R) :=
  filter (fun kr => fst kr ∉ ids) q.

(** The key an auto-incremented table gives its next row. *)
Definition next_id {R} (t : gmap Z R) : Z :=
  1 + map_fold (fun k _ acc => Z.max k acc) 0 t.

(** [queryset.get(pk=pk)] on a filtered table *)
Definition get_row {R} (p : R -> bool) (t : gmap Z R) (pk : Z) : option R :=
  match t !! pk with
  | Some r => if p r then Some r else None
  | None => None
  end.

(** ** ThumbnailImageSerializer._parse_dimension_string *)

Module Dim.

Definition dquote : ascii := ascii_of_nat 34.

(** ['"dim" must be <width>x<height>'] *)
Definition msg_format : string :=
  String dquote ("dim" +:+ String dquote " must be <width>x<height>").

Definition msg_positive : string :=
  "width and height must be positive integers".

(** [str.split('x')]: the pieces between the occurrences of the
    separator; always at least one piece.  The byte of [x] occurs in the
    UTF-8 encoding of no other character, so that splitting the encoding
    at this byte is splitting the [str] at the character. *)
Fixpoint split_x (s : string) : list string :=
  match s with
  | EmptyString => [EmptyString]
  | String c s' =>
      if Ascii.eqb c "x" then EmptyString :: split_x s'
      else match split_x s' with
           | piece :: rest => String c piece :: rest
           | [] => [String c EmptyString]
           end
  end.

(** The characters that [int()] strips from both ends of a [str] of
    ASCII characters: TAB, LF, VT, FF, CR and SPACE. *)
Definition is_space (c : ascii) : bool :=
  let n := nat_of_ascii c in
  ((9 <=? n)%nat && (n <=? 13)%nat) || (n =? 32)%nat.

Definition is_digit (c : ascii) : bool :=
  let n := nat_of_ascii c in (48 <=? n)%nat && (n <=? 57)%nat.

Definition digit_val (c : ascii) : Z := Z.of_nat (nat_of_ascii c) - 48.

Fixpoint lstrip (s : string) : string :=
  match s with
  | EmptyString => EmptyString
  | String c s' => if is_space c then lstrip s' else s
  end.

Fixpoint rstrip (s : string) : string :=
  match s with
  | EmptyString => EmptyString
  | String c s' =>
      match rstrip s' with
      | EmptyString => if is_space c then EmptyString else String c EmptyString
      | r => String c r
      end
  end.

(** Decimal digits, single underscores allowed between two digits
    (PEP 515).  [prev] tells whether the previous character was a digit. *)
Fixpoint digits (s : string) (acc : Z) (prev : bool) : option Z :=
  match s with
  | EmptyString => if prev then Some acc else None
  | String c s' =>
      if is_digit c then digits s' (10 * acc + digit_val c) true
      else if Ascii.eqb c "_" then
             if prev then digits s' acc false else None
           else None
  end.

(** [int(s)], base 10, for a [str] all of whose characters are ASCII;
    [None] stands for the [ValueError] it raises.  On other strings the
    builtin also reads the decimal digits and the white space of Unicode,
    which this function does not: the parser below takes the builtin as
    its argument [int], and [py_int] is what the builtin is on ASCII
    strings. *)
Definition py_int (s : string) : option Z :=
  match rstrip (lstrip s) with
  | String c s' =>
      if Ascii.eqb c "-" then Z.opp <$> digits s' 0 false
      else if Ascii.eqb c "+" then digits s' 0 false
      else digits (String c s') 0 false
  | EmptyString => None
  end.

(** The [try: width = int(width); height = int(height)
    except ValueError: width = height = 0] block; [int] is the builtin,
    [None] standing for its [ValueError]. *)
Definition int_pair (int : string -> option Z) (width height : string)
  : Z * Z :=
  match int width with
  | Some w =>
      match int height with
      | Some h => (w, h)
      | None => (0, 0)
      end
  | None => (0, 0)
  end.

Definition _parse_dimension_string (int : string -> option Z) (dim : string)
  : exn + (Z * Z) :=
  match split_x dim with
  | [width; height] =>
      let '(w, h) := int_pair int width height in
      if (w >? 0) && (h >? 0) then inr (w, h)
      else inl (ValueError msg_positive)
  | _ => inl (ValueError msg_format)
  end.

(** The decimal numeral of a positive integer, as [str(w)] writes it;
    used to state what a well-formed ["<w>x<h>"] is. *)
Definition decimal (p : positive) : string :=
  NilEmpty.string_of_uint (Pos.to_uint p).

Definition dim_string (w h : positive) : string :=
  decimal w +:+ String "x" (decimal h).

(** The value of a decimal numeral read from the left, starting from [acc]. *)
Fixpoint uint_val (acc : Z) (d : Decimal.uint) : Z :=
  match d with
  | Nil => acc
  | D0 d => uint_val (10 * acc) d
  | D1 d => uint_val (10 * acc + 1) d
  | D2 d => uint_val (10 * acc + 2) d
  | D3 d => uint_val (10 * acc + 3) d
  | D4 d => uint_val (10 * acc + 4) d
  | D5 d => uint_val (10 * acc + 5) d
  | D6 d => uint_val (10 * acc + 6) d
  | D7 d => uint_val (10 * acc + 7) d
  | D8 d => uint_val (10 * acc + 8) d
  | D9 d => uint_val (10 * acc + 9) d
  end.

Fixpoint no_x (s : string) : Prop :=
  match s with
  | EmptyString => True
  | String c s' => Ascii.eqb c "x" = false /\ no_x s'
  end.

Fixpoint all_digits (s : string) : Prop :=
  match s with
  | EmptyString => True
  | String c s' => is_digit c = true /\ all_digits s'
  end.

End Dim.

(** ** The current generation: [democracy/views/section.py] *)

Module Democracy.

(** A translated field as the serializers exchange it: language code
    and text. *)
Definition translations : Type := list (string * string).

(** *** Rows of the tables the module reads and writes.  The primary
    key is the key of the table, not a field of the row. *)

Record Hearing : Type := mkHearing
  { h_organization : option Z;
    h_force_closed : bool;
    h_open_at : Z;
    h_close_at : Z }.

Record Section : Type := mkSection
  { s_hearing : string;
    s_type : string;
    s_ordering : Z;
    s_published : bool;
    s_title : translations;
    s_deleted : bool }.

Record SectionImage : Type := mkSectionImage
  { im_section : string;
    im_ordering : Z;
    im_deleted : bool;
    im_title : translations;
    im_image : string }.

Record SectionPoll : Type := mkSectionPoll
  { p_section : string;
    p_ordering : Z;
    p_deleted : bool;
    p_type : string;
    p_text : translations;
    p_n_answers : Z;
    p_is_independent_poll : bool }.

Record SectionPollOption : Type := mkSectionPollOption
  { o_poll : Z;
    o_ordering : Z;
    o_deleted : bool;
    o_text : translations;
    o_n_answers : Z }.

Record DB : Type := mkDB
  { hearings : gmap string Hearing;
    sections : gmap string Section;
    images : gmap Z SectionImage;
    polls : gmap Z SectionPoll;
    options : gmap Z SectionPollOption }.

Definition with_sections (t : gmap string Section) (d : DB) : DB :=
  mkDB (hearings d) t (images d) (polls d) (options d).
Definition with_images (t : gmap Z SectionImage) (d : DB) : DB :=
  mkDB (hearings d) (sections d) t (polls d) (options d).
Definition with_polls (t : gmap Z SectionPoll) (d : DB) : DB :=
  mkDB (hearings d) (sections d) (images d) t (options d).
Definition with_options (t : gmap Z SectionPollOption) (d : DB) : DB :=
  mkDB (hearings d) (sections d) (images d) (polls d) t.

Definition im_set_deleted (r : SectionImage) : SectionImage :=
  mkSectionImage (im_section r) (im_ordering r) true (im_title r) (im_image r).
Definition im_set_ordering (n : Z) (r : SectionImage) : SectionImage :=
  mkSectionImage (im_section r) n (im_deleted r) (im_title r) (im_image r).
Definition p_set_deleted (r : SectionPoll) : SectionPoll :=
  mkSectionPoll (p_section r) (p_ordering r) true (p_type r) (p_text r)
                (p_n_answers r) (p_is_independent_poll r).
Definition o_set_deleted (r : SectionPollOption) : SectionPollOption :=
  mkSectionPollOption (o_poll r) (o_ordering r) true (o_text r) (o_n_answers r).

(** *** Payloads

    A payload is a dictionary whose keys may be absent. *)

Record ImageData : Type := mkImageData
  { idata_id : option Z;
    idata_ordering : option Z;
    idata_title : option translations;
    idata_image : option string }.

Record OptionData : Type := mkOptionData
  { od_id : option Z;
    od_ordering : option Z;
    od_text : option translations }.

Record PollData : Type := mkPollData
  { pd_id : option Z;
    pd_ordering : option Z;
    pd_type : option string;
    pd_text : option translations;
    pd_options : option (list OptionData);
    pd_is_independent_poll : option bool }.

(** *** What lies outside the excerpt and is taken as given. *)

Record Env : Type := mkEnv
  { (** whether the models' default manager leaves soft-deleted rows out *)
    hide_deleted : bool;
    (** the integrity constraints the database checks on every write *)
    constraints : DB -> bool;
    (** [democracy.views.utils.compare_serialized] *)
    compare_serialized : translations -> translations -> bool;
    (** the model default of [SectionImage.ordering] *)
    default_image_ordering : Z;
    (** the identifier a string-keyed model gives itself when none is
        supplied *)
    generate_id : DB -> string;
    (** the identifier of [InitialSectionType.CLOSURE_INFO] *)
    closure_info : string;
    (** the property [Hearing.closed], read at a given instant *)
    hearing_closed : Hearing -> Z -> bool;
    (** the defaults of the fields of a new [Section] *)
    section_defaults : Section;
    (** what [is_valid] of the image, option and poll serializers finds
        wrong with the fields of a payload, given the instance the
        serializer was built on: the declared fields and their
        validators are outside the excerpt, but for the image content an
        image serializer requires and the option list a poll serializer
        requires; [None] when nothing is wrong *)
    image_errors : option (Z * SectionImage) -> ImageData -> option string;
    option_errors : option (Z * SectionPollOption) -> OptionData
                    -> option string;
    poll_errors : option (Z * SectionPoll) -> PollData -> option string }.

(** *** State, exceptions and transactions *)

Record State : Type := mkState
  { db : DB;
    (** the snapshots the open [transaction.atomic] blocks roll back to,
        innermost first *)
    savepoints : list DB }.

Definition M (A : Type) : Type := State -> (exn + A) * State.

Definition ret {A} (a : A) : M A := fun st => (inr a, st).

Definition raise {A} (e : exn) : M A := fun st => (inl e, st).

Definition bind {A B} (m : M A) (k : A -> M B) : M B :=
  fun st =>
    match m st with
    | (inr a, st') => k a st'
    | (inl e, st') => (inl e, st')
    end.

Declare Scope py_scope.
Delimit Scope py_scope with py.
Notation "'let*' x ':=' m 'in' k" := (bind m (fun x => k))
  (at level 10, x pattern, m at level 100, k at level 200) : py_scope.
Notation "'do' m 'then' k" := (bind m (fun _ => k))
  (at level 10, m at level 100, k at level 200) : py_scope.
Local Open Scope py_scope.

Definition read : M DB := fun st => (inr (db st), st).

(** A write goes through when the database accepts the new contents and
    raises [IntegrityError], changing nothing, when it does not. *)
Definition write (env : Env) (f : DB -> DB) : M unit :=
  fun st =>
    if constraints env (f (db st))
    then (inr tt, mkState (f (db st)) (savepoints st))
    else (inl IntegrityError, st).

(** [@transaction.atomic()]: a savepoint is taken on entry; it is
    released when the body returns and rolled back to when the body
    raises, after which the exception goes on. *)
Definition atomic {A} (body : M A) : M A :=
  fun st =>
    match body (mkState (db st) (db st :: savepoints st)) with
    | (inr a, st') => (inr a, mkState (db st') (tail (savepoints st')))
    | (inl e, st') =>
        (inl e, mkState (hd (db st') (savepoints st')) (tail (savepoints st')))
    end.

(** *** Managers and query sets *)

Definition in_manager (env : Env) (deleted : bool) : bool :=
  negb (hide_deleted env && deleted).

(** [section.images] *)
Definition section_images (env : Env) (section : string) (d : DB)
  : list (Z * SectionImage) :=
  rows (fun r => bool_decide (im_section r = section)
                 && in_manager env (im_deleted r)) (images d).

(** [section.polls] *)
Definition section_polls (env : Env) (section : string) (d : DB)
  : list (Z * SectionPoll) :=
  rows (fun r => bool_decide (p_section r = section)
                 && in_manager env (p_deleted r)) (polls d).

(** Python's truth value of [data.get('id')]. *)
Definition given_id (pk : option Z) : option Z :=
  match pk with
  | Some k => if k =? 0 then None else Some k
  | None => None
  end.

(** [repr] of an integer. *)
Definition repr (k : Z) : string := NilZero.string_of_int (Z.to_int k).

Fixpoint for_each {A} (l : list A) (body : A -> M unit) : M unit :=
  match l with
  | [] => ret tt
  | x :: l' => do body x then for_each l' body
  end.

(** *** Serializers and validated items

    The item that validation hands on is the payload with its
    ['ordering'] set and the serializer stored under ['serializer']. *)

Record ImageSerializer : Type := mkImageSerializer
  { is_instance : option (Z * SectionImage);
    is_validated : ImageData }.

Record ImageItem : Type := mkImageItem
  { ii_data : ImageData;
    ii_serializer : option ImageSerializer }.

Record OptionSerializer : Type := mkOptionSerializer
  { os_instance : option (Z * SectionPollOption);
    os_validated : OptionData }.

Record OptionItem : Type := mkOptionItem
  { oi_data : OptionData;
    oi_serializer : option OptionSerializer }.

Record PollValidated : Type := mkPollValidated
  { pv_type : option string;
    pv_text : option translations;
    pv_is_independent_poll : option bool;
    pv_options : option (list OptionItem) }.

Record PollSerializer : Type := mkPollSerializer
  { ps_instance : option (Z * SectionPoll);
    ps_validated : PollValidated }.

Record PollItem : Type := mkPollItem
  { pi_data : PollData;
    pi_serializer : option PollSerializer }.

Definition idata_set_ordering (n : Z) (x : ImageData) : ImageData :=
  mkImageData (idata_id x) (Some n) (idata_title x) (idata_image x).
Definition od_set_ordering (n : Z) (x : OptionData) : OptionData :=
  mkOptionData (od_id x) (Some n) (od_text x).
Definition pd_set_ordering (n : Z) (x : PollData) : PollData :=
  mkPollData (pd_id x) (Some n) (pd_type x) (pd_text x) (pd_options x)
             (pd_is_independent_poll x).

(** *** SectionImageCreateUpdateSerializer *)

(** [is_valid(raise_exception=True)]: the image content is mandatory
    unless the serializer was built on an instance, and the fields are
    validated as the serializer declares them.  The error raised carries
    the messages of all the fields that fail; the model keeps one. *)
Definition image_is_valid (env : Env) (instance : option (Z * SectionImage))
    (data : ImageData) : M ImageSerializer :=
  match instance, idata_image data with
  | None, None => raise (ValidationError "No file was submitted.")
  | _, _ =>
      match image_errors env instance data with
      | Some msg => raise (ValidationError msg)
      | None => ret (mkImageSerializer instance data)
      end
  end.

(** [serializer.save] with keyword arguments: the validated
    fields and the keyword arguments are set on the instance, which is
    then saved, or a new row is created from them. *)
Definition save_image (env : Env) (serializer : ImageSerializer)
    (section : option string) : M (Z * SectionImage) :=
  let v := is_validated serializer in
  match is_instance serializer with
  | Some (pk, image) =>
      let row :=
        mkSectionImage (default (im_section image) section)
                       (default (im_ordering image) (idata_ordering v))
                       (im_deleted image)
                       (default (im_title image) (idata_title v))
                       (default (im_image image) (idata_image v)) in
      do write env (fun d => with_images (<[pk := row]> (images d)) d)
      then ret (pk, row)
  | None =>
      match section with
      | None => raise IntegrityError
      | Some sid =>
          let row :=
            mkSectionImage sid
                           (default (default_image_ordering env) (idata_ordering v))
                           false
                           (default [] (idata_title v))
                           (default EmptyString (idata_image v)) in
          let* d := read in
          let pk := next_id (images d) in
          do write env (fun d => with_images (<[pk := row]> (images d)) d)
          then ret (pk, row)
      end
  end.

(** Modelled from the spec: [soft_delete()], a method of the base model,
    is outside the excerpt; it sets the [deleted] flag of the row and
    keeps the row. *)
Definition soft_delete_image (env : Env) (pk : Z) : M unit :=
  write env (fun d => with_images (alter im_set_deleted pk (images d)) d).

(** Modelled from the spec: [soft_delete()] of a poll, likewise. *)
Definition soft_delete_poll (env : Env) (pk : Z) : M unit :=
  write env (fun d => with_polls (alter p_set_deleted pk (polls d)) d).

(** Modelled from the spec: [soft_delete()] of a poll option, likewise. *)
Definition soft_delete_option (env : Env) (pk : Z) : M unit :=
  write env (fun d => with_options (alter o_set_deleted pk (options d)) d).

(** *** SectionPollOptionSerializer and SectionPollSerializer *)

(** [poll.options] *)
Definition poll_options (env : Env) (poll : Z) (d : DB)
  : list (Z * SectionPollOption) :=
  rows (fun r => bool_decide (o_poll r = poll)
                 && in_manager env (o_deleted r)) (options d).

(** [serializer.save(poll=poll, ordering=ordering)] *)
Definition save_option (env : Env) (serializer : OptionSerializer)
    (poll ordering : Z) : M (Z * SectionPollOption) :=
  let v := os_validated serializer in
  match os_instance serializer with
  | Some (pk, option) =>
      let row :=
        mkSectionPollOption poll ordering (o_deleted option)
                            (default (o_text option) (od_text v))
                            (o_n_answers option) in
      do write env (fun d => with_options (<[pk := row]> (options d)) d)
      then ret (pk, row)
  | None =>
      let row :=
        mkSectionPollOption poll ordering false (default [] (od_text v)) 0 in
      let* d := read in
      let pk := next_id (options d) in
      do write env (fun d => with_options (<[pk := row]> (options d)) d)
      then ret (pk, row)
  end.

(** [SectionPollOptionSerializer(...).is_valid(raise_exception=True)] *)
Definition option_is_valid (env : Env)
    (instance : option (Z * SectionPollOption)) (data : OptionData)
  : M OptionSerializer :=
  match option_errors env instance data with
  | Some msg => raise (ValidationError msg)
  | None => ret (mkOptionSerializer instance data)
  end.

(** [validate_options], from position [index] of the incoming array on;
    [instance] is [self.instance]. *)
Fixpoint validate_options_from (env : Env) (instance : option Z)
    (index : Z) (data : list OptionData) : M (list OptionItem) :=
  match data with
  | [] => ret []
  | option_data :: rest =>
      let pk := od_id option_data in
      let option_data := od_set_ordering (index + 1) option_data in
      let* option :=
        match given_id pk with
        | Some pk =>
            match instance with
            | None => raise AttributeError
            | Some poll =>
                let* d := read in
                match get_row (fun r => bool_decide (o_poll r = poll)
                                        && in_manager env (o_deleted r))
                              (options d) pk with
                | Some option => ret (Some (pk, option))
                | None =>
                    raise (ValidationError
                             ("The Poll does not have an option with ID "
                              +:+ repr pk))
                end
            end
        | None => ret None
        end in
      let* serializer := option_is_valid env option option_data in
      let* items := validate_options_from env instance (index + 1) rest in
      ret (mkOptionItem option_data (Some serializer) :: items)
  end.

Definition validate_options (env : Env) (instance : option Z)
    (data : list OptionData) : M (list OptionItem) :=
  validate_options_from env instance 0 data.

(** The first loop of [_handle_options]. *)
Fixpoint save_options (env : Env) (poll : Z) (data : list OptionItem)
    (new_option_ids : gset Z) : M (gset Z) :=
  match data with
  | [] => ret new_option_ids
  | option_data :: rest =>
      match oi_serializer option_data with
      | None => raise (KeyError "serializer")
      | Some serializer =>
          match od_ordering (oi_data option_data) with
          | None => raise (KeyError "ordering")
          | Some ordering =>
              let* option := save_option env serializer poll ordering in
              save_options env poll rest ({[fst option]} ∪ new_option_ids)
          end
      end
  end.

Definition _handle_options (env : Env) (poll : Z) (data : list OptionItem)
  : M unit :=
  let* new_option_ids := save_options env poll data ∅ in
  let* d := read in
  for_each (exclude_ids new_option_ids (poll_options env poll d))
           (fun option => soft_delete_option env (fst option)).

(** [SectionPollSerializer(data=..., instance=...).is_valid]: the
    write-only list [options] is required and goes through
    [validate_options], whose exceptions other than the validation error
    go through at once; the fields are validated as the serializer
    declares them.  The error raised carries the messages of all the
    fields that fail; the model keeps one. *)
Definition poll_is_valid (env : Env) (instance : option (Z * SectionPoll))
    (data : PollData) : M PollSerializer :=
  match pd_options data with
  | None => raise (ValidationError "This field is required.")
  | Some options_data =>
      let* items := validate_options env (fst <$> instance) options_data in
      match poll_errors env instance data with
      | Some msg => raise (ValidationError msg)
      | None =>
          ret (mkPollSerializer instance
                 (mkPollValidated (pd_type data) (pd_text data)
                                  (pd_is_independent_poll data) (Some items)))
      end
  end.

(** [SectionPollSerializer.create] and [.update], reached through
    [serializer.save(section=section, ordering=ordering)]. *)
Definition save_poll (env : Env) (serializer : PollSerializer)
    (section : string) (ordering : Z) : M (Z * SectionPoll) :=
  let v := ps_validated serializer in
  atomic
    (let options_data := default [] (pv_options v) in
     let* poll :=
       match ps_instance serializer with
       | Some (pk, instance) =>
           let row :=
             mkSectionPoll section ordering (p_deleted instance)
               (default (p_type instance) (pv_type v))
               (default (p_text instance) (pv_text v))
               (p_n_answers instance)
               (default (p_is_independent_poll instance)
                        (pv_is_independent_poll v)) in
           do write env (fun d => with_polls (<[pk := row]> (polls d)) d)
           then ret (pk, row)
       | None =>
           let row :=
             mkSectionPoll section ordering false
               (default EmptyString (pv_type v))
               (default [] (pv_text v))
               0
               (default false (pv_is_independent_poll v)) in
           let* d := read in
           let pk := next_id (polls d) in
           do write env (fun d => with_polls (<[pk := row]> (polls d)) d)
           then ret (pk, row)
       end in
     do _handle_options env (fst poll) options_data
     then ret poll).

(** The order of two options by their [ordering]. *)
Definition by_ordering (a b : Z * SectionPollOption) : Prop :=
  o_ordering (snd a) <= o_ordering (snd b).

#[global] Instance by_ordering_dec : RelDecision by_ordering.
Proof. intros a b. unfold by_ordering. apply _. Defined.

(** Modelled from the spec: the declaration of the option model, which
    fixes the order of [instance.options.all()] in [to_representation],
    is outside the excerpt; the read representation lists the options in
    ascending ordering. *)
Definition options_representation (env : Env) (poll : Z) (d : DB)
  : list (Z * SectionPollOption) :=
  merge_sort by_ordering (poll_options env poll d).

(** *** SectionCreateUpdateSerializer *)

(** [validate_images], from position [index] of the incoming array on;
    [instance] is [self.instance]. *)
Fixpoint validate_images_from (env : Env) (instance : option string)
    (index : Z) (data : list ImageData) : M (list ImageItem) :=
  match data with
  | [] => ret []
  | image_data :: rest =>
      let pk := idata_id image_data in
      let image_data := idata_set_ordering index image_data in
      let* image :=
        match given_id pk with
        | Some pk =>
            match instance with
            | None => raise AttributeError
            | Some section =>
                let* d := read in
                match get_row (fun r => bool_decide (im_section r = section)
                                        && in_manager env (im_deleted r))
                              (images d) pk with
                | Some image => ret (Some (pk, image))
                | None =>
                    raise (ValidationError
                             ("The Section does not have an image with ID "
                              +:+ repr pk))
                end
            end
        | None => ret None
        end in
      let* serializer := image_is_valid env image image_data in
      let* items := validate_images_from env instance (index + 1) rest in
      ret (mkImageItem image_data (Some serializer) :: items)
  end.

Definition validate_images (env : Env) (instance : option string)
    (data : list ImageData) : M (list ImageItem) :=
  validate_images_from env instance 0 data.

(** The first loop of [_handle_images]. *)
Fixpoint save_images (env : Env) (section : string) (data : list ImageItem)
    (new_image_ids : gset Z) : M (gset Z) :=
  match data with
  | [] => ret new_image_ids
  | image_data :: rest =>
      match ii_serializer image_data with
      | None => raise (KeyError "serializer")
      | Some serializer =>
          let* image := save_image env serializer (Some section) in
          save_images env section rest ({[fst image]} ∪ new_image_ids)
      end
  end.

Definition _handle_images (env : Env) (section : string)
    (data : list ImageItem) : M unit :=
  let* new_image_ids := save_images env section data ∅ in
  let* d := read in
  for_each (exclude_ids new_image_ids (section_images env section d))
           (fun image => soft_delete_image env (fst image)).

Definition msg_has_answers (pk : Z) : string :=
  "Poll with ID " +:+ repr pk +:+ " has answers - editing it is not allowed".

(** The loop over [zip(old_poll_data['options'], poll_data['options'])];
    a failed [assert] is [AssertionError], a missing key [KeyError]. *)
Fixpoint compare_options (env : Env) (old_options : list (Z * SectionPollOption))
    (options : list OptionData) : exn + unit :=
  match old_options, options with
  | old_option :: old_rest, option :: rest =>
      match od_text option with
      | None => inl (KeyError "text")
      | Some text =>
          if compare_serialized env (o_text (snd old_option)) text
          then compare_options env old_rest rest
          else inl AssertionError
      end
  | _, _ => inr tt
  end.

(** The body of the [try] block of [_validate_question_update]. *)
Definition question_unchanged (env : Env) (old_text : translations)
    (old_options : list (Z * SectionPollOption)) (poll_data : PollData)
  : exn + unit :=
  match pd_text poll_data with
  | None => inl (KeyError "text")
  | Some text =>
      if compare_serialized env old_text text then
        match pd_options poll_data with
        | None => inl (KeyError "options")
        | Some options =>
            if (length old_options =? length options)%nat
            then compare_options env old_options options
            else inl AssertionError
        end
      else inl AssertionError
  end.

Definition _validate_question_update (env : Env) (poll_data : PollData)
    (poll : Z * SectionPoll) : M unit :=
  let poll_has_answers := p_n_answers (snd poll) >? 0 in
  if negb poll_has_answers then ret tt
  else
    let* d := read in
    let old_options := options_representation env (fst poll) d in
    match question_unchanged env (p_text (snd poll)) old_options poll_data with
    | inr _ => ret tt
    | inl AssertionError => raise (ValidationError (msg_has_answers (fst poll)))
    | inl e => raise e
    end.

(** [validate_questions], from position [index] of the incoming array on. *)
Fixpoint validate_questions_from (env : Env) (instance : option string)
    (index : Z) (data : list PollData) : M (list PollItem) :=
  match data with
  | [] => ret []
  | poll_data :: rest =>
      let pk := pd_id poll_data in
      let poll_data := pd_set_ordering (index + 1) poll_data in
      let* poll :=
        match given_id pk with
        | Some pk =>
            match instance with
            | None => raise AttributeError
            | Some section =>
                let* d := read in
                match get_row (fun r => bool_decide (p_section r = section)
                                        && in_manager env (p_deleted r))
                              (polls d) pk with
                | Some poll =>
                    do _validate_question_update env poll_data (pk, poll)
                    then ret (Some (pk, poll))
                | None =>
                    raise (ValidationError
                             ("The Section does not have a poll with ID "
                              +:+ repr pk))
                end
            end
        | None => ret None
        end in
      let* serializer := poll_is_valid env poll poll_data in
      let* items := validate_questions_from env instance (index + 1) rest in
      ret (mkPollItem poll_data (Some serializer) :: items)
  end.

Definition validate_questions (env : Env) (instance : option string)
    (data : list PollData) : M (list PollItem) :=
  validate_questions_from env instance 0 data.

(** The first loop of [_handle_questions]. *)
Fixpoint save_polls (env : Env) (section : string) (data : list PollItem)
    (new_poll_ids : gset Z) : M (gset Z) :=
  match data with
  | [] => ret new_poll_ids
  | poll_data :: rest =>
      match pi_serializer poll_data with
      | None => raise (KeyError "serializer")
      | Some serializer =>
          match pd_ordering (pi_data poll_data) with
          | None => raise (KeyError "ordering")
          | Some ordering =>
              let* poll := save_poll env serializer section ordering in
              save_polls env section rest ({[fst poll]} ∪ new_poll_ids)
          end
      end
  end.

Definition _handle_questions (env : Env) (section : string)
    (data : list PollItem) : M unit :=
  let* new_poll_ids := save_polls env section data ∅ in
  let* d := read in
  for_each (exclude_ids new_poll_ids (section_polls env section d))
           (fun poll => soft_delete_poll env (fst poll)).

Record SectionFields : Type := mkSectionFields
  { sf_id : option string;
    sf_hearing : option string;
    sf_type : option string;
    sf_ordering : option Z;
    sf_published : option bool;
    sf_title : option translations }.

(** [validated_data] of the section serializer: the scalar fields and the
    two write-only lists. *)
Record SectionValidated : Type := mkSectionValidated
  { sv_fields : SectionFields;
    sv_images : option (list ImageItem);
    sv_questions : option (list PollItem) }.

(** The primary key a string-keyed model is saved under: the supplied one
    unless it is empty. *)
Definition string_pk (env : Env) (supplied : option string) (d : DB) : string :=
  match supplied with
  | Some (String c k) => String c k
  | _ => generate_id env d
  end.

(** [super().create(validated_data)]: a new row, inserted. *)
Definition section_create (env : Env) (f : SectionFields)
  : M (string * Section) :=
  match sf_hearing f with
  | None => raise IntegrityError
  | Some hearing =>
      let dflt := section_defaults env in
      let row :=
        mkSection hearing
                  (default (s_type dflt) (sf_type f))
                  (default (s_ordering dflt) (sf_ordering f))
                  (default (s_published dflt) (sf_published f))
                  (default (s_title dflt) (sf_title f))
                  false in
      let* d := read in
      let pk := string_pk env (sf_id f) d in
      match sections d !! pk with
      | Some _ => raise IntegrityError
      | None =>
          do write env (fun d => with_sections (<[pk := row]> (sections d)) d)
          then ret (pk, row)
      end
  end.

(** [super().update(instance, validated_data)]: the validated fields are
    set on the instance, which is then saved. *)
Definition section_update (env : Env) (instance : string * Section)
    (f : SectionFields) : M (string * Section) :=
  let old := snd instance in
  let row :=
    mkSection (default (s_hearing old) (sf_hearing f))
              (default (s_type old) (sf_type f))
              (default (s_ordering old) (sf_ordering f))
              (default (s_published old) (sf_published f))
              (default (s_title old) (sf_title f))
              (s_deleted old) in
  let* d := read in
  let pk := string_pk env (Some (default (fst instance) (sf_id f))) d in
  do write env (fun d => with_sections (<[pk := row]> (sections d)) d)
  then ret (pk, row).

(** The body of [create], without its decorator. *)
Definition create_body (env : Env) (validated_data : SectionValidated)
  : M (string * Section) :=
  let images_data := default [] (sv_images validated_data) in
  let polls_data := default [] (sv_questions validated_data) in
  let* section := section_create env (sv_fields validated_data) in
  do _handle_images env (fst section) images_data then
  do _handle_questions env (fst section) polls_data then
  ret section.

Definition create (env : Env) (validated_data : SectionValidated)
  : M (string * Section) :=
  atomic (create_body env validated_data).

(** The body of [update], without its decorator. *)
Definition update_body (env : Env) (instance : string * Section)
    (validated_data : SectionValidated) : M (string * Section) :=
  let images_data := default [] (sv_images validated_data) in
  let polls_data := default [] (sv_questions validated_data) in
  let* section := section_update env instance (sv_fields validated_data) in
  do _handle_images env (fst section) images_data then
  do _handle_questions env (fst section) polls_data then
  ret section.

Definition update (env : Env) (instance : string * Section)
    (validated_data : SectionValidated) : M (string * Section) :=
  atomic (update_body env instance validated_data).

(** *** RootSectionImageSerializer and ImageViewSet *)

Record RootImageValidated : Type := mkRootImageValidated
  { rv_section : option string;
    rv_fields : ImageData }.

Record RootImageSerializer : Type := mkRootImageSerializer
  { ris_instance : option (Z * SectionImage);
    ris_validated : RootImageValidated }.

(** [aggregate(Max('ordering'))['ordering__max']]; [None] on no rows. *)
Definition aggregate_max (q : list (Z * SectionImage)) : option Z :=
  foldr (fun kr acc =>
           Some (match acc with
                 | Some m => Z.max (im_ordering (snd kr)) m
                 | None => im_ordering (snd kr)
                 end))
        None q.

Definition root_image_create (env : Env) (validated_data : RootImageValidated)
  : M (Z * SectionImage) :=
  atomic
    (let* section_image :=
       save_image env (mkImageSerializer None (rv_fields validated_data))
                  (rv_section validated_data) in
     let* d := read in
     let section_images :=
       section_images env (im_section (snd section_image)) d in
     match section_images with
     | [] => ret section_image
     | _ :: _ =>
         match aggregate_max section_images with
         | None => raise TypeError
         | Some ordering__max =>
             let row := im_set_ordering (ordering__max + 1) (snd section_image) in
             do write env (fun d =>
                  with_images (<[fst section_image := row]> (images d)) d)
             then ret (fst section_image, row)
         end
     end).

Record Request : Type := mkRequest
  { (** the ids of [request.user.admin_organizations] *)
    user_admin_organizations : gset Z }.

(** Following a foreign key to the section it names. *)
Definition fetch_section (pk : string) : M Section :=
  let* d := read in
  match sections d !! pk with
  | Some section => ret section
  | None => raise DoesNotExist
  end.

Definition _is_user_organisation_admin (request : Request) (section : Section)
  : M bool :=
  let* d := read in
  match hearings d !! s_hearing section with
  | None => raise DoesNotExist
  | Some hearing =>
      let target_org := h_organization hearing in
      ret (match target_org with
           | Some org => bool_decide (org ∈ user_admin_organizations request)
           | None => false
           end)
  end.

Definition perform_create (env : Env) (request : Request)
    (serializer : RootImageSerializer) : M (Z * SectionImage) :=
  match rv_section (ris_validated serializer) with
  | None => raise (KeyError "section")
  | Some pk =>
      let* section := fetch_section pk in
      let* is_admin := _is_user_organisation_admin request section in
      if is_admin then root_image_create env (ris_validated serializer)
      else raise (PermissionDenied
                    "Only organisation admin can create SectionImages")
  end.

Definition perform_update (env : Env) (request : Request)
    (serializer : RootImageSerializer) : M (Z * SectionImage) :=
  match ris_instance serializer with
  | None => raise AttributeError
  | Some instance =>
      let* section := fetch_section (im_section (snd instance)) in
      let* is_admin := _is_user_organisation_admin request section in
      if is_admin
      then save_image env
             (mkImageSerializer (Some instance)
                                (rv_fields (ris_validated serializer)))
             (rv_section (ris_validated serializer))
      else raise (PermissionDenied
                    "Only organisation admin can update SectionImages")
  end.

Definition perform_destroy (env : Env) (request : Request)
    (instance : Z * SectionImage) : M unit :=
  let* section := fetch_section (im_section (snd instance)) in
  let* is_admin := _is_user_organisation_admin request section in
  if is_admin then soft_delete_image env (fst instance)
  else raise (PermissionDenied
                "Only organisation admin can delete SectionImages").

(** *** The two section view sets *)

Definition is_closure_info (env : Env) (section : Section) : bool :=
  bool_decide (s_type section = closure_info env).

(** What [SectionViewSet.get_queryset] leaves of the sections of the
    hearing, at instant [n]. *)
Definition nested_keeps (env : Env) (hearing : Hearing) (n : Z)
    (section : Section) : bool :=
  if negb (hearing_closed env hearing n)
  then negb (is_closure_info env section)
  else true.

(** The [Q] object [open_hearings] of [RootSectionViewSet.get_queryset]. *)
Definition open_hearings (hearing : Hearing) (n : Z) : bool :=
  negb (h_force_closed hearing)
  && (h_open_at hearing <=? n)
  && (h_close_at hearing >? n).

(** What [RootSectionViewSet.get_queryset] leaves, at instant [n]. *)
Definition root_keeps (env : Env) (hearing : Hearing) (n : Z)
    (section : Section) : bool :=
  negb (open_hearings hearing n && is_closure_info env section).

End Democracy.

(** ** The legacy generation: [kk/models/section.py], [kk/models/scenario.py] *)

Module Kk.

(** A legacy section as the Python object holds it; the table stores it
    under its primary key. *)
Record Section : Type := mkSection
  { pk : option string;
    hearing_id : option string;
    ordering : Z;
    title : string;
    n_comments : Z }.

Record SectionComment : Type := mkSectionComment
  { sc_pk : option Z;
    sc_section : string;
    sc_content : string }.

Record Scenario : Type := mkScenario
  { s_hearing : string;
    s_title : string;
    s_n_comments : Z }.

Record ScenarioComment : Type := mkScenarioComment
  { c_pk : option Z;
    c_scenario : Z;
    c_content : string }.

Record DB : Type := mkDB
  { hearings : gset string;
    sections : gmap string Section;
    section_comments : gmap Z SectionComment;
    scenarios : gmap Z Scenario;
    scenario_comments : gmap Z ScenarioComment }.

Definition with_sections (t : gmap string Section) (d : DB) : DB :=
  mkDB (hearings d) t (section_comments d) (scenarios d) (scenario_comments d).
Definition with_section_comments (t : gmap Z SectionComment) (d : DB) : DB :=
  mkDB (hearings d) (sections d) t (scenarios d) (scenario_comments d).
Definition with_scenarios (t : gmap Z Scenario) (d : DB) : DB :=
  mkDB (hearings d) (sections d) (section_comments d) t (scenario_comments d).
Definition with_scenario_comments (t : gmap Z ScenarioComment) (d : DB) : DB :=
  mkDB (hearings d) (sections d) (section_comments d) (scenarios d) t.

Definition set_pk (k : string) (x : Section) : Section :=
  mkSection (Some k) (hearing_id x) (ordering x) (title x) (n_comments x).
Definition set_ordering (n : Z) (x : Section) : Section :=
  mkSection (pk x) (hearing_id x) n (title x) (n_comments x).
Definition set_n_comments (n : Z) (x : Section) : Section :=
  mkSection (pk x) (hearing_id x) (ordering x) (title x) n.
Definition s_set_n_comments (n : Z) (x : Scenario) : Scenario :=
  mkScenario (s_hearing x) (s_title x) n.

(** Python's truth value of a string-valued attribute that may be [None]. *)
Definition truthy (x : option string) : bool :=
  match x with
  | Some (String _ _) => true
  | _ => false
  end.

(** [l or dflt] for lists. *)
Definition py_or (l dflt : list Z) : list Z :=
  match l with
  | [] => dflt
  | _ :: _ => l
  end.

(** [max(l)]; [None] stands for the [ValueError] on an empty list. *)
Fixpoint py_max (l : list Z) : option Z :=
  match l with
  | [] => None
  | x :: l' =>
      Some (match py_max l' with
            | Some m => Z.max x m
            | None => x
            end)
  end.

(** [hearing.sections.values_list("ordering", flat=True)] *)
Definition sibling_orderings (hearing : string) (d : DB) : list Z :=
  (fun kr => ordering (snd kr))
    <$> rows (fun r => bool_decide (hearing_id r = Some hearing)) (sections d).

(** Modelled from the spec: [super(Section, self).save()], the save of
    the string-keyed base model, is outside the excerpt; the identifier is
    a string-typed primary key, given to the record when it has none, the
    reference to the hearing is mandatory, and the record is stored under
    its key. *)
Definition super_save (generate_id : DB -> string) (self : Section) (d : DB)
  : exn + (Section * DB) :=
  match hearing_id self with
  | Some (String c h) =>
      let k := match pk self with
               | Some (String c' k') => String c' k'
               | _ => generate_id d
               end in
      let self := set_pk k self in
      inr (self, with_sections (<[k := self]> (sections d)) d)
  | _ => inl IntegrityError
  end.

(** [Section.save] *)
Definition save (generate_id : DB -> string) (self : Section) (d : DB)
  : exn + (Section * DB) :=
  if negb (truthy (pk self)) && (ordering self =? 0) && truthy (hearing_id self)
  then
    match hearing_id self with
    | Some hearing =>
        if bool_decide (hearing ∈ hearings d) then
          match py_max (py_or (sibling_orderings hearing d) [0]) with
          | Some m => super_save generate_id (set_ordering (m + 1) self) d
          | None => inl (ValueError "max() arg is an empty sequence")
          end
        else inl DoesNotExist
    | None => inl AttributeError
    end
  else super_save generate_id self d.

(** A section that has not been saved yet and carries no ordering. *)
Definition fresh_section (hearing : string) (self : Section) : Prop :=
  truthy (pk self) = false /\ ordering self = 0
  /\ hearing_id self = Some hearing /\ truthy (Some hearing) = true.

(** *** Comments and the [post_save] signal *)

Inductive Model : Type :=
| SectionModel | SectionCommentModel | ScenarioModel | ScenarioCommentModel.

#[global] Instance Model_eq_dec : EqDecision Model.
Proof. solve_decision. Defined.

Inductive Instance : Type :=
| ASectionComment (k : Z) (c : SectionComment)
| AScenarioComment (k : Z) (c : ScenarioComment).

Definition Receiver : Type := Instance -> DB -> exn + DB.

(** Modelled from the spec: [recache_n_comments()], a method of the
    comments mixin, is outside the excerpt; the cached count is recomputed
    from the live comment set. *)
Definition scenario_recache_n_comments (scenario : Z) (d : DB) : exn + DB :=
  match scenarios d !! scenario with
  | None => inl DoesNotExist
  | Some s =>
      let n := length (rows (fun c => bool_decide (c_scenario c = scenario))
                            (scenario_comments d)) in
      inr (with_scenarios
             (<[scenario := s_set_n_comments (Z.of_nat n) s]> (scenarios d)) d)
  end.

(** Modelled from the spec: [recache_n_comments()] of a legacy section,
    outside the excerpt likewise. *)
Definition section_recache_n_comments (section : string) (d : DB) : exn + DB :=
  match sections d !! section with
  | None => inl DoesNotExist
  | Some s =>
      let n := length (rows (fun c => bool_decide (sc_section c = section))
                            (section_comments d)) in
      inr (with_sections
             (<[section := set_n_comments (Z.of_nat n) s]> (sections d)) d)
  end.

Definition scenario_n_comments_bump : Receiver :=
  fun instance d =>
    match instance with
    | AScenarioComment _ c => scenario_recache_n_comments (c_scenario c) d
    | _ => inl AttributeError
    end.

(** Modelled from the spec: the decorator [recache_on_save] is outside
    the excerpt; it connects, for the decorated class, a receiver that
    triggers the owning section's comment-count recache on every save. *)
Definition recache_parent_n_comments : Receiver :=
  fun instance d =>
    match instance with
    | ASectionComment _ c => section_recache_n_comments (sc_section c) d
    | _ => inl AttributeError
    end.

(** The receivers connected to [post_save] once the modules are loaded. *)
Definition post_save : list (Model * Receiver) :=
  [ (SectionCommentModel, recache_parent_n_comments);
    (ScenarioCommentModel, scenario_n_comments_bump) ].

(** [post_save.send(sender, instance)] *)
Fixpoint send (receivers : list (Model * Receiver)) (sender : Model)
    (instance : Instance) (d : DB) : exn + DB :=
  match receivers with
  | [] => inr d
  | (m, receiver) :: rest =>
      if bool_decide (m = sender) then
        match receiver instance d with
        | inr d' => send rest sender instance d'
        | inl e => inl e
        end
      else send rest sender instance d
  end.

(** Modelled from the spec: [Model.save] of a comment is outside the
    excerpt; the row is stored under its key, a new one if it has none,
    and the post-save hooks run. *)
Definition ScenarioComment_save (c : ScenarioComment) (d : DB)
  : exn + (Z * DB) :=
  let k := default (next_id (scenario_comments d)) (c_pk c) in
  let c := mkScenarioComment (Some k) (c_scenario c) (c_content c) in
  let d := with_scenario_comments (<[k := c]> (scenario_comments d)) d in
  match send post_save ScenarioCommentModel (AScenarioComment k c) d with
  | inr d' => inr (k, d')
  | inl e => inl e
  end.

(** Modelled from the spec: [Model.save] of a legacy section comment,
    as for a scenario comment. *)
Definition SectionComment_save (c : SectionComment) (d : DB)
  : exn + (Z * DB) :=
  let k := default (next_id (section_comments d)) (sc_pk c) in
  let c := mkSectionComment (Some k) (sc_section c) (sc_content c) in
  let d := with_section_comments (<[k := c]> (section_comments d)) d in
  match send post_save SectionCommentModel (ASectionComment k c) d with
  | inr d' => inr (k, d')
  | inl e => inl e
  end.

End Kk.

(** ** The common shape of the three child handlers

    [_handle_images], [_handle_options] and [_handle_questions] are the
    same two loops over different tables: save each incoming item and
    collect the ids, then soft-delete the other children of the parent.
    The shape is stated once here, over a table given by its getter and
    setter, so that what holds of it is proved once. *)

Module Children.
Import Democracy.
Local Open Scope py_scope.

Section Shape.
Context {R Item : Type}.
Variable tget : DB -> gmap Z R.
Variable tset : gmap Z R -> DB -> DB.
Variable deleted : R -> bool.
Variable set_deleted : R -> R.
Variable env : Env.
(** saving one incoming item *)
Variable step : Item -> M (Z * R).
(** the instance the item's serializer was built on *)
Variable inst : Item -> option (Z * R).
(** what saving an item promises of the row it stores *)
Variable made : Item -> R -> Prop.
(** membership of the parent's related set *)
Variable in_parent : R -> bool.

Fixpoint save_loop (data : list Item) (kept : gset Z) : M (gset Z) :=
  match data with
  | [] => ret kept
  | x :: rest =>
      let* saved := step x in
      save_loop rest ({[fst saved]} ∪ kept)
  end.

Definition soft_delete_in (pk : Z) : M unit :=
  write env (fun d => tset (alter set_deleted pk (tget d)) d).

Definition related (d : DB) : list (Z * R) :=
  rows (fun r => in_parent r && in_manager env (deleted r)) (tget d).

Definition handle (data : list Item) : M unit :=
  let* kept := save_loop data ∅ in
  let* d := read in
  for_each (exclude_ids kept (related d)) (fun kr => soft_delete_in (fst kr)).

(** What one save does to the table: the row goes under the key of the
    instance, keeping its [deleted] flag, or under a key that was free. *)
Definition saved_as (t : gmap Z R) (x : Item) (pr : Z * R) : Prop :=
  made x (snd pr)
  /\ match inst x with
     | Some (pk, snapshot) =>
         fst pr = pk /\ deleted (snd pr) = deleted snapshot
     | None => t !! fst pr = None /\ deleted (snd pr) = false
     end.

(** The rows a run of the first loop stored, item by item. *)
Fixpoint stored (t : gmap Z R) (data : list Item) (saved : list (Z * R))
  : Prop :=
  match data, saved with
  | [], [] => True
  | x :: data', pr :: saved' =>
      saved_as t x pr /\ stored (<[fst pr := snd pr]> t) data' saved'
  | _, _ => False
  end.

(** The table after the rows of [saved] were written in turn. *)
Definition written (t : gmap Z R) (saved : list (Z * R)) : gmap Z R :=
  foldl (fun t pr => <[fst pr := snd pr]> t) t saved.

End Shape.

(** The three instances. *)

Definition image_inst (item : ImageItem) : option (Z * SectionImage) :=
  ii_serializer item ≫= is_instance.

Definition image_step (env : Env) (section : string) (item : ImageItem)
  : M (Z * SectionImage) :=
  match ii_serializer item with
  | None => raise (KeyError "serializer")
  | Some serializer => save_image env serializer (Some section)
  end.

Definition image_made (env : Env) (section : string) (item : ImageItem)
    (row : SectionImage) : Prop :=
  im_section row = section
  /\ exists serializer,
      ii_serializer item = Some serializer
      /\ (forall n, idata_ordering (is_validated serializer) = Some n ->
                    im_ordering row = n).

Definition option_inst (item : OptionItem) : option (Z * SectionPollOption) :=
  oi_serializer item ≫= os_instance.

Definition option_step (env : Env) (poll : Z) (item : OptionItem)
  : M (Z * SectionPollOption) :=
  match oi_serializer item with
  | None => raise (KeyError "serializer")
  | Some serializer =>
      match od_ordering (oi_data item) with
      | None => raise (KeyError "ordering")
      | Some ordering => save_option env serializer poll ordering
      end
  end.

Definition option_made (poll : Z) (item : OptionItem)
    (row : SectionPollOption) : Prop :=
  o_poll row = poll
  /\ od_ordering (oi_data item) = Some (o_ordering row)
  /\ exists serializer,
      oi_serializer item = Some serializer
      /\ (forall t, od_text (os_validated serializer) = Some t ->
                    o_text row = t).

Definition poll_inst (item : PollItem) : option (Z * SectionPoll) :=
  pi_serializer item ≫= ps_instance.

Definition poll_step (env : Env) (section : string) (item : PollItem)
  : M (Z * SectionPoll) :=
  match pi_serializer item with
  | None => raise (KeyError "serializer")
  | Some serializer =>
      match pd_ordering (pi_data item) with
      | None => raise (KeyError "ordering")
      | Some ordering => save_poll env serializer section ordering
      end
  end.

Definition poll_made (section : string) (item : PollItem)
    (row : SectionPoll) : Prop :=
  p_section row = section
  /\ pd_ordering (pi_data item) = Some (p_ordering row).

End Children.

(** ** What validation hands on *)

Module Validated.
Import Democracy.

(** [items] are the payloads of [data], each related by [rel] to its
    position, counted from [index]. *)
Fixpoint items_from {Raw Item : Type} (rel : Z -> Raw -> Item -> Prop)
    (index : Z) (data : list Raw) (items : list Item) : Prop :=
  match data, items with
  | [], [] => True
  | raw :: data', item :: items' =>
      rel index raw item /\ items_from rel (index + 1) data' items'
  | _, _ => False
  end.

(** The item of an image payload at position [index]: the payload with
    its ['ordering'] set to the position, and a serializer on that
    payload, built on the image of the section the payload names, if it
    names one. *)
Definition image_item (env : Env) (instance : option string) (d : DB)
    (index : Z) (raw : ImageData) (item : ImageItem) : Prop :=
  ii_data item = idata_set_ordering index raw
  /\ exists serializer,
      ii_serializer item = Some serializer
      /\ is_validated serializer = idata_set_ordering index raw
      /\ match given_id (idata_id raw) with
         | Some pk =>
             exists section r,
               instance = Some section
               /\ get_row (fun r => bool_decide (im_section r = section)
                                    && in_manager env (im_deleted r))
                          (images d) pk = Some r
               /\ is_instance serializer = Some (pk, r)
         | None => is_instance serializer = None
         end.

Definition option_item (env : Env) (instance : option Z) (d : DB)
    (index : Z) (raw : OptionData) (item : OptionItem) : Prop :=
  oi_data item = od_set_ordering (index + 1) raw
  /\ exists serializer,
      oi_serializer item = Some serializer
      /\ os_validated serializer = od_set_ordering (index + 1) raw
      /\ match given_id (od_id raw) with
         | Some pk =>
             exists poll r,
               instance = Some poll
               /\ get_row (fun r => bool_decide (o_poll r = poll)
                                    && in_manager env (o_deleted r))
                          (options d) pk = Some r
               /\ os_instance serializer = Some (pk, r)
         | None => os_instance serializer = None
         end.

Definition poll_item (env : Env) (instance : option string) (d : DB)
    (index : Z) (raw : PollData) (item : PollItem) : Prop :=
  pi_data item = pd_set_ordering (index + 1) raw
  /\ exists serializer,
      pi_serializer item = Some serializer
      /\ match given_id (pd_id raw) with
         | Some pk =>
             exists section r,
               instance = Some section
               /\ get_row (fun r => bool_decide (p_section r = section)
                                    && in_manager env (p_deleted r))
                          (polls d) pk = Some r
               /\ ps_instance serializer = Some (pk, r)
         | None => ps_instance serializer = None
         end
      /\ exists options_data items,
          pd_options raw = Some options_data
          /\ pv_options (ps_validated serializer) = Some items
          /\ items_from (option_item env (fst <$> ps_instance serializer) d)
                  0 options_data items.

End Validated.

(** ** Notions the statements are written with *)

Module Notions.
Import Democracy.
Local Open Scope py_scope.

(** [m] leaves the stack of savepoints as it found it and relates the
    database before to the database after by [P], whatever it returns. *)
Definition respects {A} (P : DB -> DB -> Prop) (m : M A) : Prop :=
  forall st r st', m st = (r, st') ->
    savepoints st' = savepoints st /\ P (db st) (db st').

(** [P] holds across a replacement of one table by a table with at least
    the same keys. *)
Definition tol_sections (P : DB -> DB -> Prop) : Prop :=
  forall d t, dom (sections d) ⊆ dom t -> P d (with_sections t d).
Definition tol_images (P : DB -> DB -> Prop) : Prop :=
  forall d t, dom (images d) ⊆ dom t -> P d (with_images t d).
Definition tol_polls (P : DB -> DB -> Prop) : Prop :=
  forall d t, dom (polls d) ⊆ dom t -> P d (with_polls t d).
Definition tol_options (P : DB -> DB -> Prop) : Prop :=
  forall d t, dom (options d) ⊆ dom t -> P d (with_options t d).

(** No key of any table is lost. *)
Definition grows (d d' : DB) : Prop :=
  hearings d' = hearings d
  /\ dom (sections d) ⊆ dom (sections d')
  /\ dom (images d) ⊆ dom (images d')
  /\ dom (polls d) ⊆ dom (polls d')
  /\ dom (options d) ⊆ dom (options d').

(** The relation that holds of any two databases. *)
Definition anything (d d' : DB) : Prop := True.

Definition same_images (d d' : DB) : Prop := images d' = images d.
Definition same_polls (d d' : DB) : Prop := polls d' = polls d.

(** The state a decorated body starts in. *)
Definition enter (st : State) : State :=
  mkState (db st) (db st :: savepoints st).



Definition has_text (option : OptionData) : Prop := is_Some (od_text option).

(** The refusal of an edit of the poll [pk]. *)
Definition rejected (pk : Z) (st : State) : (exn + unit) * State :=
  (inl (ValidationError (msg_has_answers pk)), st).

Definition msg_update_denied : string :=
  "Only organisation admin can update SectionImages".

(** Whether the requester administers the organisation of the hearing. *)
Definition administers (request : Request) (hearing : Hearing) : bool :=
  match h_organization hearing with
  | Some org => bool_decide (org ∈ user_admin_organizations request)
  | None => false
  end.

(** The greatest of the submitted ordering and the orderings of the
    images the section had. *)
Definition greatest (submitted : Z) (before : list (Z * SectionImage)) : Z :=
  match aggregate_max before with
  | Some m => Z.max submitted m
  | None => submitted
  end.

(** What a handler that was given only new items leaves: one row per
    item, under pairwise distinct keys that were free, each satisfying
    [row_ok] at its position. *)
Definition all_new {R} (before after : gmap Z R) (n : nat)
    (row_ok : nat -> R -> Prop) : Prop :=
  exists saved : list (Z * R),
    length saved = n
    /\ NoDup (fst <$> saved)
    /\ (forall pk, pk ∈ fst <$> saved -> before !! pk = None)
    /\ forall (i : nat) pk row, saved !! i = Some (pk, row) ->
         after !! pk = Some row /\ row_ok i row.

(** What a handler leaves of the children of a parent: those the
    incoming array does not name are flagged deleted, those it names keep
    their flag, which is off if the manager hides deleted rows. *)
Definition replaced {R} (env : Env) (deleted : R -> bool)
    (in_parent : R -> Prop) (incoming : Z -> Prop)
    (before after : gmap Z R) : Prop :=
  (forall pk r0,
      before !! pk = Some r0 -> in_parent r0 -> ~ incoming pk ->
      exists r, after !! pk = Some r /\ deleted r = true)
  /\ (forall pk,
         incoming pk ->
         exists r0 r,
           before !! pk = Some r0 /\ after !! pk = Some r
           /\ deleted r = deleted r0
           /\ (hide_deleted env = true -> deleted r = false)).

(** The payloads that name the key [pk]. *)
Definition names {Raw} (id : Raw -> option Z) (data : list Raw) (pk : Z) : Prop :=
  exists raw, raw ∈ data /\ given_id (id raw) = Some pk.

End Notions.

(** ** Concrete data the statements below are tried on *)

Module Sample.
Import Democracy.

Definition env0 : Env :=
  mkEnv true (fun _ => true)
        (fun a b => bool_decide (a = b))
        1
        (fun d => "generated")
        "closure-info"
        (fun h n => h_force_closed h || negb ((h_open_at h <=? n) && (n <=? h_close_at h)))
        (mkSection "" "" 1 true [] false)
        (fun _ _ => None) (fun _ _ => None) (fun _ _ => None).

(** As [env0], but the database refuses any state that holds a poll. *)
Definition env_no_polls : Env :=
  mkEnv true (fun d => bool_decide (polls d = ∅))
        (fun a b => bool_decide (a = b))
        1
        (fun d => "generated")
        "closure-info"
        (fun h n => h_force_closed h)
        (mkSection "" "" 1 true [] false)
        (fun _ _ => None) (fun _ _ => None) (fun _ _ => None).

Definition fi (s : string) : translations := [("fi", s)].

Definition hearing1 : Hearing := mkHearing (Some 10) false 100 200.
Definition hearing2 : Hearing := mkHearing None false 100 200.

Definition section1 : Section := mkSection "h1" "part" 1 true (fi "Osa") false.
Definition section2 : Section := mkSection "h2" "part" 1 true (fi "Toinen") false.

Definition image_a : SectionImage := mkSectionImage "s1" 1 false (fi "A") "aaa".
Definition image_b : SectionImage := mkSectionImage "s1" 2 false (fi "B") "bbb".
Definition image_c : SectionImage := mkSectionImage "s1" 5 false (fi "C") "ccc".

Definition poll7 : SectionPoll :=
  mkSectionPoll "s1" 1 false "single-choice" (fi "Kysymys") 1 false.
Definition poll8 : SectionPoll :=
  mkSectionPoll "s1" 2 false "single-choice" (fi "Toinen kysymys") 0 false.

Definition option1 : SectionPollOption := mkSectionPollOption 7 1 false (fi "Kylla") 1.
Definition option2 : SectionPollOption := mkSectionPollOption 7 2 false (fi "Ei") 0.
Definition option3 : SectionPollOption := mkSectionPollOption 8 1 false (fi "X") 0.

Definition db0 : DB :=
  mkDB {[ "h1" := hearing1; "h2" := hearing2 ]}
       {[ "s1" := section1; "s2" := section2 ]}
       {[ 1 := image_a; 2 := image_b; 3 := image_c ]}
       {[ 7 := poll7; 8 := poll8 ]}
       {[ 1 := option1; 2 := option2; 3 := option3 ]}.

Definition st0 : State := mkState db0 [].

Definition od (pk : option Z) (text : string) : OptionData :=
  mkOptionData pk None (Some (fi text)).

(** Payloads for poll 7: unchanged but for [is_independent_poll]; with
    another text; with one option fewer; with another option text. *)
Definition poll7_same : PollData :=
  mkPollData (Some 7) None (Some "single-choice") (Some (fi "Kysymys"))
             (Some [od (Some 1) "Kylla"; od (Some 2) "Ei"]) (Some true).
Definition poll7_text : PollData :=
  mkPollData (Some 7) None (Some "single-choice") (Some (fi "Muutettu"))
             (Some [od (Some 1) "Kylla"; od (Some 2) "Ei"]) None.
Definition poll7_fewer : PollData :=
  mkPollData (Some 7) None (Some "single-choice") (Some (fi "Kysymys"))
             (Some [od (Some 1) "Kylla"]) None.
Definition poll7_option : PollData :=
  mkPollData (Some 7) None (Some "single-choice") (Some (fi "Kysymys"))
             (Some [od (Some 1) "Kylla"; od (Some 2) "Ehka"]) None.
Definition poll8_text : PollData :=
  mkPollData (Some 8) None (Some "single-choice") (Some (fi "Muutettu"))
             (Some [od None "Y"]) None.

(** The items a run of a validation method returned. *)
Definition items_of {A} (r : (exn + list A) * State) : list A :=
  match fst r with
  | inr items => items
  | inl _ => []
  end.

Definition new_image (ordering : option Z) : ImageData :=
  mkImageData None ordering None (Some "xxx").

(** An update of section [s1]: images 1 and 3 are named, image 2 is left
    out and one image is new; question 7 is named, question 8 left out. *)
Definition raw_images : list ImageData :=
  [ mkImageData (Some 1) None None None;
    mkImageData (Some 3) (Some 99) None None;
    new_image None ].
Definition raw_questions : list PollData := [poll7_same].
Definition images_data : list ImageItem :=
  items_of (validate_images env0 (Some "s1") raw_images st0).
Definition polls_data : list PollItem :=
  items_of (validate_questions env0 (Some "s1") raw_questions st0).
Definition title_only : SectionFields :=
  mkSectionFields None None None None None (Some (fi "Uusi otsikko")).
Definition update1 : (exn + (string * Section)) * State :=
  update env0 ("s1", section1)
         (mkSectionValidated title_only (Some images_data) (Some polls_data))
         st0.
Definition section1' : Section :=
  mkSection "h1" "part" 1 true (fi "Uusi otsikko") false.

(** An update of poll 7 that names option 1 only. *)
Definition poll7_one_option : PollData :=
  mkPollData (Some 7) None None None (Some [od (Some 1) "Kylla"]) None.
Definition poll7_serializer : PollSerializer :=
  match fst (poll_is_valid env0 (Some (7, poll7)) poll7_one_option st0) with
  | inr serializer => serializer
  | inl _ => mkPollSerializer None (mkPollValidated None None None None)
  end.
Definition poll7_update : (exn + (Z * SectionPoll)) * State :=
  save_poll env0 poll7_serializer "s1" 1 st0.

(** Three new options for poll 8. *)
Definition raw_options : list OptionData :=
  [od None "X"; od None "Y"; od None "Z"].
Definition options_data : list OptionItem :=
  items_of (validate_options env0 (Some 8) raw_options st0).
Definition options1 : (exn + unit) * State :=
  _handle_options env0 8 options_data st0.

(** A new section with one image and one question, on a database
    without polls. *)
Definition db1 : DB := with_options ∅ (with_polls ∅ db0).
Definition st1 : State := mkState db1 [].
Definition new_poll : PollData :=
  mkPollData None None (Some "single-choice") (Some (fi "Uusi"))
             (Some [od None "X"]) None.
Definition new_section : SectionValidated :=
  mkSectionValidated
    (mkSectionFields (Some "s9") (Some "h1") (Some "part") None None None)
    (Some (items_of (validate_images env_no_polls None [new_image None] st1)))
    (Some (items_of (validate_questions env_no_polls None [new_poll] st1))).

End Sample.

Module KkSample.
Import Kk.

(** An identifier generator: the number of stored sections, in unary. *)
Definition gen (d : DB) : string :=
  String "s" (string_of_list_ascii (repeat "i"%char (size (sections d)))).

Definition new_section (title : string) : Section :=
  mkSection None (Some "h1") 0 title 0.


Definition scenario1 : Scenario := mkScenario "h1" "Skenaario" 2.
Definition comment1 : ScenarioComment := mkScenarioComment (Some 1) 5 "yksi".
Definition comment2 : ScenarioComment := mkScenarioComment (Some 2) 5 "kaksi".

Definition old_section : Section := mkSection (Some "a") (Some "h2") 4 "vanha" 2.
Definition scomment1 : SectionComment := mkSectionComment (Some 1) "a" "yksi".
Definition scomment2 : SectionComment := mkSectionComment (Some 2) "a" "kaksi".

Definition db0 : DB :=
  mkDB {[ "h1"; "h2" ]}
       {[ "a" := old_section ]}
       {[ 1 := scomment1; 2 := scomment2 ]}
       {[ 5 := scenario1 ]}
       {[ 1 := comment1; 2 := comment2 ]}.

End KkSample.

(** ** ThumbnailImageSerializer: what a request is served *)

Module Thumbnail.
Import Dim.

(** What the three methods raise: [ParseError(detail, code)], or an
    exception they do not catch. *)
Inductive raised : Type :=
| ParseError (detail code : string)
| Uncaught (e : exn).

(** The request of the serializer context, with [request.GET.get('dim')]. *)
Record Request : Type := mkRequest { GET_dim : option string }.

(** The stored image: its native dimensions and its file. *)
Record StoredImage : Type := mkStoredImage
  { width : Z;
    height : Z;
    image : string }.

(** What [_get_image] returns: the stored file, or what
    [get_thumbnailer(obj.image).get_thumbnail] answered; the thumbnails
    the library serves are of a type [T] of its own. *)
Inductive Served (T : Type) : Type :=
| Original (file : string)
| Thumb (thumbnail : T).
Arguments Original {T} file.
Arguments Thumb {T} thumbnail.

(** [request and 'dim' in request.GET], with the value found. *)
Definition requested_dim (request : option Request) : option string :=
  request ≫= GET_dim.

(** The [try: ... except ValueError as verr: raise ParseError(...)] block
    the three methods share; [int] is the builtin. *)
Definition parsed (int : string -> option Z) (dim : string)
  : raised + (Z * Z) :=
  match _parse_dimension_string int dim with
  | inr size => inr size
  | inl (ValueError verr) => inl (ParseError verr "invalid-dim-parameter")
  | inl e => inl (Uncaught e)
  end.

Definition get_width (int : string -> option Z) (request : option Request)
    (obj : StoredImage) : raised + Z :=
  match requested_dim request with
  | Some dim =>
      match parsed int dim with
      | inr (width, _height) => inr width
      | inl e => inl e
      end
  | None => inr (width obj)
  end.

Definition get_height (int : string -> option Z) (request : option Request)
    (obj : StoredImage) : raised + Z :=
  match requested_dim request with
  | Some dim =>
      match parsed int dim with
      | inr (_width, height) => inr height
      | inl e => inl e
      end
  | None => inr (height obj)
  end.

(** [get_thumbnail file size crop] stands for
    [get_thumbnailer(file).get_thumbnail({'size': size, 'crop': crop})],
    a call into the thumbnail library: what it serves for the options,
    and what it raises, is the library's. *)
Definition _get_image {T} (int : string -> option Z)
    (get_thumbnail : string -> Z * Z -> string -> exn + T)
    (request : option Request) (obj : StoredImage) : raised + Served T :=
  match requested_dim request with
  | Some dim =>
      match parsed int dim with
      | inr (width, height) =>
          match get_thumbnail (image obj) (width, height) "smart" with
          | inr thumbnail => inr (Thumb thumbnail)
          | inl e => inl (Uncaught e)
          end
      | inl e => inl e
      end
  | None => inr (Original (image obj))
  end.

(** A part of a [dim] string that denotes [p] with blanks around it, a
    plus sign and a leading zero. *)
Definition decorated (p : positive) : string :=
  " +0" +:+ decimal p +:+ " ".

End Thumbnail.

(** ** The query sets of the view sets *)

Module Queries.
Import Democracy.

(** [ImageViewSet.get_queryset].  The query set of the mixin and
    [filter_by_hearing_visible] are outside the excerpt; [visible] tells
    which images the two let through. *)
Definition ImageViewSet_get_queryset (visible : SectionImage -> bool) (d : DB)
  : list (Z * SectionImage) :=
  filter (fun kr => im_deleted (snd kr) = false) (rows visible (images d)).

(** The condition [RootSectionViewSet.get_queryset] excludes by, on a
    section joined with its hearing. *)
Definition root_excluded (env : Env) (n : Z) (d : DB) (section : Section)
  : bool :=
  match hearings d !! s_hearing section with
  | Some hearing => open_hearings hearing n && is_closure_info env section
  | None => false
  end.

(** [RootSectionViewSet.get_queryset] at the instant [n = now()];
    [visible] stands for the mixin's query set and
    [filter_by_hearing_visible], as above. *)
Definition RootSectionViewSet_get_queryset (env : Env)
    (visible : Section -> bool) (n : Z) (d : DB) : list (string * Section) :=
  filter (fun kr => root_excluded env n d (snd kr) = false)
         (rows visible (sections d)).

End Queries.

(** ** Further notions the statements are written with *)

Module Notions2.
Import Democracy.


(** Two payloads carry the same text and the same option texts. *)
Definition same_texts (a b : PollData) : Prop :=
  pd_text a = pd_text b
  /\ (fun l : list OptionData => od_text <$> l) <$> pd_options a
     = (fun l : list OptionData => od_text <$> l) <$> pd_options b.

(** The tables of [d'] other than that of the images are those of [d]. *)
Definition only_images (d d' : DB) : Prop :=
  hearings d' = hearings d /\ sections d' = sections d
  /\ polls d' = polls d /\ options d' = options d.

(** The tables of [d'] other than that of the options are those of [d]. *)
Definition only_options (d d' : DB) : Prop :=
  hearings d' = hearings d /\ sections d' = sections d
  /\ images d' = images d /\ polls d' = polls d.

(** The tables of [d'] other than those of the polls and of the options
    are those of [d]. *)
Definition only_polls (d d' : DB) : Prop :=
  hearings d' = hearings d /\ sections d' = sections d
  /\ images d' = images d.


(** What a handler leaves of the items it was given: one row per item,
    under pairwise distinct keys, each satisfying [row_ok] at its
    position and key. *)
Definition placed {R} (after : gmap Z R) (n : nat)
    (row_ok : nat -> Z -> R -> Prop) : Prop :=
  exists keys : list Z,
    length keys = n
    /\ NoDup keys
    /\ forall (i : nat) pk, keys !! i = Some pk ->
         exists row, after !! pk = Some row /\ row_ok i pk row.

(** The ids a list of payloads names, in the order of the list. *)
Definition named_ids {Raw} (id : Raw -> option Z) (data : list Raw) : list Z :=
  omap (fun raw => given_id (id raw)) data.

(** An image payload that [validate_images] lets through at position
    [index]: it names an image the section shows, or it names none and
    carries the image content; and [is_valid] finds nothing wrong with
    its fields, the ordering of the position among them. *)
Definition image_acceptable (env : Env) (instance : option string) (d : DB)
    (index : Z) (raw : ImageData) : Prop :=
  match given_id (idata_id raw) with
  | Some pk =>
      exists section row,
        instance = Some section
        /\ get_row (fun r => bool_decide (im_section r = section)
                             && in_manager env (im_deleted r))
                   (images d) pk = Some row
        /\ image_errors env (Some (pk, row)) (idata_set_ordering index raw)
           = None
  | None =>
      is_Some (idata_image raw)
      /\ image_errors env None (idata_set_ordering index raw) = None
  end.

(** An option payload that [validate_options] lets through at position
    [index]: it names no option, or one the poll shows; and [is_valid]
    finds nothing wrong with its fields. *)
Definition option_acceptable (env : Env) (instance : option Z) (d : DB)
    (index : Z) (raw : OptionData) : Prop :=
  match given_id (od_id raw) with
  | Some pk =>
      exists poll row,
        instance = Some poll
        /\ get_row (fun r => bool_decide (o_poll r = poll)
                             && in_manager env (o_deleted r))
                   (options d) pk = Some row
        /\ option_errors env (Some (pk, row))
             (od_set_ordering (index + 1) raw) = None
  | None => option_errors env None (od_set_ordering (index + 1) raw) = None
  end.

(** [P] holds of every element of [data] at its position, counted from
    [index]. *)
Definition at_positions {A} (P : Z -> A -> Prop) (index : Z) (data : list A)
  : Prop :=
  forall (i : nat) x, data !! i = Some x -> P (index + Z.of_nat i) x.

(** The sections and the hearings of [d'] are those of [d]. *)
Definition same_sections (d d' : DB) : Prop :=
  hearings d' = hearings d /\ sections d' = sections d.

End Notions2.

(** ** Further data the statements are tried on *)

Module Sample2.
Import Democracy.

(** As [Sample.env0], but the database refuses any state whose options
    are not those of [Sample.db0]. *)
Definition env_fixed_options : Env :=
  mkEnv true (fun d => bool_decide (dom (options d) = dom (options Sample.db0)))
        (fun a b => bool_decide (a = b))
        1
        (fun d => "generated")
        "closure-info"
        (fun h n => h_force_closed h)
        (mkSection "" "" 1 true [] false)
        (fun _ _ => None) (fun _ _ => None) (fun _ _ => None).

(** A serializer for a new question with one new option. *)
Definition new_poll_serializer : PollSerializer :=
  mkPollSerializer None
    (mkPollValidated (Some "single-choice") (Some (Sample.fi "Uusi")) None
       (Some (Sample.items_of
                (validate_options env_fixed_options None
                   [Sample.od None "X"] Sample.st0)))).

(** An update of poll 8, which has no answers: its option 3 is left out
    and one option is new. *)
Definition poll8_new_option : PollData :=
  mkPollData (Some 8) None (Some "single-choice")
             (Some (Sample.fi "Toinen kysymys")) (Some [Sample.od None "Y"]) None.
Definition poll8_serializer : PollSerializer :=
  match Sample.items_of
          (validate_questions Sample.env0 (Some "s1") [poll8_new_option]
             Sample.st0) with
  | item :: _ =>
      default (mkPollSerializer None (mkPollValidated None None None None))
              (pi_serializer item)
  | [] => mkPollSerializer None (mkPollValidated None None None None)
  end.
Definition poll8_update : (exn + (Z * SectionPoll)) * State :=
  save_poll Sample.env0 poll8_serializer "s1" 1 Sample.st0.

(** An update of section [s1] that renames it to [s9] and carries two
    empty lists. *)
Definition rename_s1 : SectionValidated :=
  mkSectionValidated
    (mkSectionFields (Some "s9") None None None None None) (Some []) (Some []).

End Sample2.

(** * Tables *)

Lemma elem_of_rows `{Countable K} {R} (p : R -> bool) (t : gmap K R) k r :
  (k, r) ∈ rows p t <-> t !! k = Some r /\ p r = true.
Proof.
  unfold rows. rewrite list_elem_of_filter, elem_of_map_to_list. simpl. tauto.
Qed.

Lemma elem_of_exclude_ids {R} (ids : gset Z) (q : list (Z * R)) k r :
  (k, r) ∈ exclude_ids ids q <-> (k ∉ ids) /\ (k, r) ∈ q.
Proof. unfold exclude_ids. rewrite list_elem_of_filter. simpl. tauto. Qed.

Lemma get_row_Some {R} (p : R -> bool) (t : gmap Z R) pk r :
  get_row p t pk = Some r <-> t !! pk = Some r /\ p r = true.
Proof.
  unfold get_row. destruct (t !! pk) as [r'|]; [|split; [discriminate|intros [? _]; discriminate]].
  destruct (p r') eqn:E; split.
  - intros H. injection H as <-. auto.
  - intros [H _]. exact H.
  - discriminate.
  - intros [H Hp]. injection H as <-. congruence.
Qed.

Lemma next_id_bound {R} (t : gmap Z R) k : is_Some (t !! k) -> k < next_id t.
Proof.
  unfold next_id.
  assert (forall k, is_Some (t !! k) ->
                    k <= map_fold (fun k _ acc => Z.max k acc) 0 t) as Hb.
  { apply (map_fold_weak_ind
             (fun (b : Z) (m : gmap Z R) => forall k, is_Some (m !! k) -> k <= b)).
    - intros k' [x Hx]. rewrite lookup_empty in Hx. discriminate.
    - intros i x m b Hi IH k' [y Hy].
      destruct (decide (i = k')) as [->|Hne]; [lia|].
      rewrite lookup_insert_ne in Hy by exact Hne.
      specialize (IH k' (ex_intro _ y Hy)). lia. }
  intros H. specialize (Hb k H). lia.
Qed.

Lemma next_id_fresh {R} (t : gmap Z R) : t !! next_id t = None.
Proof.
  destruct (t !! next_id t) eqn:E; [|reflexivity].
  pose proof (next_id_bound t (next_id t) (ex_intro _ _ E)). lia.
Qed.

(** * Runs of the state-and-exception monad *)

Section Runs.
Import Democracy.

Lemma bind_returns {A B} (m : M A) (k : A -> M B) st b st' :
  bind m k st = (inr b, st') ->
  exists a st1, m st = (inr a, st1) /\ k a st1 = (inr b, st').
Proof.
  unfold bind. destruct (m st) as [[e|a] st1]; [discriminate|]. eauto.
Qed.

Lemma write_returns env f st u st' :
  write env f st = (inr u, st') ->
  st' = mkState (f (db st)) (savepoints st).
Proof.
  unfold write. destruct (constraints env _); [|discriminate].
  intros H. injection H as _ <-. reflexivity.
Qed.

Lemma atomic_body_returned {A} (body : M A) st a st' :
  atomic body st = (inr a, st') ->
  exists st1, body (mkState (db st) (db st :: savepoints st)) = (inr a, st1)
              /\ db st' = db st1.
Proof.
  unfold atomic. destruct (body _) as [[e|a'] st1]; [discriminate|].
  intros H. injection H as <- <-. eauto.
Qed.

End Runs.

Section Transactions.
Import Democracy Notions.
Local Open Scope py_scope.

Context (P : DB -> DB -> Prop) `{!PreOrder P}.

Lemma respects_ret {A} (a : A) : respects P (ret a).
Proof. intros st r st' H. injection H as <- <-. split; reflexivity. Qed.

Lemma respects_raise {A} e : respects P (@raise A e).
Proof. intros st r st' H. injection H as <- <-. split; reflexivity. Qed.

Lemma respects_read : respects P read.
Proof. intros st r st' H. injection H as <- <-. split; reflexivity. Qed.

Lemma respects_bind {A B} (m : M A) (k : A -> M B) :
  respects P m -> (forall a, respects P (k a)) -> respects P (bind m k).
Proof.
  intros Hm Hk st r st'. unfold bind.
  destruct (m st) as [[e|a] st1] eqn:E; destruct (Hm _ _ _ E) as [Hs HP].
  - intros H. injection H as <- <-. auto.
  - intros H. destruct (Hk a _ _ _ H) as [Hs' HP'].
    split; [congruence|]. etransitivity; eassumption.
Qed.

Lemma respects_write env f :
  (forall d, P d (f d)) -> respects P (write env f).
Proof.
  intros Hf st r st'. unfold write.
  destruct (constraints env (f (db st))); intros H; injection H as <- <-;
    simpl; split; auto; reflexivity.
Qed.

Lemma respects_for_each {A} (l : list A) body :
  (forall x, respects P (body x)) -> respects P (for_each l body).
Proof.
  intros Hb. induction l as [|x l IH]; simpl.
  - apply respects_ret.
  - apply respects_bind; [apply Hb|]. intros _. exact IH.
Qed.

Lemma respects_atomic {A} (body : M A) :
  respects P body -> respects P (atomic body).
Proof.
  intros Hb st r st'. unfold atomic.
  destruct (body _) as [[e|a] st1] eqn:E; destruct (Hb _ _ _ E) as [Hs HP];
    simpl in Hs, HP; rewrite Hs; simpl; intros H; injection H as <- <-; simpl;
    split; auto; reflexivity.
Qed.

Ltac respects_step :=
  match goal with
  | |- respects _ (bind _ _) => apply respects_bind; [|intros ?]
  | |- respects _ (ret _) => apply respects_ret
  | |- respects _ (raise _) => apply respects_raise
  | |- respects _ read => apply respects_read
  | |- respects _ (atomic _) => apply respects_atomic
  | |- respects _ (for_each _ _) => apply respects_for_each; intros ?
  | |- respects _ (write _ _) => apply respects_write; intros ?
  | |- respects _ (match ?x with _ => _ end) => destruct x
  | |- respects _ (let (_, _) := ?x in _) => destruct x
  end.

Ltac grown :=
  match goal with
  | H : tol_sections _ |- _ (with_sections _ _) => apply H
  | H : tol_images _ |- _ (with_images _ _) => apply H
  | H : tol_polls _ |- _ (with_polls _ _) => apply H
  | H : tol_options _ |- _ (with_options _ _) => apply H
  end;
  rewrite ?dom_insert_L, ?dom_alter_L;
  first [reflexivity | apply union_subseteq_r].

Ltac respects_auto := repeat respects_step; try grown.

Lemma save_image_respects env serializer section :
  tol_images P -> respects P (save_image env serializer section).
Proof. intros Hi. unfold save_image. respects_auto. Qed.

Lemma soft_delete_image_respects env pk :
  tol_images P -> respects P (soft_delete_image env pk).
Proof. intros Hi. unfold soft_delete_image. respects_auto. Qed.

Lemma save_images_respects env section data :
  tol_images P -> forall kept, respects P (save_images env section data kept).
Proof.
  intros Hi. induction data as [|x data IH]; intros kept; simpl.
  - apply respects_ret.
  - destruct (ii_serializer x); [|apply respects_raise].
    apply respects_bind; [apply save_image_respects, Hi|]. intros a. apply IH.
Qed.

Lemma handle_images_respects env section data :
  tol_images P -> respects P (_handle_images env section data).
Proof.
  intros Hi. unfold _handle_images.
  apply respects_bind; [apply save_images_respects, Hi|]. intros kept.
  apply respects_bind; [apply respects_read|]. intros d.
  apply respects_for_each. intros x. apply soft_delete_image_respects, Hi.
Qed.

Lemma save_option_respects env serializer poll ordering :
  tol_options P -> respects P (save_option env serializer poll ordering).
Proof. intros Ho. unfold save_option. respects_auto. Qed.

Lemma soft_delete_option_respects env pk :
  tol_options P -> respects P (soft_delete_option env pk).
Proof. intros Ho. unfold soft_delete_option. respects_auto. Qed.

Lemma save_options_respects env poll data :
  tol_options P -> forall kept, respects P (save_options env poll data kept).
Proof.
  intros Ho. induction data as [|x data IH]; intros kept; simpl.
  - apply respects_ret.
  - destruct (oi_serializer x); [|apply respects_raise].
    destruct (od_ordering (oi_data x)); [|apply respects_raise].
    apply respects_bind; [apply save_option_respects, Ho|]. intros a. apply IH.
Qed.

Lemma handle_options_respects env poll data :
  tol_options P -> respects P (_handle_options env poll data).
Proof.
  intros Ho. unfold _handle_options.
  apply respects_bind; [apply save_options_respects, Ho|]. intros kept.
  apply respects_bind; [apply respects_read|]. intros d.
  apply respects_for_each. intros x. apply soft_delete_option_respects, Ho.
Qed.

Lemma save_poll_respects env serializer section ordering :
  tol_polls P -> tol_options P ->
  respects P (save_poll env serializer section ordering).
Proof.
  intros Hp Ho. unfold save_poll. apply respects_atomic.
  apply respects_bind.
  - respects_auto.
  - intros poll. apply respects_bind; [apply handle_options_respects, Ho|].
    intros _. apply respects_ret.
Qed.

Lemma soft_delete_poll_respects env pk :
  tol_polls P -> respects P (soft_delete_poll env pk).
Proof. intros Hp. unfold soft_delete_poll. respects_auto. Qed.

Lemma save_polls_respects env section data :
  tol_polls P -> tol_options P ->
  forall kept, respects P (save_polls env section data kept).
Proof.
  intros Hp Ho. induction data as [|x data IH]; intros kept; simpl.
  - apply respects_ret.
  - destruct (pi_serializer x); [|apply respects_raise].
    destruct (pd_ordering (pi_data x)); [|apply respects_raise].
    apply respects_bind; [apply save_poll_respects; assumption|].
    intros a. apply IH.
Qed.

Lemma handle_questions_respects env section data :
  tol_polls P -> tol_options P ->
  respects P (_handle_questions env section data).
Proof.
  intros Hp Ho. unfold _handle_questions.
  apply respects_bind; [apply save_polls_respects; assumption|]. intros kept.
  apply respects_bind; [apply respects_read|]. intros d.
  apply respects_for_each. intros x. apply soft_delete_poll_respects, Hp.
Qed.

Lemma section_create_respects env fields :
  tol_sections P -> respects P (section_create env fields).
Proof. intros Hs. unfold section_create. respects_auto. Qed.

Lemma section_update_respects env instance fields :
  tol_sections P -> respects P (section_update env instance fields).
Proof. intros Hs. unfold section_update. respects_auto. Qed.

Lemma create_body_respects env validated_data :
  tol_sections P -> tol_images P -> tol_polls P -> tol_options P ->
  respects P (create_body env validated_data).
Proof.
  intros Hs Hi Hp Ho. unfold create_body.
  apply respects_bind; [apply section_create_respects, Hs|]. intros section.
  apply respects_bind; [apply handle_images_respects, Hi|]. intros _.
  apply respects_bind; [apply handle_questions_respects; assumption|]. intros _.
  apply respects_ret.
Qed.

Lemma update_body_respects env instance validated_data :
  tol_sections P -> tol_images P -> tol_polls P -> tol_options P ->
  respects P (update_body env instance validated_data).
Proof.
  intros Hs Hi Hp Ho. unfold update_body.
  apply respects_bind; [apply section_update_respects, Hs|]. intros section.
  apply respects_bind; [apply handle_images_respects, Hi|]. intros _.
  apply respects_bind; [apply handle_questions_respects; assumption|]. intros _.
  apply respects_ret.
Qed.

Lemma root_image_create_respects env validated_data :
  tol_images P -> respects P (root_image_create env validated_data).
Proof.
  intros Hi. unfold root_image_create. apply respects_atomic.
  apply respects_bind; [apply save_image_respects, Hi|]. intros image.
  respects_auto.
Qed.

Lemma fetch_section_respects pk : respects P (fetch_section pk).
Proof. unfold fetch_section. respects_auto. Qed.

Lemma is_admin_respects request section :
  respects P (_is_user_organisation_admin request section).
Proof. unfold _is_user_organisation_admin. respects_auto. Qed.

Lemma perform_destroy_respects env request instance :
  tol_images P -> respects P (perform_destroy env request instance).
Proof.
  intros Hi. unfold perform_destroy.
  apply respects_bind; [apply fetch_section_respects|]. intros section.
  apply respects_bind; [apply is_admin_respects|]. intros [|].
  - apply soft_delete_image_respects, Hi.
  - apply respects_raise.
Qed.

Lemma perform_update_respects env request serializer :
  tol_images P -> respects P (perform_update env request serializer).
Proof.
  intros Hi. unfold perform_update.
  destruct (ris_instance serializer); [|apply respects_raise].
  apply respects_bind; [apply fetch_section_respects|]. intros section.
  apply respects_bind; [apply is_admin_respects|]. intros [|].
  - apply save_image_respects, Hi.
  - apply respects_raise.
Qed.

Lemma perform_create_respects env request serializer :
  tol_images P -> respects P (perform_create env request serializer).
Proof.
  intros Hi. unfold perform_create.
  destruct (rv_section (ris_validated serializer)); [|apply respects_raise].
  apply respects_bind; [apply fetch_section_respects|]. intros section.
  apply respects_bind; [apply is_admin_respects|]. intros [|].
  - apply root_image_create_respects, Hi.
  - apply respects_raise.
Qed.

End Transactions.

(** * The common shape of the child handlers *)

Section ChildrenFacts.
Import Democracy Children.
Context {R Item : Type}.
Variable tget : DB -> gmap Z R.
Variable tset : gmap Z R -> DB -> DB.
Variable deleted : R -> bool.
Variable set_deleted : R -> R.
Variable env : Env.
Variable step : Item -> M (Z * R).
Variable inst : Item -> option (Z * R).
Variable made : Item -> R -> Prop.
Variable in_parent : R -> bool.

Hypothesis tget_tset : forall t d, tget (tset t d) = t.
Hypothesis deleted_set_deleted : forall r, deleted (set_deleted r) = true.
Hypothesis step_spec :
  forall x st pr st',
    step x st = (inr pr, st') ->
    tget (db st') = <[fst pr := snd pr]> (tget (db st))
    /\ saved_as deleted inst made (tget (db st)) x pr.

Local Abbreviation save_loop := (save_loop step).
Local Abbreviation stored := (stored deleted inst made).
Local Abbreviation handle :=
  (handle tget tset deleted set_deleted env step in_parent).
Local Abbreviation soft_delete_in := (soft_delete_in tget tset set_deleted env).
Local Abbreviation related := (related tget deleted env in_parent).

Lemma save_loop_stored data :
  forall kept st kept' st',
    save_loop data kept st = (inr kept', st') ->
    exists saved,
      stored (tget (db st)) data saved
      /\ kept' = list_to_set (fst <$> saved) ∪ kept
      /\ tget (db st') = written (tget (db st)) saved.
Proof.
  induction data as [|x data IH]; intros kept st kept' st' H; simpl in H.
  - injection H as <- <-. exists []. simpl. split; [exact I|].
    split; [|reflexivity]. rewrite (left_id_L ∅ (∪)). reflexivity.
  - apply bind_returns in H as (pr & st1 & Hx & Hrest).
    destruct (step_spec _ _ _ _ Hx) as [Ht Hs].
    destruct (IH _ _ _ _ Hrest) as (saved & Hst & Hk & Hw).
    exists (pr :: saved). simpl. rewrite <- Ht. split; [auto|].
    split; [|exact Hw]. rewrite Hk.
    rewrite (comm_L (∪) {[fst pr]} (list_to_set _)), <- (assoc_L (∪)).
    reflexivity.
Qed.

Lemma written_other (saved : list (Z * R)) :
  forall t pk, pk ∉ fst <$> saved -> written t saved !! pk = t !! pk.
Proof.
  induction saved as [|pr saved IH]; intros t pk Hn; simpl; [reflexivity|].
  rewrite fmap_cons, not_elem_of_cons in Hn. destruct Hn as [Hne Hn].
  unfold written in *. simpl. rewrite IH by exact Hn.
  apply lookup_insert_ne. congruence.
Qed.

Lemma written_keeps_keys (saved : list (Z * R)) :
  forall t pk, is_Some (t !! pk) -> is_Some (written t saved !! pk).
Proof.
  induction saved as [|pr saved IH]; intros t pk Hs; simpl; [exact Hs|].
  unfold written in *. simpl. apply IH.
  destruct (decide (fst pr = pk)) as [<-|Hne].
  - rewrite lookup_insert_eq. eauto.
  - rewrite lookup_insert_ne by exact Hne. exact Hs.
Qed.

(** A key that was in the table and was written to belongs to an item
    built on an instance with that key. *)
Lemma stored_old_key data :
  forall t saved pk,
    stored t data saved -> pk ∈ fst <$> saved -> is_Some (t !! pk) ->
    exists x snapshot, x ∈ data /\ inst x = Some (pk, snapshot).
Proof.
  induction data as [|x data IH]; intros t [|pr saved] pk Hst Hin Hs;
    simpl in Hst; try contradiction.
  - inversion Hin.
  - destruct Hst as [[_ Hsa] Hst].
    rewrite fmap_cons in Hin. apply elem_of_cons in Hin as [->|Hin].
    + destruct (inst x) as [[pk' snapshot]|] eqn:E.
      * destruct Hsa as [-> _]. exists x, snapshot. split; [left|exact E].
      * destruct Hsa as [Hnone _]. rewrite Hnone in Hs.
        destruct Hs as [? Hs]. discriminate Hs.
    + destruct (IH _ _ pk Hst Hin) as (y & snapshot & Hy & Hi).
      * destruct (decide (fst pr = pk)) as [<-|Hne].
        -- rewrite lookup_insert_eq. eauto.
        -- rewrite lookup_insert_ne by exact Hne. exact Hs.
      * exists y, snapshot. split; [right; exact Hy|exact Hi].
Qed.

Lemma stored_instance_key data :
  forall t saved x pk snapshot,
    stored t data saved -> x ∈ data -> inst x = Some (pk, snapshot) ->
    pk ∈ fst <$> saved.
Proof.
  induction data as [|y data IH]; intros t [|pr saved] x pk snapshot Hst Hx Hi;
    simpl in Hst; try contradiction.
  - inversion Hx.
  - destruct Hst as [[_ Hsa] Hst]. rewrite fmap_cons.
    apply elem_of_cons in Hx as [->|Hx].
    + rewrite Hi in Hsa. destruct Hsa as [-> _]. left.
    + right. eapply IH; eauto.
Qed.

(** When every instance is a snapshot of the row the table holds under
    its key, as far as the flag goes, the first loop leaves the [deleted]
    flag of every row that was there as it was. *)
Lemma stored_keeps_flag data :
  forall t saved,
    stored t data saved ->
    (forall x pk snapshot, x ∈ data -> inst x = Some (pk, snapshot) ->
       exists r0, t !! pk = Some r0 /\ deleted r0 = deleted snapshot) ->
    forall pk r0, t !! pk = Some r0 ->
      exists r, written t saved !! pk = Some r /\ deleted r = deleted r0.
Proof.
  induction data as [|x data IH]; intros t [|pr saved] Hst Hsnap pk r0 Hr0;
    simpl in Hst; try contradiction.
  - exists r0. auto.
  - destruct Hst as [[_ Hsa] Hst]. unfold written. simpl.
    fold (written (<[fst pr := snd pr]> t) saved).
    assert (forall k r, t !! k = Some r ->
              exists r', <[fst pr := snd pr]> t !! k = Some r'
                         /\ deleted r' = deleted r) as Hstep.
    { intros k r Hk. destruct (decide (fst pr = k)) as [<-|Hne].
      - rewrite lookup_insert_eq. exists (snd pr). split; [reflexivity|].
        destruct (inst x) as [[pk' snapshot]|] eqn:E.
        + destruct Hsa as [Hpk Hd].
          destruct (Hsnap x pk' snapshot) as (r1 & Hr1 & Hd1); [left|exact E|].
          rewrite Hpk in Hk. rewrite Hk in Hr1. injection Hr1 as <-. congruence.
        + destruct Hsa as [Hnone _]. congruence.
      - rewrite lookup_insert_ne by exact Hne. eauto. }
    destruct (Hstep pk r0 Hr0) as (r1 & Hr1 & Hd1).
    destruct (IH _ _ Hst) with (pk := pk) (r0 := r1) as (r & Hr & Hd).
    + intros y pk' snapshot Hy Hi.
      destruct (Hsnap y pk' snapshot) as (r2 & Hr2 & Hd2); [right; exact Hy|exact Hi|].
      destruct (Hstep pk' r2 Hr2) as (r3 & Hr3 & Hd3).
      exists r3. split; [exact Hr3|congruence].
    + exact Hr1.
    + exists r. split; [exact Hr|congruence].
Qed.

(** When every item is new, the rows are stored under pairwise distinct
    keys that were free, and all of them are in the table at the end. *)
Lemma stored_all_new data :
  forall t saved,
    stored t data saved -> (forall x, x ∈ data -> inst x = None) ->
    NoDup (fst <$> saved)
    /\ (forall pk, pk ∈ fst <$> saved -> t !! pk = None)
    /\ (forall pr, pr ∈ saved -> written t saved !! fst pr = Some (snd pr)).
Proof.
  induction data as [|x data IH]; intros t [|pr saved] Hst Hnew;
    simpl in Hst; try contradiction.
  - split; [constructor|]. split; intros ? H; inversion H.
  - destruct Hst as [[_ Hsa] Hst].
    rewrite (Hnew x) in Hsa by left. destruct Hsa as [Hnone _].
    destruct (IH _ _ Hst) as (Hnd & Hfree & Hall).
    { intros y Hy. apply Hnew. right. exact Hy. }
    assert (fst pr ∉ fst <$> saved) as Hnotin.
    { intros Hin. specialize (Hfree _ Hin). rewrite lookup_insert_eq in Hfree.
      discriminate Hfree. }
    rewrite fmap_cons. split; [constructor; assumption|]. split.
    + intros pk Hin. apply elem_of_cons in Hin as [->|Hin]; [exact Hnone|].
      specialize (Hfree _ Hin).
      destruct (decide (fst pr = pk)) as [<-|Hne]; [exact Hnone|].
      rewrite lookup_insert_ne in Hfree by exact Hne. exact Hfree.
    + intros pr' Hin. unfold written. simpl.
      fold (written (<[fst pr := snd pr]> t) saved).
      apply elem_of_cons in Hin as [->|Hin]; [|apply Hall, Hin].
      rewrite written_other by exact Hnotin. apply lookup_insert_eq.
Qed.

Lemma stored_lookup data :
  forall t saved,
    stored t data saved ->
    length saved = length data
    /\ forall (i : nat) x pr, data !! i = Some x -> saved !! i = Some pr ->
         made x (snd pr).
Proof.
  induction data as [|x data IH]; intros t [|pr saved] Hst;
    simpl in Hst; try contradiction.
  - split; [reflexivity|]. intros i y pr Hy. destruct i; discriminate Hy.
  - destruct Hst as [[Hm _] Hst]. destruct (IH _ _ Hst) as [Hlen Hall].
    split; [simpl; congruence|].
    intros [|i] y pr' Hy Hp; simpl in Hy, Hp.
    + injection Hy as <-. injection Hp as <-. exact Hm.
    + eapply Hall; eauto.
Qed.

(** The second loop. *)
Lemma soft_delete_loop (victims : list (Z * R)) :
  forall st u st',
    for_each victims (fun kr => soft_delete_in (fst kr)) st = (inr u, st') ->
    forall pk r0, tget (db st) !! pk = Some r0 ->
      exists r, tget (db st') !! pk = Some r
                /\ (pk ∈ fst <$> victims \/ deleted r0 = true -> deleted r = true)
                /\ (pk ∉ fst <$> victims -> r = r0).
Proof.
  induction victims as [|v victims IH]; intros st u st' H pk r0 Hr0; simpl in H.
  - injection H as _ <-. exists r0. split; [exact Hr0|]. split; [|reflexivity].
    intros [Hin|Hd]; [inversion Hin|exact Hd].
  - apply bind_returns in H as ([] & st1 & Hv & Hrest).
    apply write_returns in Hv. subst st1. simpl in Hrest.
    destruct (decide (fst v = pk)) as [Heq|Hne].
    + destruct (IH _ _ _ Hrest pk (set_deleted r0)) as (r & Hr & Hdel & Hsame).
      { simpl. rewrite tget_tset, <- Heq, lookup_alter_eq, Heq, Hr0. reflexivity. }
      exists r. split; [exact Hr|]. split.
      * intros _. apply Hdel. right. apply deleted_set_deleted.
      * intros Hn. exfalso. apply Hn. rewrite fmap_cons, Heq. left.
    + destruct (IH _ _ _ Hrest pk r0) as (r & Hr & Hdel & Hsame).
      { simpl. rewrite tget_tset, lookup_alter_ne by exact Hne. exact Hr0. }
      exists r. split; [exact Hr|]. split.
      * intros [Hin|Hd]; apply Hdel; [|right; exact Hd].
        rewrite fmap_cons in Hin. apply elem_of_cons in Hin as [->|Hin];
          [congruence|left; exact Hin].
      * intros Hn. apply Hsame. rewrite fmap_cons in Hn.
        apply not_elem_of_cons in Hn. apply Hn.
Qed.

(** What a run of the whole handler that returns leaves in the table. *)
Lemma handle_returns data st u st' :
  handle data st = (inr u, st') ->
  exists saved,
    stored (tget (db st)) data saved
    /\ (forall pk r0,
           tget (db st) !! pk = Some r0 -> in_parent r0 = true ->
           (forall x snapshot, x ∈ data -> inst x <> Some (pk, snapshot)) ->
           exists r, tget (db st') !! pk = Some r /\ deleted r = true)
    /\ ((forall x pk snapshot, x ∈ data -> inst x = Some (pk, snapshot) ->
           exists r0, tget (db st) !! pk = Some r0
                      /\ deleted r0 = deleted snapshot) ->
        forall x pk snapshot r0,
          x ∈ data -> inst x = Some (pk, snapshot) ->
          tget (db st) !! pk = Some r0 ->
          exists r, tget (db st') !! pk = Some r /\ deleted r = deleted r0)
    /\ (forall pk, pk ∈ fst <$> saved ->
          tget (db st') !! pk = written (tget (db st)) saved !! pk).
Proof.
  unfold Children.handle. intros H.
  apply bind_returns in H as (kept & st1 & Hsave & H).
  apply bind_returns in H as (d & st2 & Hread & Hdel).
  injection Hread as <- <-.
  destruct (save_loop_stored _ _ _ _ _ Hsave) as (saved & Hst & Hk & Hw).
  assert (kept = list_to_set (fst <$> saved)) as Hkept
    by (rewrite Hk; apply (right_id_L ∅ (∪))).
  clear Hk. exists saved. split; [exact Hst|].
  pose proof (soft_delete_loop _ _ _ _ Hdel) as Hloop.
  assert (forall pk, pk ∈ fst <$> saved ->
            pk ∉ fst <$> exclude_ids kept (related (db st1))) as Hspared.
  { intros pk Hin Hv. apply list_elem_of_fmap in Hv as ([k r] & -> & Hv).
    apply elem_of_exclude_ids in Hv as [Hnk _]. apply Hnk.
    rewrite Hkept. apply elem_of_list_to_set. exact Hin. }
  split; [|split].
  - intros pk r0 Hr0 Hp Hnot.
    assert (pk ∉ fst <$> saved) as Hns.
    { intros Hin.
      destruct (stored_old_key _ _ _ pk Hst Hin) as (x & snapshot & Hx & Hi);
        [eauto|]. exact (Hnot x snapshot Hx Hi). }
    assert (tget (db st1) !! pk = Some r0) as Hr1
      by (rewrite Hw, written_other by exact Hns; exact Hr0).
    destruct (Hloop pk r0 Hr1) as (r & Hr & Hd & _).
    exists r. split; [exact Hr|]. apply Hd.
    destruct (in_manager env (deleted r0)) eqn:Em.
    + left. apply list_elem_of_fmap. exists (pk, r0). split; [reflexivity|].
      apply elem_of_exclude_ids. split.
      * rewrite Hkept, elem_of_list_to_set. exact Hns.
      * apply elem_of_rows. split; [exact Hr1|]. rewrite Hp, Em. reflexivity.
    + right. unfold in_manager in Em. apply negb_false_iff in Em.
      apply andb_true_iff in Em. apply Em.
  - intros Hsnap x pk snapshot r0 Hx Hi Hr0.
    destruct (stored_keeps_flag _ _ _ Hst Hsnap pk r0 Hr0) as (r1 & Hr1 & Hd1).
    rewrite <- Hw in Hr1.
    destruct (Hloop pk r1 Hr1) as (r & Hr & _ & Hsame).
    exists r. split; [exact Hr|]. rewrite Hsame; [exact Hd1|].
    apply Hspared. eapply stored_instance_key; eauto.
  - intros pk Hin. rewrite <- Hw.
    destruct (tget (db st1) !! pk) as [r1|] eqn:E.
    + destruct (Hloop pk r1 E) as (r & Hr & _ & Hsame).
      rewrite Hr, Hsame; [reflexivity|]. apply Hspared, Hin.
    + destruct (tget (db st') !! pk) as [r|] eqn:E'; [|reflexivity].
      exfalso. remember (exclude_ids kept (related (db st1))) as l eqn:El.
      clear -Hdel E E' tget_tset.
      revert st1 Hdel E.
      induction l as [|v l IH]; intros st Hdel E; simpl in Hdel.
      * injection Hdel as _ <-. congruence.
      * apply bind_returns in Hdel as ([] & st2 & Hv & Hrest).
        apply write_returns in Hv. subst st2. apply (IH _ Hrest). simpl.
        rewrite tget_tset.
        destruct (decide (fst v = pk)) as [<-|Hne].
        -- rewrite lookup_alter_eq, E. reflexivity.
        -- rewrite lookup_alter_ne by exact Hne. exact E.
Qed.

End ChildrenFacts.

Section Instances.
Import Democracy Children Notions.
Local Open Scope py_scope.

Lemma bind_ext {A B} (m : M A) (k1 k2 : A -> M B) st :
  (forall a st1, k1 a st1 = k2 a st1) -> bind m k1 st = bind m k2 st.
Proof.
  intros H. unfold bind. destruct (m st) as [[e|a] st1]; [reflexivity|apply H].
Qed.

(** ** Images *)

Lemma save_images_loop env section data :
  forall kept st,
    save_images env section data kept st
    = save_loop (image_step env section) data kept st.
Proof.
  induction data as [|x data IH]; intros kept st; simpl; [reflexivity|].
  unfold image_step at 1. destruct (ii_serializer x); [|reflexivity].
  apply bind_ext. intros a st1. apply IH.
Qed.

Lemma handle_images_shape env section data st :
  _handle_images env section data st
  = handle images with_images im_deleted im_set_deleted env
      (image_step env section)
      (fun r => bool_decide (im_section r = section)) data st.
Proof.
  unfold _handle_images, handle. unfold bind at 1 3.
  rewrite save_images_loop. reflexivity.
Qed.

Lemma image_step_spec env section x st pr st' :
  image_step env section x st = (inr pr, st') ->
  images (db st') = <[fst pr := snd pr]> (images (db st))
  /\ saved_as im_deleted image_inst (image_made env section) (images (db st)) x pr.
Proof.
  unfold image_step, saved_as, image_inst, image_made.
  destruct (ii_serializer x) as [serializer|]; [|discriminate]. simpl.
  unfold save_image. destruct (is_instance serializer) as [[pk image]|].
  - intros H. apply bind_returns in H as ([] & st1 & Hw & Hr).
    apply write_returns in Hw. injection Hr as <- <-. subst st1. simpl.
    split; [reflexivity|]. split; [|auto]. split; [reflexivity|].
    exists serializer. split; [reflexivity|]. intros n ->. reflexivity.
  - intros H. apply bind_returns in H as (d & st1 & Hread & H).
    injection Hread as <- <-.
    apply bind_returns in H as ([] & st1 & Hw & Hr).
    apply write_returns in Hw. injection Hr as <- <-. subst st1. simpl.
    split; [reflexivity|]. split; [|split; [apply next_id_fresh|reflexivity]].
    split; [reflexivity|].
    exists serializer. split; [reflexivity|]. intros n ->. reflexivity.
Qed.

(** ** Options *)

Lemma save_options_loop env poll data :
  forall kept st,
    save_options env poll data kept st
    = save_loop (option_step env poll) data kept st.
Proof.
  induction data as [|x data IH]; intros kept st; simpl; [reflexivity|].
  unfold option_step at 1. destruct (oi_serializer x); [|reflexivity].
  destruct (od_ordering (oi_data x)); [|reflexivity].
  apply bind_ext. intros a st1. apply IH.
Qed.

Lemma handle_options_shape env poll data st :
  _handle_options env poll data st
  = handle options with_options o_deleted o_set_deleted env
      (option_step env poll)
      (fun r => bool_decide (o_poll r = poll)) data st.
Proof.
  unfold _handle_options, handle. unfold bind at 1 3.
  rewrite save_options_loop. reflexivity.
Qed.

Lemma option_step_spec env poll x st pr st' :
  option_step env poll x st = (inr pr, st') ->
  options (db st') = <[fst pr := snd pr]> (options (db st))
  /\ saved_as o_deleted option_inst (option_made poll) (options (db st)) x pr.
Proof.
  unfold option_step, saved_as, option_inst, option_made.
  destruct (oi_serializer x) as [serializer|]; [|discriminate]. simpl.
  destruct (od_ordering (oi_data x)) as [ordering|]; [|discriminate].
  unfold save_option. destruct (os_instance serializer) as [[pk option]|].
  - intros H. apply bind_returns in H as ([] & st1 & Hw & Hr).
    apply write_returns in Hw. injection Hr as <- <-. subst st1. simpl.
    split; [reflexivity|]. split; [|auto]. split; [reflexivity|].
    split; [reflexivity|].
    exists serializer. split; [reflexivity|]. intros t ->. reflexivity.
  - intros H. apply bind_returns in H as (d & st1 & Hread & H).
    injection Hread as <- <-.
    apply bind_returns in H as ([] & st1 & Hw & Hr).
    apply write_returns in Hw. injection Hr as <- <-. subst st1. simpl.
    split; [reflexivity|]. split; [|split; [apply next_id_fresh|reflexivity]].
    split; [reflexivity|]. split; [reflexivity|].
    exists serializer. split; [reflexivity|]. intros t ->. reflexivity.
Qed.

(** ** Polls *)

#[global] Instance same_polls_preorder : PreOrder same_polls.
Proof.
  split; unfold same_polls.
  - intros d. reflexivity.
  - intros d1 d2 d3 H1 H2. congruence.
Qed.

Lemma handle_options_same_polls env poll data st r st' :
  _handle_options env poll data st = (r, st') -> polls (db st') = polls (db st).
Proof.
  intros H.
  assert (tol_options same_polls) as Ht by (intros d t _; reflexivity).
  destruct (handle_options_respects same_polls env poll data Ht _ _ _ H)
    as [_ Hp].
  exact Hp.
Qed.

Lemma save_polls_loop env section data :
  forall kept st,
    save_polls env section data kept st
    = save_loop (poll_step env section) data kept st.
Proof.
  induction data as [|x data IH]; intros kept st; simpl; [reflexivity|].
  unfold poll_step at 1. destruct (pi_serializer x); [|reflexivity].
  destruct (pd_ordering (pi_data x)); [|reflexivity].
  apply bind_ext. intros a st1. apply IH.
Qed.

Lemma handle_questions_shape env section data st :
  _handle_questions env section data st
  = handle polls with_polls p_deleted p_set_deleted env
      (poll_step env section)
      (fun r => bool_decide (p_section r = section)) data st.
Proof.
  unfold _handle_questions, handle. unfold bind at 1 3.
  rewrite save_polls_loop. reflexivity.
Qed.

Lemma poll_step_spec env section x st pr st' :
  poll_step env section x st = (inr pr, st') ->
  polls (db st') = <[fst pr := snd pr]> (polls (db st))
  /\ saved_as p_deleted poll_inst (poll_made section) (polls (db st)) x pr.
Proof.
  unfold poll_step, saved_as, poll_inst, poll_made.
  destruct (pi_serializer x) as [serializer|]; [|discriminate]. simpl.
  destruct (pd_ordering (pi_data x)) as [ordering|]; [|discriminate].
  unfold save_poll. intros H.
  apply atomic_body_returned in H as (st3 & H & Hdb). rewrite Hdb. clear Hdb.
  apply bind_returns in H as (poll & st1 & Hpoll & H).
  apply bind_returns in H as ([] & st2 & Hopts & Hr).
  injection Hr as <- <-.
  apply handle_options_same_polls in Hopts. rewrite Hopts. clear Hopts.
  destruct (ps_instance serializer) as [[pk instance]|].
  - apply bind_returns in Hpoll as ([] & st0 & Hw & Hr).
    apply write_returns in Hw. injection Hr as <- <-. subst st0. simpl.
    auto.
  - apply bind_returns in Hpoll as (d & st0 & Hread & Hpoll).
    injection Hread as <- <-.
    apply bind_returns in Hpoll as ([] & st0 & Hw & Hr).
    apply write_returns in Hw. injection Hr as <- <-. subst st0. simpl.
    split; [reflexivity|]. split; [auto|]. split; [apply next_id_fresh|reflexivity].
Qed.

End Instances.

(** * Validation *)

Section ValidationFacts.
Import Democracy Notions.
Local Open Scope py_scope.

Lemma from_lookup {Raw Item} (rel : Z -> Raw -> Item -> Prop) data :
  forall index items,
    Validated.items_from rel index data items ->
    length items = length data
    /\ forall (i : nat) raw, data !! i = Some raw ->
         exists item, items !! i = Some item
                      /\ rel (index + Z.of_nat i) raw item.
Proof.
  induction data as [|raw data IH]; intros index [|item items] H;
    simpl in H; try contradiction.
  - split; [reflexivity|]. intros i r Hr. destruct i; discriminate Hr.
  - destruct H as [Hrel H]. destruct (IH _ _ H) as [Hlen Hall].
    split; [simpl; congruence|].
    intros [|i] r Hr; simpl in Hr.
    + injection Hr as <-. exists item. rewrite Z.add_0_r. auto.
    + destruct (Hall i r Hr) as (it & Hit & Hrel').
      exists it. split; [exact Hit|].
      replace (index + Z.of_nat (S i)) with (index + 1 + Z.of_nat i) by lia.
      exact Hrel'.
Qed.

Lemma validate_options_reads env instance data :
  forall index st r st',
    validate_options_from env instance index data st = (r, st') ->
    st' = st
    /\ forall items, r = inr items ->
         Validated.items_from (Validated.option_item env instance (db st)) index data items.
Proof.
  induction data as [|raw data IH]; intros index st r st' H; simpl in H.
  - injection H as <- <-. split; [reflexivity|]. intros items Hi.
    injection Hi as <-. exact I.
  - unfold bind at 1 in H.
    destruct (given_id (od_id raw)) as [pk|] eqn:Eid.
    + destruct instance as [poll|]; [|injection H as <- <-; split; [reflexivity|discriminate]].
      unfold bind at 1 in H. unfold read at 1 in H.
      destruct (get_row _ (options (db st)) pk) as [row|] eqn:Erow;
        [|injection H as <- <-; split; [reflexivity|discriminate]].
      unfold ret at 1 in H. unfold bind at 1 in H.
      unfold option_is_valid at 1 in H.
      destruct (option_errors env _ _) eqn:Eerr;
        [unfold raise at 1 in H; injection H as <- <-;
         split; [reflexivity|discriminate]|].
      unfold ret at 1 in H. unfold bind at 1 in H.
      destruct (validate_options_from env (Some poll) (index + 1) data st)
        as [[e|items] st1] eqn:Erest; destruct (IH _ _ _ _ Erest) as [-> Hrest].
      * injection H as <- <-. split; [reflexivity|discriminate].
      * injection H as <- <-. split; [reflexivity|]. intros its Hi.
        injection Hi as <-. split; [|apply Hrest; reflexivity].
        split; [reflexivity|]. eexists. split; [reflexivity|].
        split; [reflexivity|]. rewrite Eid. eauto.
    + unfold ret at 1 in H. unfold bind at 1 in H.
      unfold option_is_valid at 1 in H.
      destruct (option_errors env _ _) eqn:Eerr;
        [unfold raise at 1 in H; injection H as <- <-;
         split; [reflexivity|discriminate]|].
      unfold ret at 1 in H. unfold bind at 1 in H.
      destruct (validate_options_from env instance (index + 1) data st)
        as [[e|items] st1] eqn:Erest; destruct (IH _ _ _ _ Erest) as [-> Hrest].
      * injection H as <- <-. split; [reflexivity|discriminate].
      * injection H as <- <-. split; [reflexivity|]. intros its Hi.
        injection Hi as <-. split; [|apply Hrest; reflexivity].
        split; [reflexivity|]. eexists. split; [reflexivity|].
        split; [reflexivity|]. rewrite Eid. reflexivity.
Qed.

Lemma validate_images_reads env instance data :
  forall index st r st',
    validate_images_from env instance index data st = (r, st') ->
    st' = st
    /\ forall items, r = inr items ->
         Validated.items_from (Validated.image_item env instance (db st)) index data items.
Proof.
  induction data as [|raw data IH]; intros index st r st' H; simpl in H.
  - injection H as <- <-. split; [reflexivity|]. intros items Hi.
    injection Hi as <-. exact I.
  - unfold bind at 1 in H.
    destruct (given_id (idata_id raw)) as [pk|] eqn:Eid.
    + destruct instance as [section|]; [|injection H as <- <-; split; [reflexivity|discriminate]].
      unfold bind at 1 in H. unfold read at 1 in H.
      destruct (get_row _ (images (db st)) pk) as [row|] eqn:Erow;
        [|injection H as <- <-; split; [reflexivity|discriminate]].
      unfold ret at 1 in H. unfold bind at 1 in H.
      unfold image_is_valid at 1 in H.
      destruct (image_errors env _ _) eqn:Eerr;
        [unfold raise at 1 in H; injection H as <- <-;
         split; [reflexivity|discriminate]|].
      unfold ret at 1 in H.
      unfold bind at 1 in H.
      destruct (validate_images_from env (Some section) (index + 1) data st)
        as [[e|items] st1] eqn:Erest; destruct (IH _ _ _ _ Erest) as [-> Hrest].
      * injection H as <- <-. split; [reflexivity|discriminate].
      * injection H as <- <-. split; [reflexivity|]. intros its Hi.
        injection Hi as <-. split; [|apply Hrest; reflexivity].
        split; [reflexivity|]. eexists. split; [reflexivity|].
        split; [reflexivity|]. rewrite Eid. eauto.
    + unfold ret at 1 in H. unfold bind at 1 in H.
      unfold image_is_valid at 1 in H.
      destruct (idata_image (idata_set_ordering index raw)) eqn:Eimg;
        [|injection H as <- <-; split; [reflexivity|discriminate]].
      destruct (image_errors env _ _) eqn:Eerr;
        [unfold raise at 1 in H; injection H as <- <-;
         split; [reflexivity|discriminate]|].
      unfold ret at 1 in H. unfold bind at 1 in H.
      destruct (validate_images_from env instance (index + 1) data st)
        as [[e|items] st1] eqn:Erest; destruct (IH _ _ _ _ Erest) as [-> Hrest].
      * injection H as <- <-. split; [reflexivity|discriminate].
      * injection H as <- <-. split; [reflexivity|]. intros its Hi.
        injection Hi as <-. split; [|apply Hrest; reflexivity].
        split; [reflexivity|]. eexists. split; [reflexivity|].
        split; [reflexivity|]. rewrite Eid. reflexivity.
Qed.

Lemma guard_reads env poll_data poll st r st' :
  _validate_question_update env poll_data poll st = (r, st') -> st' = st.
Proof.
  unfold _validate_question_update.
  destruct (negb _); [intros H; injection H as _ <-; reflexivity|].
  unfold bind, read.
  destruct (question_unchanged _ _ _ _) as [[]|[]]; intros H;
    injection H as _ <-; reflexivity.
Qed.

Lemma poll_is_valid_reads env instance data st r st' :
  poll_is_valid env instance data st = (r, st') ->
  st' = st
  /\ forall serializer, r = inr serializer ->
       ps_instance serializer = instance
       /\ exists options_data items,
           pd_options data = Some options_data
           /\ pv_options (ps_validated serializer) = Some items
           /\ Validated.items_from
                (Validated.option_item env (fst <$> instance) (db st))
                0 options_data items.
Proof.
  unfold poll_is_valid.
  destruct (pd_options data) as [options_data|];
    [|intros H; injection H as <- <-; split; [reflexivity|discriminate]].
  unfold bind, validate_options.
  destruct (validate_options_from env (fst <$> instance) 0 options_data st)
    as [[e|items] st1] eqn:E;
    destruct (validate_options_reads _ _ _ _ _ _ _ E) as [-> Hitems];
    [intros H; injection H as <- <-; split; [reflexivity|discriminate]|].
  destruct (poll_errors env instance data);
    intros H; injection H as <- <-; (split; [reflexivity|]);
    [discriminate|].
  intros serializer Hs. injection Hs as <-. simpl. split; [reflexivity|].
  exists options_data, items. auto.
Qed.

Lemma validate_questions_reads env instance data :
  forall index st r st',
    validate_questions_from env instance index data st = (r, st') ->
    st' = st
    /\ forall items, r = inr items ->
         Validated.items_from (Validated.poll_item env instance (db st))
                              index data items.
Proof.
  induction data as [|raw data IH]; intros index st r st' H; simpl in H.
  - injection H as <- <-. split; [reflexivity|]. intros items Hi.
    injection Hi as <-. exact I.
  - unfold bind at 1 in H.
    assert (forall inst st0 r0 st0',
              (let* serializer := poll_is_valid env inst
                                    (pd_set_ordering (index + 1) raw) in
               let* items := validate_questions_from env instance
                               (index + 1) data in
               ret (mkPollItem (pd_set_ordering (index + 1) raw)
                               (Some serializer) :: items)) st0 = (r0, st0') ->
              st0' = st0
              /\ forall its, r0 = inr its ->
                   exists serializer items,
                     its = mkPollItem (pd_set_ordering (index + 1) raw)
                                      (Some serializer) :: items
                     /\ poll_is_valid env inst
                          (pd_set_ordering (index + 1) raw) st0
                        = (inr serializer, st0)
                     /\ Validated.items_from
                          (Validated.poll_item env instance (db st0))
                          (index + 1) data items) as Htail.
    { intros inst st0 r0 st0' H0. unfold bind at 1 in H0.
      destruct (poll_is_valid env inst _ st0) as [[e|serializer] st1] eqn:Ev;
        destruct (poll_is_valid_reads _ _ _ _ _ _ Ev) as [-> _].
      - injection H0 as <- <-. split; [reflexivity|discriminate].
      - unfold bind at 1 in H0.
        destruct (validate_questions_from env instance (index + 1) data st0)
          as [[e|items] st1] eqn:Erest;
          destruct (IH _ _ _ _ Erest) as [-> Hrest];
          injection H0 as <- <-; (split; [reflexivity|]); [discriminate|].
        intros its Hi. injection Hi as <-. exists serializer, items.
        split; [reflexivity|]. split; [reflexivity|]. apply Hrest. reflexivity. }
    assert (forall inst its,
              poll_is_valid env inst (pd_set_ordering (index + 1) raw) st
              = (inr its, st) ->
              match given_id (pd_id raw) with
              | Some pk =>
                  exists section r,
                    instance = Some section
                    /\ get_row (fun r => bool_decide (p_section r = section)
                                         && in_manager env (p_deleted r))
                               (polls (db st)) pk = Some r
                    /\ inst = Some (pk, r)
              | None => inst = None
              end ->
              Validated.poll_item env instance (db st) index raw
                (mkPollItem (pd_set_ordering (index + 1) raw) (Some its)))
      as Hitem.
    { intros inst its Hv Hinst.
      destruct (poll_is_valid_reads _ _ _ _ _ _ Hv) as [_ Hs].
      destruct (Hs its eq_refl) as (Hi & od & items & Hod & Hpv & Hfrom).
      split; [reflexivity|]. exists its. split; [reflexivity|]. split.
      - destruct (given_id (pd_id raw)).
        + destruct Hinst as (section & row & ? & ? & ->). eauto.
        + congruence.
      - exists od, items. rewrite Hi. auto. }
    destruct (given_id (pd_id raw)) as [pk|] eqn:Eid.
    + destruct instance as [section|]; [|injection H as <- <-; split; [reflexivity|discriminate]].
      unfold bind at 1 in H. unfold read at 1 in H.
      destruct (get_row _ (polls (db st)) pk) as [row|] eqn:Erow;
        [|injection H as <- <-; split; [reflexivity|discriminate]].
      unfold bind at 1 in H.
      destruct (_validate_question_update env _ (pk, row) st)
        as [[e|[]] st1] eqn:Eg; apply guard_reads in Eg as ->.
      * injection H as <- <-. split; [reflexivity|discriminate].
      * unfold ret at 1 in H.
        destruct (Htail _ _ _ _ H) as [-> Hok]. split; [reflexivity|].
        intros its Hi. destruct (Hok its Hi) as (serializer & items & -> & Hv & Hrest).
        split; [|exact Hrest]. apply (Hitem _ _ Hv). eauto.
    + unfold ret at 1 in H.
      destruct (Htail _ _ _ _ H) as [-> Hok]. split; [reflexivity|].
      intros its Hi. destruct (Hok its Hi) as (serializer & items & -> & Hv & Hrest).
      split; [|exact Hrest]. apply (Hitem _ _ Hv). reflexivity.
Qed.

End ValidationFacts.

(** * Facts about [_parse_dimension_string] *)

Section DimFacts.
Import Dim.

Lemma split_x_nonempty s : split_x s <> [].
Proof.
  induction s as [|c s IH]; simpl; [discriminate|].
  destruct (Ascii.eqb c "x"); [discriminate|].
  destruct (split_x s); [contradiction|discriminate].
Qed.

Lemma split_x_no_x s : no_x s -> split_x s = [s].
Proof.
  induction s as [|c s IH]; simpl; [reflexivity|].
  intros [Hc Hs]. rewrite Hc, (IH Hs). reflexivity.
Qed.

Lemma split_x_app a b :
  no_x a -> split_x (a +:+ String "x" b) = a :: split_x b.
Proof.
  induction a as [|c a IH]; simpl; [reflexivity|].
  intros [Hc Ha]. rewrite Hc, (IH Ha). reflexivity.
Qed.

Lemma is_digit_not_x c : is_digit c = true -> Ascii.eqb c "x" = false.
Proof.
  intros H. destruct (Ascii.eqb_spec c "x") as [->|]; [discriminate H|reflexivity].
Qed.

Lemma is_digit_not_space c : is_digit c = true -> is_space c = false.
Proof.
  unfold is_digit, is_space. intros H.
  apply andb_true_iff in H as [H1 H2].
  apply Nat.leb_le in H1. apply Nat.leb_le in H2.
  apply orb_false_iff; split.
  - apply andb_false_iff. right. apply Nat.leb_gt. lia.
  - apply Nat.eqb_neq. lia.
Qed.

Lemma all_digits_no_x s : all_digits s -> no_x s.
Proof.
  induction s as [|c s IH]; simpl; [trivial|].
  intros [Hc Hs]. split; [apply is_digit_not_x, Hc|apply IH, Hs].
Qed.

Lemma lstrip_digits s : all_digits s -> lstrip s = s.
Proof.
  destruct s as [|c s]; simpl; [reflexivity|].
  intros [Hc _]. rewrite (is_digit_not_space _ Hc). reflexivity.
Qed.

Lemma rstrip_digits s : all_digits s -> rstrip s = s.
Proof.
  induction s as [|c s IH]; simpl; [reflexivity|].
  intros [Hc Hs]. rewrite (IH Hs), (is_digit_not_space _ Hc).
  destruct s; reflexivity.
Qed.

Lemma all_digits_string_of_uint d : all_digits (NilEmpty.string_of_uint d).
Proof. induction d; simpl; auto. Qed.

Ltac norm_digit_val :=
  repeat match goal with
         | |- context [digit_val ?c] =>
             let v := eval vm_compute in (digit_val c) in
             change (digit_val c) with v
         end.

Lemma digits_string_of_uint d :
  forall acc prev,
    digits (NilEmpty.string_of_uint d) acc prev =
    match d with
    | Nil => if prev then Some acc else None
    | _ => Some (uint_val acc d)
    end.
Proof.
  induction d; intros acc prev; simpl; try reflexivity;
    rewrite IHd; norm_digit_val; rewrite ?Z.add_0_r; destruct d; reflexivity.
Qed.

Lemma of_uint_acc_val d :
  forall acc, Z.pos (Pos.of_uint_acc d acc) = uint_val (Z.pos acc) d.
Proof.
  induction d; intros acc; simpl; try reflexivity;
    rewrite IHd; f_equal; lia.
Qed.

Lemma of_uint_val d : Z.of_N (Pos.of_uint d) = uint_val 0 d.
Proof.
  induction d; simpl; try reflexivity; try assumption;
    rewrite of_uint_acc_val; reflexivity.
Qed.

Lemma to_uint_val p : uint_val 0 (Pos.to_uint p) = Z.pos p.
Proof. rewrite <- of_uint_val, Unsigned.of_to. reflexivity. Qed.

Lemma to_uint_not_Nil p : Pos.to_uint p <> Nil.
Proof.
  intros H. pose proof (Unsigned.of_to p) as E. rewrite H in E. discriminate E.
Qed.

Lemma py_int_decimal p : py_int (decimal p) = Some (Z.pos p).
Proof.
  unfold py_int, decimal.
  pose proof (all_digits_string_of_uint (Pos.to_uint p)) as Hd.
  rewrite (lstrip_digits _ Hd), (rstrip_digits _ Hd).
  pose proof (digits_string_of_uint (Pos.to_uint p) 0 false) as E.
  pose proof (to_uint_not_Nil p) as Hn.
  destruct (NilEmpty.string_of_uint (Pos.to_uint p)) as [|c s] eqn:Es.
  - destruct (Pos.to_uint p); try discriminate Es. contradiction.
  - destruct Hd as [Hc _].
    assert (Ascii.eqb c "-" = false) as ->
      by (destruct (Ascii.eqb_spec c "-") as [->|]; [discriminate Hc|reflexivity]).
    assert (Ascii.eqb c "+" = false) as ->
      by (destruct (Ascii.eqb_spec c "+") as [->|]; [discriminate Hc|reflexivity]).
    rewrite E. rewrite <- (to_uint_val p).
    destruct (Pos.to_uint p); try reflexivity. contradiction.
Qed.

Lemma split_dim_string w h : split_x (dim_string w h) = [decimal w; decimal h].
Proof.
  unfold dim_string.
  rewrite split_x_app by apply all_digits_no_x, all_digits_string_of_uint.
  rewrite split_x_no_x by apply all_digits_no_x, all_digits_string_of_uint.
  reflexivity.
Qed.

(** C4.  For every string [dim] and whatever the builtin [int] reads:
    [_parse_dimension_string] fails with the format message unless
    splitting on [x] yields exactly two parts; if [int] fails on either
    part both values are forced to 0; unless both values are strictly
    positive it fails with the positivity message; and a well-formed
    ["<w>x<h>"] with positive [w] and [h] yields exactly [(w, h)], given
    that [int] reads the two decimal numerals, as the builtin does on
    ASCII strings ([py_int]). *)
Theorem parse_dimension_string_spec (int : string -> option Z) :
  (forall dim, length (split_x dim) <> 2%nat ->
     _parse_dimension_string int dim = inl (ValueError msg_format))
  /\ (forall dim width height,
        split_x dim = [width; height] ->
        int width = None \/ int height = None ->
        int_pair int width height = (0, 0)
        /\ _parse_dimension_string int dim = inl (ValueError msg_positive))
  /\ (forall dim width height w h,
        split_x dim = [width; height] ->
        int width = Some w -> int height = Some h ->
        int_pair int width height = (w, h)
        /\ (~ (0 < w /\ 0 < h) ->
            _parse_dimension_string int dim = inl (ValueError msg_positive))
        /\ (0 < w /\ 0 < h -> _parse_dimension_string int dim = inr (w, h)))
  /\ (forall w h : positive,
        int (decimal w) = Some (Z.pos w) -> int (decimal h) = Some (Z.pos h) ->
        _parse_dimension_string int (dim_string w h) = inr (Z.pos w, Z.pos h))
  /\ (forall w h : positive,
        _parse_dimension_string py_int (dim_string w h)
        = inr (Z.pos w, Z.pos h)).
Proof.
  split; [|split; [|split; [|split]]].
  - intros dim Hlen. unfold _parse_dimension_string.
    destruct (split_x dim) as [|a [|b [|c l]]]; simpl in Hlen; try reflexivity.
    contradiction.
  - intros dim width height Hs E.
    assert (int_pair int width height = (0, 0)) as Hp.
    { destruct E as [E|E]; unfold int_pair; rewrite E; [reflexivity|].
      destruct (int width); reflexivity. }
    split; [exact Hp|]. unfold _parse_dimension_string. rewrite Hs, Hp.
    reflexivity.
  - intros dim width height w h Hs Hw Hh.
    assert (int_pair int width height = (w, h)) as Hp.
    { unfold int_pair. rewrite Hw, Hh. reflexivity. }
    split; [exact Hp|]. unfold _parse_dimension_string. rewrite Hs, Hp. split.
    + intros Hn.
      destruct (w >? 0) eqn:Ew; destruct (h >? 0) eqn:Eh; simpl; try reflexivity.
      exfalso. apply Hn. lia.
    + intros [Hw0 Hh0].
      assert ((w >? 0) = true) as -> by lia.
      assert ((h >? 0) = true) as -> by lia.
      reflexivity.
  - intros w h Hw Hh. unfold _parse_dimension_string, int_pair.
    rewrite split_dim_string, Hw, Hh. reflexivity.
  - intros w h. unfold _parse_dimension_string, int_pair.
    rewrite split_dim_string, !py_int_decimal. reflexivity.
Qed.

Lemma parse_dimension_string_spec_witness :
  _parse_dimension_string py_int "640" = inl (ValueError msg_format)
  /\ _parse_dimension_string py_int "640x480x10" = inl (ValueError msg_format)
  /\ _parse_dimension_string py_int "abcxdef" = inl (ValueError msg_positive)
  /\ _parse_dimension_string py_int "0x480" = inl (ValueError msg_positive)
  /\ _parse_dimension_string py_int "-1x10" = inl (ValueError msg_positive)
  /\ _parse_dimension_string py_int (String (ascii_of_nat 28) "5x5")
     = inl (ValueError msg_positive)
  /\ _parse_dimension_string py_int "640x480" = inr (640, 480).
Proof.
  destruct (parse_dimension_string_spec py_int) as (Hfmt & Hzero & Hint & _).
  split; [apply Hfmt; vm_compute; lia|].
  split; [apply Hfmt; vm_compute; lia|].
  split; [apply (Hzero "abcxdef"%string "abc"%string "def"%string);
          [reflexivity | left; reflexivity]|].
  split; [apply (Hint "0x480"%string "0"%string "480"%string 0 480);
          [reflexivity | reflexivity | reflexivity | lia]|].
  split; [apply (Hint "-1x10"%string "-1"%string "10"%string (-1) 10);
          [reflexivity | reflexivity | reflexivity | lia]|].
  split; [apply (Hzero (String (ascii_of_nat 28) "5x5")
                   (String (ascii_of_nat 28) "5") "5"%string);
          [reflexivity | left; reflexivity]|].
  apply (Hint "640x480"%string "640"%string "480"%string 640 480);
    [reflexivity | reflexivity | reflexivity | lia].
Defined.

End DimFacts.

(** * The guard on polls that have answers *)

Section PollGuard.
Import Democracy Notions.

Lemma compare_options_all env old_options :
  forall options,
    Forall2 (fun old new => exists t, od_text new = Some t
               /\ compare_serialized env (o_text (snd old)) t = true)
            old_options options ->
    compare_options env old_options options = inr tt.
Proof.
  induction old_options as [|old olds IH]; intros options H.
  - destruct options; reflexivity.
  - inversion H as [|? new ? news (t & Ht & Hc) Hrest]; subst. simpl.
    rewrite Ht, Hc. apply IH, Hrest.
Qed.

Lemma compare_options_differ env old_options :
  forall options (i : nat) old_option option t,
    Forall has_text options ->
    old_options !! i = Some old_option ->
    options !! i = Some option ->
    od_text option = Some t ->
    compare_serialized env (o_text (snd old_option)) t = false ->
    compare_options env old_options options = inl AssertionError.
Proof.
  induction old_options as [|old olds IH];
    intros options i old_option option t Hall Hold Hnew Ht Hc.
  - destruct i; discriminate Hold.
  - destruct options as [|new news]; [destruct i; discriminate Hnew|].
    inversion Hall as [|? ? [t' Ht'] Hall']; subst. simpl. rewrite Ht'.
    destruct i as [|i]; simpl in Hold, Hnew.
    + injection Hold as ->. injection Hnew as ->.
      rewrite Ht in Ht'. injection Ht' as <-. rewrite Hc. reflexivity.
    + destruct (compare_serialized env (o_text (snd old)) t'); [|reflexivity].
      eapply IH; eauto.
Qed.

Lemma guard_no_answers env poll_data pk poll st :
  p_n_answers poll <= 0 ->
  _validate_question_update env poll_data (pk, poll) st = (inr tt, st).
Proof.
  intros H. unfold _validate_question_update. simpl.
  assert ((p_n_answers poll >? 0) = false) as -> by lia. reflexivity.
Qed.

Lemma guard_with_answers env poll_data pk poll st :
  0 < p_n_answers poll ->
  _validate_question_update env poll_data (pk, poll) st =
  match question_unchanged env (p_text poll)
          (options_representation env pk (db st)) poll_data with
  | inr _ => (inr tt, st)
  | inl AssertionError => (inl (ValidationError (msg_has_answers pk)), st)
  | inl e => (inl e, st)
  end.
Proof.
  intros H. unfold _validate_question_update. simpl.
  assert ((p_n_answers poll >? 0) = true) as -> by lia. simpl.
  unfold bind, read. simpl.
  destruct (question_unchanged _ _ _ _) as [[]|[]]; reflexivity.
Qed.

Lemma compare_options_missing env old_options :
  forall options (i : nat) option,
    (i < length old_options)%nat ->
    options !! i = Some option -> od_text option = None ->
    (forall (j : nat) old new, (j < i)%nat ->
        old_options !! j = Some old -> options !! j = Some new ->
        exists t, od_text new = Some t
                  /\ compare_serialized env (o_text (snd old)) t = true) ->
    compare_options env old_options options = inl (KeyError "text").
Proof.
  induction old_options as [|old olds IH]; intros options i option Hi Ho Hn Hbefore.
  - simpl in Hi. lia.
  - destruct options as [|new news]; [destruct i; discriminate Ho|].
    destruct i as [|i]; simpl in Ho.
    + injection Ho as ->. simpl. rewrite Hn. reflexivity.
    + destruct (Hbefore 0%nat old new) as (t & Ht & Hc);
        [lia|reflexivity|reflexivity|].
      simpl. rewrite Ht, Hc. apply (IH news i option).
      * simpl in Hi. lia.
      * exact Ho.
      * exact Hn.
      * intros j o n Hj Hold Hnew. apply (Hbefore (S j) o n); [lia|exact Hold|exact Hnew].
Qed.

(** C2, as the code has it.  The guard on updates of a poll that has
    answers refuses, with the message naming the poll, a payload whose
    text differs, a payload that carries a text and an option list of
    another length, and a payload that carries a text and options that
    all carry a text, one of which differs; a poll without answers is
    not restricted; unchanged text and option texts are let through; and
    [validate_questions] refuses the request whenever the guard does.
    A payload that lacks ['text'], or whose text agrees and that lacks
    ['options'], or whose first option without ['text'] comes after
    options that agree, makes the guard raise [KeyError] and not the
    validation error, whatever else of it differs. *)
Theorem validate_question_update_spec env poll_data pk poll st :
  let old_options := options_representation env pk (db st) in
  let guard := _validate_question_update env poll_data (pk, poll) st in
  (p_n_answers poll <= 0 -> guard = (inr tt, st))
  /\ (0 < p_n_answers poll ->
      (forall text,
          pd_text poll_data = Some text ->
          compare_serialized env (p_text poll) text = false ->
          guard = rejected pk st)
      /\ (forall text options,
             pd_text poll_data = Some text ->
             pd_options poll_data = Some options ->
             length old_options <> length options ->
             guard = rejected pk st)
      /\ (forall text options (i : nat) old_option option t,
             pd_text poll_data = Some text ->
             pd_options poll_data = Some options ->
             Forall has_text options ->
             old_options !! i = Some old_option ->
             options !! i = Some option ->
             od_text option = Some t ->
             compare_serialized env (o_text (snd old_option)) t = false ->
             guard = rejected pk st)
      /\ (forall text options,
             pd_text poll_data = Some text ->
             compare_serialized env (p_text poll) text = true ->
             pd_options poll_data = Some options ->
             Forall2 (fun old new => exists t, od_text new = Some t
                        /\ compare_serialized env (o_text (snd old)) t = true)
                     old_options options ->
             guard = (inr tt, st))
      /\ ((forall t, compare_serialized env t t = true) ->
          forall options,
            pd_text poll_data = Some (p_text poll) ->
            pd_options poll_data = Some options ->
            od_text <$> options = (fun old => Some (o_text (snd old))) <$> old_options ->
            guard = (inr tt, st))
      /\ (pd_text poll_data = None -> guard = (inl (KeyError "text"), st))
      /\ (forall text,
             pd_text poll_data = Some text ->
             compare_serialized env (p_text poll) text = true ->
             pd_options poll_data = None ->
             guard = (inl (KeyError "options"), st))
      /\ (forall text options (i : nat) option,
             pd_text poll_data = Some text ->
             compare_serialized env (p_text poll) text = true ->
             pd_options poll_data = Some options ->
             length old_options = length options ->
             options !! i = Some option -> od_text option = None ->
             (forall (j : nat) old new, (j < i)%nat ->
                 old_options !! j = Some old -> options !! j = Some new ->
                 exists t, od_text new = Some t
                           /\ compare_serialized env (o_text (snd old)) t
                              = true) ->
             guard = (inl (KeyError "text"), st)))
  /\ (forall section index rest,
         given_id (pd_id poll_data) = Some pk ->
         get_row (fun r => bool_decide (p_section r = section)
                           && in_manager env (p_deleted r))
                 (polls (db st)) pk = Some poll ->
         guard = rejected pk st ->
         validate_questions_from env (Some section) index (poll_data :: rest) st
         = (inl (ValidationError (msg_has_answers pk)), st)).
Proof.
  intros old_options guard. subst guard.
  split; [apply guard_no_answers|]. split.
  - intros Hn. rewrite (guard_with_answers _ _ _ _ _ Hn).
    fold old_options. unfold question_unchanged, rejected.
    split; [|split; [|split; [|split; [|split; [|split; [|split]]]]]].
    + intros text Ht Hc. rewrite Ht, Hc. reflexivity.
    + intros text options Ht Ho Hlen. rewrite Ht, Ho.
      destruct (compare_serialized env (p_text poll) text); [|reflexivity].
      assert ((length old_options =? length options)%nat = false) as ->
        by (apply Nat.eqb_neq; exact Hlen).
      reflexivity.
    + intros text options i old_option option t Ht Ho Hall Hold Hnew Hot Hc.
      rewrite Ht, Ho.
      destruct (compare_serialized env (p_text poll) text); [|reflexivity].
      destruct (length old_options =? length options)%nat; [|reflexivity].
      rewrite (compare_options_differ env old_options options i old_option
                 option t Hall Hold Hnew Hot Hc).
      reflexivity.
    + intros text options Ht Hc Ho Hall. rewrite Ht, Hc, Ho.
      assert ((length old_options =? length options)%nat = true) as ->
        by (apply Nat.eqb_eq; eapply Forall2_length; exact Hall).
      rewrite (compare_options_all _ _ _ Hall). reflexivity.
    + intros Hrefl options Ht Ho Heq. rewrite Ht, Hrefl, Ho.
      assert (Forall2 (fun old new => exists t, od_text new = Some t
                /\ compare_serialized env (o_text (snd old)) t = true)
                old_options options) as Hall.
      { clear -Heq Hrefl. revert options Heq.
        induction old_options as [|old olds IH]; intros [|new news] Heq;
          try discriminate Heq; constructor.
        - injection Heq as Hh Ht. eexists; split; [exact Hh|apply Hrefl].
        - injection Heq as Hh Ht. apply IH, Ht. }
      assert ((length old_options =? length options)%nat = true) as ->
        by (apply Nat.eqb_eq; eapply Forall2_length; exact Hall).
      rewrite (compare_options_all _ _ _ Hall). reflexivity.
    + intros ->. reflexivity.
    + intros text -> -> ->. reflexivity.
    + intros text options i option -> -> -> Hlen Hi Ho Hbefore.
      apply Nat.eqb_eq in Hlen as Hlen'. rewrite Hlen'.
      rewrite (compare_options_missing env old_options options i option);
        [reflexivity| |exact Hi|exact Ho|exact Hbefore].
      rewrite Hlen. apply lookup_lt_Some in Hi. exact Hi.
  - intros section index rest Hid Hrow Hg. simpl.
    rewrite Hid. unfold bind at 1. unfold bind at 1. unfold read at 1.
    simpl. rewrite Hrow. unfold bind at 1.
    assert (_validate_question_update env (pd_set_ordering (index + 1) poll_data)
              (pk, poll) st
            = _validate_question_update env poll_data (pk, poll) st) as ->
      by reflexivity.
    rewrite Hg. reflexivity.
Qed.

Lemma validate_question_update_spec_witness :
  _validate_question_update Sample.env0 Sample.poll8_text (8, Sample.poll8) Sample.st0
  = (inr tt, Sample.st0)
  /\ _validate_question_update Sample.env0 Sample.poll7_text (7, Sample.poll7) Sample.st0
     = rejected 7 Sample.st0
  /\ _validate_question_update Sample.env0 Sample.poll7_fewer (7, Sample.poll7) Sample.st0
     = rejected 7 Sample.st0
  /\ _validate_question_update Sample.env0 Sample.poll7_option (7, Sample.poll7) Sample.st0
     = rejected 7 Sample.st0
  /\ _validate_question_update Sample.env0 Sample.poll7_same (7, Sample.poll7) Sample.st0
     = (inr tt, Sample.st0)
  /\ validate_questions_from Sample.env0 (Some "s1"%string) 0 [Sample.poll7_text] Sample.st0
     = (inl (ValidationError (msg_has_answers 7)), Sample.st0).
Proof.
  pose proof (validate_question_update_spec Sample.env0 Sample.poll8_text 8
                Sample.poll8 Sample.st0) as (H8 & _).
  pose proof (fun d => validate_question_update_spec Sample.env0 d 7
                Sample.poll7 Sample.st0) as H7.
  assert (0 < p_n_answers Sample.poll7) as Hpos by (vm_compute; reflexivity).
  split.
  { apply H8. vm_compute. discriminate. }
  split.
  { destruct (H7 Sample.poll7_text) as (_ & H & _).
    destruct (H Hpos) as (Ht & _).
    apply (Ht (Sample.fi "Muutettu")); reflexivity. }
  split.
  { destruct (H7 Sample.poll7_fewer) as (_ & H & _).
    destruct (H Hpos) as (_ & Hl & _).
    apply (Hl (Sample.fi "Kysymys") [Sample.od (Some 1) "Kylla"]);
      [reflexivity | reflexivity | vm_compute; discriminate]. }
  split.
  { destruct (H7 Sample.poll7_option) as (_ & H & _).
    destruct (H Hpos) as (_ & _ & Ho & _).
    apply (Ho (Sample.fi "Kysymys")
              [Sample.od (Some 1) "Kylla"; Sample.od (Some 2) "Ehka"]
              1%nat (2, Sample.option2) (Sample.od (Some 2) "Ehka")
              (Sample.fi "Ehka"));
      [reflexivity | reflexivity
      | repeat constructor; eexists; reflexivity
      | vm_compute; reflexivity | reflexivity | reflexivity | reflexivity]. }
  split.
  { destruct (H7 Sample.poll7_same) as (_ & H & _).
    destruct (H Hpos) as (_ & _ & _ & _ & Hs & _).
    apply (Hs (fun t => bool_decide_eq_true_2 _ eq_refl)
              [Sample.od (Some 1) "Kylla"; Sample.od (Some 2) "Ei"]);
      [reflexivity | reflexivity | vm_compute; reflexivity]. }
  destruct (H7 Sample.poll7_text) as (_ & H & Hv).
  destruct (H Hpos) as (Ht & _).
  apply (Hv "s1"%string 0 []);
    [reflexivity | vm_compute; reflexivity
    | apply (Ht (Sample.fi "Muutettu")); reflexivity].
Defined.

(** C2, as the specification has it, fails on the code: poll 7 has
    answers and two options; a payload for it without ['text'] and with
    one option only, and a payload with the stored text whose first
    option has no ['text'] and whose second option has another text, are
    not refused with the validation error: the guard, and with it
    [validate_questions], raises [KeyError]. *)
Lemma validate_question_update_counterexample :
  let no_text :=
    mkPollData (Some 7) None (Some "single-choice") None
               (Some [Sample.od (Some 1) "Kylla"]) None in
  let no_option_text :=
    mkPollData (Some 7) None (Some "single-choice") (Some (Sample.fi "Kysymys"))
               (Some [mkOptionData (Some 1) None None;
                      Sample.od (Some 2) "Ehka"]) None in
  0 < p_n_answers Sample.poll7
  /\ length (options_representation Sample.env0 7 Sample.db0) = 2%nat
  /\ _validate_question_update Sample.env0 no_text (7, Sample.poll7) Sample.st0
     = (inl (KeyError "text"), Sample.st0)
  /\ _validate_question_update Sample.env0 no_text (7, Sample.poll7) Sample.st0
     <> rejected 7 Sample.st0
  /\ validate_questions Sample.env0 (Some "s1"%string) [no_text] Sample.st0
     = (inl (KeyError "text"), Sample.st0)
  /\ _validate_question_update Sample.env0 no_option_text (7, Sample.poll7)
       Sample.st0
     = (inl (KeyError "text"), Sample.st0)
  /\ validate_questions Sample.env0 (Some "s1"%string) [no_option_text]
       Sample.st0
     = (inl (KeyError "text"), Sample.st0).
Proof.
  intros no_text no_option_text.
  split; [vm_compute; reflexivity|]. split; [vm_compute; reflexivity|].
  split; [vm_compute; reflexivity|].
  split; [vm_compute; intros H; discriminate H|].
  split; [vm_compute; reflexivity|]. split; vm_compute; reflexivity.
Qed.

End PollGuard.

(** * Authorization on the root image endpoint *)

Section ImageViewSetFacts.
Import Democracy Notions.

Lemma perform_update_unfold env request serializer instance section hearing st :
  ris_instance serializer = Some instance ->
  sections (db st) !! im_section (snd instance) = Some section ->
  hearings (db st) !! s_hearing section = Some hearing ->
  perform_update env request serializer st =
  if administers request hearing
  then save_image env
         (mkImageSerializer (Some instance) (rv_fields (ris_validated serializer)))
         (rv_section (ris_validated serializer)) st
  else (inl (PermissionDenied msg_update_denied), st).
Proof.
  intros Hi Hs Hh. unfold perform_update. rewrite Hi.
  unfold fetch_section, _is_user_organisation_admin.
  unfold bind, read, ret, raise.
  rewrite Hs, Hh.
  fold (administers request hearing).
  destruct (administers request hearing); reflexivity.
Qed.

Lemma save_image_update_not_denied env instance fields section st msg :
  fst (save_image env (mkImageSerializer (Some instance) fields) section st)
  <> inl (PermissionDenied msg).
Proof.
  unfold save_image. simpl. destruct instance as [pk image].
  unfold bind, write, ret. destruct (constraints env _); simpl; discriminate.
Qed.

(** C10.  On an update through the root image endpoint the
    organisation-admin check reads the organisation of the hearing of the
    section the stored image belongs to, whatever section the payload
    names; [PermissionDenied] is raised exactly when the requester does not
    administer that organisation, hence always when the hearing has none,
    and nothing is written then. *)
Theorem perform_update_checks_stored_section
    env request serializer instance section hearing st :
  ris_instance serializer = Some instance ->
  sections (db st) !! im_section (snd instance) = Some section ->
  hearings (db st) !! s_hearing section = Some hearing ->
  (administers request hearing = false ->
   perform_update env request serializer st
   = (inl (PermissionDenied msg_update_denied), st))
  /\ (forall msg,
         fst (perform_update env request serializer st)
         = inl (PermissionDenied msg) ->
         administers request hearing = false)
  /\ (h_organization hearing = None ->
      perform_update env request serializer st
      = (inl (PermissionDenied msg_update_denied), st))
  /\ (forall validated_data msg,
         fst (perform_update env request
                (mkRootImageSerializer (Some instance) validated_data) st)
         = inl (PermissionDenied msg)
         <-> fst (perform_update env request serializer st)
             = inl (PermissionDenied msg)).
Proof.
  intros Hi Hs Hh.
  assert (forall ser msg,
             ris_instance ser = Some instance ->
             fst (perform_update env request ser st) = inl (PermissionDenied msg)
             <-> administers request hearing = false /\ msg = msg_update_denied)
    as Hiff.
  { intros ser msg Hser.
    rewrite (perform_update_unfold _ _ _ _ _ _ _ Hser Hs Hh).
    destruct (administers request hearing); simpl; split.
    - intros H. exfalso. eapply save_image_update_not_denied, H.
    - intros [H _]. discriminate H.
    - intros H. injection H as <-. split; reflexivity.
    - intros [_ ->]. reflexivity. }
  split; [|split; [|split]].
  - intros Hn. rewrite (perform_update_unfold _ _ _ _ _ _ _ Hi Hs Hh), Hn.
    reflexivity.
  - intros msg H. apply (Hiff serializer msg Hi) in H. apply H.
  - intros Hn. rewrite (perform_update_unfold _ _ _ _ _ _ _ Hi Hs Hh).
    unfold administers. rewrite Hn. reflexivity.
  - intros validated_data msg.
    rewrite (Hiff serializer msg Hi).
    apply (Hiff (mkRootImageSerializer (Some instance) validated_data) msg).
    reflexivity.
Qed.

Lemma perform_update_checks_stored_section_witness :
  let outsider := mkRequest {[ 11 ]} in
  let to_s2 :=
    mkRootImageSerializer (Some (1, Sample.image_a))
      (mkRootImageValidated (Some "s2"%string) (mkImageData None None None None)) in
  let moved := mkSectionImage "s2" 1 false (Sample.fi "A") "aaa" in
  perform_update Sample.env0 outsider to_s2 Sample.st0
  = (inl (PermissionDenied msg_update_denied), Sample.st0)
  /\ perform_update Sample.env0 (mkRequest {[ 10 ]})
       (mkRootImageSerializer (Some (4, moved))
          (mkRootImageValidated (Some "s1"%string) (mkImageData None None None None)))
       (mkState (with_images (<[4 := moved]> (images Sample.db0)) Sample.db0) [])
     = (inl (PermissionDenied msg_update_denied),
        mkState (with_images (<[4 := moved]> (images Sample.db0)) Sample.db0) []).
Proof.
  intros outsider to_s2 moved. split.
  - refine (proj1 (perform_update_checks_stored_section Sample.env0 outsider
             to_s2 (1, Sample.image_a) Sample.section1 Sample.hearing1
             Sample.st0 _ _ _) _); vm_compute; reflexivity.
  - refine (proj1 (proj2 (proj2 (perform_update_checks_stored_section Sample.env0
             (mkRequest {[ 10 ]}) _ (4, moved) Sample.section2 Sample.hearing2
             (mkState (with_images (<[4 := moved]> (images Sample.db0)) Sample.db0) [])
             _ _ _))) _); vm_compute; reflexivity.
Defined.

End ImageViewSetFacts.

(** * Atomicity of create and update *)

Section Atomicity.
Import Democracy Notions.
Local Open Scope py_scope.

#[global] Instance anything_preorder : PreOrder anything.
Proof. split; intros ?; unfold anything; auto. Qed.



Lemma atomic_failure_restores {A} (body : M A) st e st' :
  respects anything body -> atomic body st = (inl e, st') -> st' = st.
Proof.
  intros Hr. unfold atomic. fold (enter st).
  destruct (body (enter st)) as [[e'|a] st1] eqn:E; [|discriminate].
  destruct (Hr _ _ _ E) as [Hs _]. rewrite Hs. simpl.
  intros H. injection H as _ <-. destruct st; reflexivity.
Qed.



End Atomicity.

(** * Ordering of images created through the root endpoint *)

Section RootImage.
Import Democracy Notions.
Local Open Scope py_scope.

Lemma aggregate_max_spec q :
  q <> [] ->
  exists m, aggregate_max q = Some m
            /\ (exists kr, kr ∈ q /\ im_ordering (snd kr) = m)
            /\ forall kr, kr ∈ q -> im_ordering (snd kr) <= m.
Proof.
  induction q as [|x q IH]; [congruence|]. intros _. simpl.
  destruct q as [|y q].
  - exists (im_ordering (snd x)). simpl. split; [reflexivity|].
    split; [exists x; split; [left|reflexivity]|].
    intros kr Hkr. apply list_elem_of_singleton in Hkr as ->. lia.
  - destruct IH as (m & Hm & (kr & Hin & Hkr) & Hle); [discriminate|].
    rewrite Hm. eexists. split; [reflexivity|]. split.
    + destruct (Z.max_spec (im_ordering (snd x)) m) as [[_ ->]|[_ ->]].
      * exists kr. split; [right; exact Hin|exact Hkr].
      * exists x. split; [left|reflexivity].
    + intros kr' Hin'. apply elem_of_cons in Hin' as [->|Hin']; [lia|].
      specialize (Hle kr' Hin'). lia.
Qed.

Lemma aggregate_max_intro q m :
  (exists kr, kr ∈ q /\ im_ordering (snd kr) = m) ->
  (forall kr, kr ∈ q -> im_ordering (snd kr) <= m) ->
  aggregate_max q = Some m.
Proof.
  intros (kr & Hin & Hkr) Hle.
  destruct (aggregate_max_spec q) as (m' & Hm & (kr' & Hin' & Hkr') & Hle').
  - intros ->. inversion Hin.
  - rewrite Hm. f_equal. specialize (Hle _ Hin'). specialize (Hle' _ Hin). lia.
Qed.

Lemma aggregate_max_None q : aggregate_max q = None -> q = [].
Proof. destruct q; [reflexivity|discriminate]. Qed.

(** The maximum over the images of the section once the new row is in. *)
Lemma aggregate_max_inserted env section t pk row :
  t !! pk = None -> im_section row = section -> im_deleted row = false ->
  let p := fun r => bool_decide (im_section r = section)
                    && in_manager env (im_deleted r) in
  aggregate_max (rows p (<[pk := row]> t))
  = Some (greatest (im_ordering row) (rows p t)).
Proof.
  intros Hfresh Hs Hd p.
  assert (p row = true) as Hp.
  { unfold p, in_manager. rewrite Hd, andb_false_r. simpl.
    rewrite andb_true_r. apply bool_decide_eq_true_2, Hs. }
  assert (forall kr, kr ∈ rows p (<[pk := row]> t) <->
                     kr = (pk, row) \/ kr ∈ rows p t) as Hin.
  { intros [k r]. rewrite !elem_of_rows. split.
    - intros [Hl Hr]. destruct (decide (pk = k)) as [<-|Hne].
      + rewrite lookup_insert_eq in Hl. injection Hl as <-. left. reflexivity.
      + rewrite lookup_insert_ne in Hl by exact Hne. right. auto.
    - intros [E|[Hl Hr]].
      + injection E as -> ->. rewrite lookup_insert_eq. auto.
      + split; [|exact Hr]. rewrite lookup_insert_ne; [exact Hl|].
        intros <-. congruence. }
  unfold greatest. apply aggregate_max_intro.
  - destruct (aggregate_max (rows p t)) as [m|] eqn:E.
    + destruct (aggregate_max_spec (rows p t)) as (m' & Hm & (kr & Hkr & Ho) & _).
      { intros E'. rewrite E' in E. discriminate E. }
      rewrite E in Hm. injection Hm as <-.
      destruct (Z.max_spec (im_ordering row) m) as [[_ ->]|[_ ->]].
      * exists kr. split; [apply Hin; right; exact Hkr|exact Ho].
      * exists (pk, row). split; [apply Hin; left; reflexivity|reflexivity].
    + exists (pk, row). split; [apply Hin; left; reflexivity|reflexivity].
  - intros kr Hkr. apply Hin in Hkr as [->|Hkr].
    + simpl. destruct (aggregate_max (rows p t)); lia.
    + destruct (aggregate_max_spec (rows p t)) as (m' & Hm & _ & Hle).
      { intros E'. rewrite E' in Hkr. inversion Hkr. }
      rewrite Hm. specialize (Hle kr Hkr). lia.
Qed.

(** What the root serializer's [create] stores when it returns. *)
Lemma root_image_create_returns env validated_data st pk row st' :
  root_image_create env validated_data st = (inr (pk, row), st') ->
  exists section,
    rv_section validated_data = Some section
    /\ pk = next_id (images (db st))
    /\ im_section row = section
    /\ im_ordering row
       = greatest (default (default_image_ordering env)
                     (idata_ordering (rv_fields validated_data)))
                  (section_images env section (db st)) + 1
    /\ images (db st') = <[pk := row]> (images (db st)).
Proof.
  unfold root_image_create. intros H.
  apply atomic_body_returned in H as (st3 & H & Hdb). rewrite Hdb. clear Hdb.
  apply bind_returns in H as ([pk0 row0] & st1 & Hsave & H).
  unfold save_image in Hsave. simpl in Hsave.
  destruct (rv_section validated_data) as [section|]; [|discriminate].
  apply bind_returns in Hsave as (d & st0 & Hread & Hsave).
  injection Hread as <- <-.
  apply bind_returns in Hsave as ([] & st0 & Hw & Hr).
  apply write_returns in Hw. injection Hr as <- <- <-. subst st0.
  apply bind_returns in H as (d & st0 & Hread & H).
  injection Hread as <- <-. simpl in H.
  set (row0 := mkSectionImage section _ false _ _) in *.
  pose proof (aggregate_max_inserted env section (images (db st))
                (next_id (images (db st))) row0 (next_id_fresh _)
                eq_refl eq_refl) as Hmax.
  cbv zeta in Hmax. unfold section_images in H at 1. simpl in H.
  unfold section_images in H. simpl in H. rewrite Hmax in H.
  destruct (rows _ (<[next_id (images (db st)) := row0]> (images (db st))))
    as [|kr q] eqn:Eq.
  { simpl in Hmax. discriminate Hmax. }
  apply bind_returns in H as ([] & st0 & Hw & Hr).
  apply write_returns in Hw. injection Hr as <- <- <-. subst st0. simpl.
  exists section. split; [reflexivity|]. split; [reflexivity|].
  split; [reflexivity|]. split; [reflexivity|].
  apply insert_insert_eq.
Qed.

(** C3, as the code has it.  The image the root endpoint creates is
    stored with an ordering one more than the greatest ordering among the
    images of its section taken after the insertion, the new image with
    its submitted or default ordering included: one more than the greater
    of the submitted ordering and the greatest ordering the section had.
    When the section had images and none was below the submitted
    ordering this is one more than the greatest ordering the section
    had. *)
Theorem root_image_create_ordering env validated_data st pk row st' section :
  rv_section validated_data = Some section ->
  root_image_create env validated_data st = (inr (pk, row), st') ->
  let submitted :=
    default (default_image_ordering env)
            (idata_ordering (rv_fields validated_data)) in
  let before := section_images env section (db st) in
  images (db st) !! pk = None
  /\ images (db st') !! pk = Some row
  /\ im_section row = section
  /\ im_ordering row = greatest submitted before + 1
  /\ (before = [] -> im_ordering row = submitted + 1)
  /\ (forall m, aggregate_max before = Some m -> submitted <= m ->
                im_ordering row = m + 1).
Proof.
  intros Hs H submitted before.
  destruct (root_image_create_returns _ _ _ _ _ _ H)
    as (section' & Hs' & Hpk & Hsec & Hord & Hdb).
  rewrite Hs in Hs'. injection Hs' as <-.
  split; [rewrite Hpk; apply next_id_fresh|].
  split; [rewrite Hdb; apply lookup_insert_eq|].
  split; [exact Hsec|]. split; [exact Hord|]. split.
  - intros E. rewrite Hord. fold before. rewrite E. reflexivity.
  - intros m Hm Hle. rewrite Hord. fold before. unfold greatest. rewrite Hm.
    fold submitted. lia.
Qed.

Lemma root_image_create_ordering_witness :
  exists row st',
    root_image_create Sample.env0
      (mkRootImageValidated (Some "s1"%string) (Sample.new_image None))
      Sample.st0 = (inr (4, row), st')
    /\ aggregate_max (section_images Sample.env0 "s1" Sample.db0) = Some 5
    /\ im_ordering row = 6.
Proof.
  eexists _, _. split; [vm_compute; reflexivity|].
  split; [vm_compute; reflexivity|].
  refine (proj2 (proj2 (proj2 (proj2 (proj2
            (root_image_create_ordering Sample.env0
               (mkRootImageValidated (Some "s1"%string) (Sample.new_image None))
               Sample.st0 4 _ _ "s1"%string _ _))))) 5 _ _);
    vm_compute; first [reflexivity | intros H; discriminate H].
Defined.

(** C3, as the specification has it, fails on the code: a section
    without images does not leave the submitted ordering 3 alone, and a
    section whose images have the orderings 1, 2 and 5 gives an image
    submitted with ordering 10 the ordering 11, not 6. *)
Lemma root_image_create_counterexample :
  section_images Sample.env0 "s2" Sample.db0 = []
  /\ (exists st',
         root_image_create Sample.env0
           (mkRootImageValidated (Some "s2"%string) (Sample.new_image (Some 3)))
           Sample.st0
         = (inr (4, mkSectionImage "s2" 4 false [] "xxx"), st'))
  /\ aggregate_max (section_images Sample.env0 "s1" Sample.db0) = Some 5
  /\ (exists st',
         root_image_create Sample.env0
           (mkRootImageValidated (Some "s1"%string) (Sample.new_image (Some 10)))
           Sample.st0
         = (inr (4, mkSectionImage "s1" 11 false [] "xxx"), st')).
Proof.
  split; [vm_compute; reflexivity|].
  split; [eexists; vm_compute; reflexivity|].
  split; [vm_compute; reflexivity|].
  eexists; vm_compute; reflexivity.
Qed.

End RootImage.

(** * Orderings from positions *)

Section Orderings.
Import Democracy Children Notions.
Local Open Scope py_scope.

Lemma handle_all_new {R Item} tget tset (deleted : R -> bool) set_deleted env
    step (inst : Item -> option (Z * R)) made in_parent
    (row_ok : nat -> R -> Prop) data st u st' :
  (forall t d, tget (tset t d) = t) ->
  (forall r, deleted (set_deleted r) = true) ->
  (forall x st pr st',
      step x st = (inr pr, st') ->
      tget (db st') = <[fst pr := snd pr]> (tget (db st))
      /\ saved_as deleted inst made (tget (db st)) x pr) ->
  handle tget tset deleted set_deleted env step in_parent data st = (inr u, st') ->
  (forall x, x ∈ data -> inst x = None) ->
  (forall (i : nat) x row, data !! i = Some x -> made x row -> row_ok i row) ->
  all_new (tget (db st)) (tget (db st')) (length data) row_ok.
Proof.
  intros Hgs Hdel Hstep H Hnew Hok.
  destruct (handle_returns tget tset deleted set_deleted env step inst made
              in_parent Hgs Hdel Hstep data st u st' H)
    as (saved & Hst & _ & _ & Hfinal).
  destruct (stored_all_new _ _ _ _ _ _ Hst Hnew) as (Hnd & Hfree & Hall).
  destruct (stored_lookup _ _ _ _ _ _ Hst) as (Hlen & Hmade).
  exists saved. split; [exact Hlen|]. split; [exact Hnd|]. split; [exact Hfree|].
  intros i pk row Hi.
  assert ((pk, row) ∈ saved) as Hin by (eapply list_elem_of_lookup_2; exact Hi).
  split.
  - rewrite Hfinal.
    + apply (Hall (pk, row) Hin).
    + apply list_elem_of_fmap. exists (pk, row). auto.
  - destruct (lookup_lt_is_Some_2 data i) as [x Hx].
    { rewrite <- Hlen. eapply lookup_lt_Some. exact Hi. }
    apply (Hok i x row Hx). apply (Hmade i x (pk, row) Hx Hi).
Qed.

Lemma from_lookup_item {Raw Item} (rel : Z -> Raw -> Item -> Prop)
    index data items :
  Validated.items_from rel index data items ->
  length items = length data
  /\ forall (i : nat) item, items !! i = Some item ->
       exists raw, data !! i = Some raw /\ rel (index + Z.of_nat i) raw item.
Proof.
  intros H. destruct (from_lookup rel data index items H) as [Hlen Hall].
  split; [exact Hlen|]. intros i item Hi.
  destruct (lookup_lt_is_Some_2 data i) as [raw Hraw].
  { rewrite <- Hlen. eapply lookup_lt_Some. exact Hi. }
  destruct (Hall i raw Hraw) as (item' & Hi' & Hrel).
  exists raw. split; [exact Hraw|]. congruence.
Qed.

Lemma all_raw_new {Raw} (f : Raw -> option Z) (data : list Raw) i raw :
  Forall (fun raw => given_id (f raw) = None) data ->
  data !! i = Some raw -> given_id (f raw) = None.
Proof. intros Hall Hi. eapply Forall_lookup_1 in Hall; eauto. Qed.

(** C7.  Validation gives the element at position [i] of the incoming
    array the ordering [i + 1] for poll options and for questions and the
    ordering [i] for section images, whatever ordering the payload
    carried; and options, questions or images that are all new are
    stored, in the order of the array, with the orderings 1, 2, ..., n
    (options, questions) and 0, 1, ..., n - 1 (images). *)
Theorem ordering_from_position env :
  (forall instance data st items st',
      validate_options env instance data st = (inr items, st') ->
      length items = length data
      /\ forall (i : nat) item, items !! i = Some item ->
           od_ordering (oi_data item) = Some (Z.of_nat i + 1))
  /\ (forall instance data st items st',
         validate_questions env instance data st = (inr items, st') ->
         length items = length data
         /\ forall (i : nat) item, items !! i = Some item ->
              pd_ordering (pi_data item) = Some (Z.of_nat i + 1))
  /\ (forall instance data st items st',
         validate_images env instance data st = (inr items, st') ->
         length items = length data
         /\ forall (i : nat) item, items !! i = Some item ->
              idata_ordering (ii_data item) = Some (Z.of_nat i)
              /\ exists serializer,
                  ii_serializer item = Some serializer
                  /\ idata_ordering (is_validated serializer)
                     = Some (Z.of_nat i))
  /\ (forall instance poll data st items st',
         Forall (fun raw => given_id (od_id raw) = None) data ->
         validate_options env instance data st = (inr items, st) ->
         _handle_options env poll items st = (inr tt, st') ->
         all_new (options (db st)) (options (db st')) (length data)
           (fun i row =>
              o_poll row = poll /\ o_ordering row = Z.of_nat i + 1
              /\ forall raw t, data !! i = Some raw -> od_text raw = Some t ->
                              o_text row = t))
  /\ (forall instance section data st items st',
         Forall (fun raw => given_id (pd_id raw) = None) data ->
         validate_questions env instance data st = (inr items, st) ->
         _handle_questions env section items st = (inr tt, st') ->
         all_new (polls (db st)) (polls (db st')) (length data)
           (fun i row =>
              p_section row = section /\ p_ordering row = Z.of_nat i + 1))
  /\ (forall instance section data st items st',
         Forall (fun raw => given_id (idata_id raw) = None) data ->
         validate_images env instance data st = (inr items, st) ->
         _handle_images env section items st = (inr tt, st') ->
         all_new (images (db st)) (images (db st')) (length data)
           (fun i row =>
              im_section row = section /\ im_ordering row = Z.of_nat i)).
Proof.
  split; [|split; [|split; [|split; [|split]]]].
  - intros instance data st items st' H.
    destruct (validate_options_reads _ _ _ _ _ _ _ H) as [_ Hfrom].
    destruct (from_lookup_item _ _ _ _ (Hfrom items eq_refl)) as [Hlen Hall].
    split; [exact Hlen|]. intros i item Hi.
    destruct (Hall i item Hi) as (raw & _ & Hd & _). rewrite Hd. reflexivity.
  - intros instance data st items st' H.
    destruct (validate_questions_reads _ _ _ _ _ _ _ H) as [_ Hfrom].
    destruct (from_lookup_item _ _ _ _ (Hfrom items eq_refl)) as [Hlen Hall].
    split; [exact Hlen|]. intros i item Hi.
    destruct (Hall i item Hi) as (raw & _ & Hd & _). rewrite Hd. reflexivity.
  - intros instance data st items st' H.
    destruct (validate_images_reads _ _ _ _ _ _ _ H) as [_ Hfrom].
    destruct (from_lookup_item _ _ _ _ (Hfrom items eq_refl)) as [Hlen Hall].
    split; [exact Hlen|]. intros i item Hi.
    destruct (Hall i item Hi) as (raw & _ & Hd & ser & Hs & Hv & _).
    rewrite Hd. split; [reflexivity|]. exists ser. rewrite Hv. auto.
  - intros instance poll data st items st' Hnew Hv Hh.
    destruct (validate_options_reads _ _ _ _ _ _ _ Hv) as [_ Hfrom].
    destruct (from_lookup_item _ _ _ _ (Hfrom items eq_refl)) as [Hlen Hall].
    rewrite handle_options_shape in Hh. rewrite <- Hlen.
    refine (handle_all_new options with_options o_deleted o_set_deleted env _
              option_inst (option_made poll) _ _ items st tt st'
              _ _ _ Hh _ _); [reflexivity|reflexivity| | |].
    + intros x s pr s'. apply option_step_spec.
    + intros x Hx. apply list_elem_of_lookup in Hx as [i Hi].
      destruct (Hall i x Hi) as (raw & Hraw & _ & ser & Hs & _ & Hinst).
      rewrite (all_raw_new _ _ _ _ Hnew Hraw) in Hinst.
      unfold option_inst. rewrite Hs. exact Hinst.
    + intros i x row Hi (Hp & Ho & ser & Hs & Ht).
      destruct (Hall i x Hi) as (raw & Hraw & Hd & ser' & Hs' & Hv' & _).
      split; [exact Hp|]. split.
      * rewrite Hd in Ho. simpl in Ho. injection Ho as <-. lia.
      * intros raw' t Hraw' Hrt. apply Ht.
        assert (ser = ser') as -> by congruence. rewrite Hv'. simpl. congruence.
  - intros instance section data st items st' Hnew Hv Hh.
    destruct (validate_questions_reads _ _ _ _ _ _ _ Hv) as [_ Hfrom].
    destruct (from_lookup_item _ _ _ _ (Hfrom items eq_refl)) as [Hlen Hall].
    rewrite handle_questions_shape in Hh. rewrite <- Hlen.
    refine (handle_all_new polls with_polls p_deleted p_set_deleted env _
              poll_inst (poll_made section) _ _ items st tt st'
              _ _ _ Hh _ _); [reflexivity|reflexivity| | |].
    + intros x s pr s'. apply poll_step_spec.
    + intros x Hx. apply list_elem_of_lookup in Hx as [i Hi].
      destruct (Hall i x Hi) as (raw & Hraw & _ & ser & Hs & Hinst & _).
      rewrite (all_raw_new _ _ _ _ Hnew Hraw) in Hinst.
      unfold poll_inst. rewrite Hs. exact Hinst.
    + intros i x row Hi (Hp & Ho).
      destruct (Hall i x Hi) as (raw & Hraw & Hd & _).
      split; [exact Hp|].
      rewrite Hd in Ho. simpl in Ho. injection Ho as <-. lia.
  - intros instance section data st items st' Hnew Hv Hh.
    destruct (validate_images_reads _ _ _ _ _ _ _ Hv) as [_ Hfrom].
    destruct (from_lookup_item _ _ _ _ (Hfrom items eq_refl)) as [Hlen Hall].
    rewrite handle_images_shape in Hh. rewrite <- Hlen.
    refine (handle_all_new images with_images im_deleted im_set_deleted env _
              image_inst (image_made env section) _ _ items st tt st'
              _ _ _ Hh _ _); [reflexivity|reflexivity| | |].
    + intros x s pr s'. apply image_step_spec.
    + intros x Hx. apply list_elem_of_lookup in Hx as [i Hi].
      destruct (Hall i x Hi) as (raw & Hraw & _ & ser & Hs & _ & Hinst).
      rewrite (all_raw_new _ _ _ _ Hnew Hraw) in Hinst.
      unfold image_inst. rewrite Hs. exact Hinst.
    + intros i x row Hi (Hp & ser & Hs & Ho).
      destruct (Hall i x Hi) as (raw & Hraw & Hd & ser' & Hs' & Hv' & _).
      split; [exact Hp|]. apply Ho.
      assert (ser = ser') as -> by congruence. rewrite Hv'. simpl.
      f_equal; lia.
Qed.

Lemma ordering_from_position_witness :
  all_new (options Sample.db0) (options (db (snd Sample.options1))) 3
    (fun i row =>
       o_poll row = 8 /\ o_ordering row = Z.of_nat i + 1
       /\ forall raw t, Sample.raw_options !! i = Some raw ->
                       od_text raw = Some t -> o_text row = t)
  /\ (forall (i : nat) item,
         Sample.images_data !! i = Some item ->
         idata_ordering (ii_data item) = Some (Z.of_nat i)).
Proof.
  destruct (ordering_from_position Sample.env0)
    as (_ & _ & Himages & Hoptions & _).
  split.
  - apply (Hoptions (Some 8) 8 Sample.raw_options Sample.st0
             Sample.options_data (snd Sample.options1)).
    + repeat constructor.
    + vm_compute. reflexivity.
    + vm_compute. reflexivity.
  - intros i item Hi.
    destruct (Himages (Some "s1"%string) Sample.raw_images Sample.st0
                Sample.images_data Sample.st0) as [_ H].
    + vm_compute. reflexivity.
    + apply (H i item Hi).
Defined.

(** The example of the specification: the options X, Y, Z, all new, are
    stored with the orderings 1, 2, 3. *)
Example new_options_are_numbered_from_one :
  (fun r => (o_text r, o_ordering r)) <$> options (db (snd Sample.options1)) !! 4
  = Some (Sample.fi "X", 1)
  /\ (fun r => (o_text r, o_ordering r)) <$> options (db (snd Sample.options1)) !! 5
     = Some (Sample.fi "Y", 2)
  /\ (fun r => (o_text r, o_ordering r)) <$> options (db (snd Sample.options1)) !! 6
     = Some (Sample.fi "Z", 3).
Proof. vm_compute. repeat split. Qed.

End Orderings.

(** * Soft deletion *)

Section SoftDelete.
Import Democracy Children Notions.
Local Open Scope py_scope.

#[global] Instance grows_preorder : PreOrder grows.
Proof.
  split.
  - intros d. unfold grows. auto.
  - intros d1 d2 d3 (Hh & Hs & Hi & Hp & Ho) (Hh' & Hs' & Hi' & Hp' & Ho').
    unfold grows. split; [congruence|].
    split; [etransitivity; eassumption|]. split; [etransitivity; eassumption|].
    split; etransitivity; eassumption.
Qed.

Lemma tol_grows :
  tol_sections grows /\ tol_images grows /\ tol_polls grows /\ tol_options grows.
Proof. unfold grows. repeat split; auto. Qed.

#[global] Instance same_images_preorder : PreOrder same_images.
Proof.
  split; unfold same_images.
  - intros d. reflexivity.
  - intros d1 d2 d3 H1 H2. congruence.
Qed.

Lemma handle_replaced {R Item} tget tset (deleted : R -> bool) set_deleted env
    step (inst : Item -> option (Z * R)) made (in_parent : R -> bool)
    (incoming : Z -> Prop) before items st u st' :
  (forall t d, tget (tset t d) = t) ->
  (forall r, deleted (set_deleted r) = true) ->
  (forall x st pr st',
      step x st = (inr pr, st') ->
      tget (db st') = <[fst pr := snd pr]> (tget (db st))
      /\ saved_as deleted inst made (tget (db st)) x pr) ->
  handle tget tset deleted set_deleted env step in_parent items st = (inr u, st') ->
  tget (db st) = before ->
  (forall x pk snapshot,
      x ∈ items -> inst x = Some (pk, snapshot) ->
      before !! pk = Some snapshot /\ incoming pk) ->
  (forall pk, incoming pk ->
      exists x snapshot,
        x ∈ items /\ inst x = Some (pk, snapshot)
        /\ before !! pk = Some snapshot
        /\ in_manager env (deleted snapshot) = true) ->
  replaced env deleted (fun r => in_parent r = true) incoming
           before (tget (db st')).
Proof.
  intros Hgs Hdel Hstep H Hb Hi1 Hi2.
  destruct (handle_returns tget tset deleted set_deleted env step inst made
              in_parent Hgs Hdel Hstep items st u st' H)
    as (saved & _ & Habsent & Hpresent & _).
  rewrite Hb in Habsent, Hpresent. split.
  - intros pk r0 Hr0 Hp Hn. apply (Habsent pk r0 Hr0 Hp).
    intros x snapshot Hx Hi. apply Hn. apply (Hi1 x pk snapshot Hx Hi).
  - intros pk Hin. destruct (Hi2 pk Hin) as (x & snapshot & Hx & Hi & Hs & Hm).
    destruct (Hpresent) with (x := x) (pk := pk) (snapshot := snapshot)
                              (r0 := snapshot) as (r & Hr & Hd); auto.
    { intros y pk' snap' Hy Hi'. exists snap'. split; [|reflexivity].
      apply (Hi1 y pk' snap' Hy Hi'). }
    exists snapshot, r. split; [exact Hs|]. split; [exact Hr|].
    split; [exact Hd|]. intros Hh. rewrite Hd.
    unfold in_manager in Hm. rewrite Hh in Hm. simpl in Hm.
    apply negb_true_iff in Hm. exact Hm.
Qed.

(** The instances of validated items are the rows the payloads name. *)
Lemma image_items_instances env instance d data items :
  Validated.items_from (Validated.image_item env instance d) 0 data items ->
  (forall x pk snapshot,
      x ∈ items -> image_inst x = Some (pk, snapshot) ->
      images d !! pk = Some snapshot
      /\ exists raw, raw ∈ data /\ given_id (idata_id raw) = Some pk)
  /\ (forall raw pk,
         raw ∈ data -> given_id (idata_id raw) = Some pk ->
         exists x snapshot,
           x ∈ items /\ image_inst x = Some (pk, snapshot)
           /\ images d !! pk = Some snapshot
           /\ in_manager env (im_deleted snapshot) = true).
Proof.
  intros H. destruct (from_lookup _ _ _ _ H) as [_ Hraw].
  destruct (from_lookup_item _ _ _ _ H) as [_ Hitem]. split.
  - intros x pk snapshot Hx Hi. apply list_elem_of_lookup in Hx as [i Hx].
    destruct (Hitem i x Hx) as (raw & Hr & _ & ser & Hs & _ & Hinst).
    unfold image_inst in Hi. rewrite Hs in Hi. simpl in Hi.
    destruct (given_id (idata_id raw)) as [pk'|] eqn:E; [|congruence].
    destruct Hinst as (section & r & _ & Hg & Hinst).
    rewrite Hinst in Hi. injection Hi as -> ->.
    apply get_row_Some in Hg as [Hg _]. split; [exact Hg|].
    exists raw. split; [eapply list_elem_of_lookup_2; exact Hr|exact E].
  - intros raw pk Hr E. apply list_elem_of_lookup in Hr as [i Hr].
    destruct (Hraw i raw Hr) as (x & Hx & _ & ser & Hs & _ & Hinst).
    rewrite E in Hinst. destruct Hinst as (section & r & _ & Hg & Hinst).
    apply get_row_Some in Hg as [Hg Hp]. apply andb_true_iff in Hp as [_ Hp].
    exists x, r. split; [eapply list_elem_of_lookup_2; exact Hx|].
    unfold image_inst. rewrite Hs. simpl. auto.
Qed.

Lemma option_items_instances env instance d data items :
  Validated.items_from (Validated.option_item env instance d) 0 data items ->
  (forall x pk snapshot,
      x ∈ items -> option_inst x = Some (pk, snapshot) ->
      options d !! pk = Some snapshot
      /\ exists raw, raw ∈ data /\ given_id (od_id raw) = Some pk)
  /\ (forall raw pk,
         raw ∈ data -> given_id (od_id raw) = Some pk ->
         exists x snapshot,
           x ∈ items /\ option_inst x = Some (pk, snapshot)
           /\ options d !! pk = Some snapshot
           /\ in_manager env (o_deleted snapshot) = true).
Proof.
  intros H. destruct (from_lookup _ _ _ _ H) as [_ Hraw].
  destruct (from_lookup_item _ _ _ _ H) as [_ Hitem]. split.
  - intros x pk snapshot Hx Hi. apply list_elem_of_lookup in Hx as [i Hx].
    destruct (Hitem i x Hx) as (raw & Hr & _ & ser & Hs & _ & Hinst).
    unfold option_inst in Hi. rewrite Hs in Hi. simpl in Hi.
    destruct (given_id (od_id raw)) as [pk'|] eqn:E; [|congruence].
    destruct Hinst as (section & r & _ & Hg & Hinst).
    rewrite Hinst in Hi. injection Hi as -> ->.
    apply get_row_Some in Hg as [Hg _]. split; [exact Hg|].
    exists raw. split; [eapply list_elem_of_lookup_2; exact Hr|exact E].
  - intros raw pk Hr E. apply list_elem_of_lookup in Hr as [i Hr].
    destruct (Hraw i raw Hr) as (x & Hx & _ & ser & Hs & _ & Hinst).
    rewrite E in Hinst. destruct Hinst as (section & r & _ & Hg & Hinst).
    apply get_row_Some in Hg as [Hg Hp]. apply andb_true_iff in Hp as [_ Hp].
    exists x, r. split; [eapply list_elem_of_lookup_2; exact Hx|].
    unfold option_inst. rewrite Hs. simpl. auto.
Qed.

Lemma poll_items_instances env instance d data items :
  Validated.items_from (Validated.poll_item env instance d) 0 data items ->
  (forall x pk snapshot,
      x ∈ items -> poll_inst x = Some (pk, snapshot) ->
      polls d !! pk = Some snapshot
      /\ exists raw, raw ∈ data /\ given_id (pd_id raw) = Some pk)
  /\ (forall raw pk,
         raw ∈ data -> given_id (pd_id raw) = Some pk ->
         exists x snapshot,
           x ∈ items /\ poll_inst x = Some (pk, snapshot)
           /\ polls d !! pk = Some snapshot
           /\ in_manager env (p_deleted snapshot) = true).
Proof.
  intros H. destruct (from_lookup _ _ _ _ H) as [_ Hraw].
  destruct (from_lookup_item _ _ _ _ H) as [_ Hitem]. split.
  - intros x pk snapshot Hx Hi. apply list_elem_of_lookup in Hx as [i Hx].
    destruct (Hitem i x Hx) as (raw & Hr & _ & ser & Hs & Hinst & _).
    unfold poll_inst in Hi. rewrite Hs in Hi. simpl in Hi.
    destruct (given_id (pd_id raw)) as [pk'|] eqn:E; [|congruence].
    destruct Hinst as (section & r & _ & Hg & Hinst).
    rewrite Hinst in Hi. injection Hi as -> ->.
    apply get_row_Some in Hg as [Hg _]. split; [exact Hg|].
    exists raw. split; [eapply list_elem_of_lookup_2; exact Hr|exact E].
  - intros raw pk Hr E. apply list_elem_of_lookup in Hr as [i Hr].
    destruct (Hraw i raw Hr) as (x & Hx & _ & ser & Hs & Hinst & _).
    rewrite E in Hinst. destruct Hinst as (section & r & _ & Hg & Hinst).
    apply get_row_Some in Hg as [Hg Hp]. apply andb_true_iff in Hp as [_ Hp].
    exists x, r. split; [eapply list_elem_of_lookup_2; exact Hx|].
    unfold poll_inst. rewrite Hs. simpl. auto.
Qed.

Lemma handle_images_replaced env instance section data items st0 st u st' :
  Validated.items_from (Validated.image_item env instance (db st0)) 0 data items ->
  images (db st) = images (db st0) ->
  _handle_images env section items st = (inr u, st') ->
  replaced env im_deleted (fun r => im_section r = section)
           (names idata_id data) (images (db st0)) (images (db st')).
Proof.
  intros Hv Hsame H. rewrite handle_images_shape in H.
  destruct (image_items_instances _ _ _ _ _ Hv) as [Hi1 Hi2].
  assert (replaced env im_deleted (fun r => bool_decide (im_section r = section) = true)
            (names idata_id data) (images (db st0)) (images (db st'))) as [Ha Hp].
  { apply (handle_replaced images with_images im_deleted im_set_deleted env
             (image_step env section) image_inst (image_made env section)
             (fun r => bool_decide (im_section r = section)) (names idata_id data)
             (images (db st0)) items st u st'); auto.
    - intros x s pr s'. apply image_step_spec.
    - intros pk (raw & Hr & E). apply (Hi2 raw pk Hr E). }
  split; [|exact Hp]. intros pk r0 Hr0 Hs Hn.
  apply (Ha pk r0 Hr0); [|exact Hn]. apply bool_decide_eq_true_2, Hs.
Qed.

Lemma handle_options_replaced env instance poll data items st0 st u st' :
  Validated.items_from (Validated.option_item env instance (db st0)) 0 data items ->
  options (db st) = options (db st0) ->
  _handle_options env poll items st = (inr u, st') ->
  replaced env o_deleted (fun r => o_poll r = poll)
           (names od_id data) (options (db st0)) (options (db st')).
Proof.
  intros Hv Hsame H. rewrite handle_options_shape in H.
  destruct (option_items_instances _ _ _ _ _ Hv) as [Hi1 Hi2].
  assert (replaced env o_deleted (fun r => bool_decide (o_poll r = poll) = true)
            (names od_id data) (options (db st0)) (options (db st'))) as [Ha Hp].
  { apply (handle_replaced options with_options o_deleted o_set_deleted env
             (option_step env poll) option_inst (option_made poll)
             (fun r => bool_decide (o_poll r = poll)) (names od_id data)
             (options (db st0)) items st u st'); auto.
    - intros x s pr s'. apply option_step_spec.
    - intros pk (raw & Hr & E). apply (Hi2 raw pk Hr E). }
  split; [|exact Hp]. intros pk r0 Hr0 Hs Hn.
  apply (Ha pk r0 Hr0); [|exact Hn]. apply bool_decide_eq_true_2, Hs.
Qed.

Lemma handle_questions_replaced env instance section data items st0 st u st' :
  Validated.items_from (Validated.poll_item env instance (db st0)) 0 data items ->
  polls (db st) = polls (db st0) ->
  _handle_questions env section items st = (inr u, st') ->
  replaced env p_deleted (fun r => p_section r = section)
           (names pd_id data) (polls (db st0)) (polls (db st')).
Proof.
  intros Hv Hsame H. rewrite handle_questions_shape in H.
  destruct (poll_items_instances _ _ _ _ _ Hv) as [Hi1 Hi2].
  assert (replaced env p_deleted (fun r => bool_decide (p_section r = section) = true)
            (names pd_id data) (polls (db st0)) (polls (db st'))) as [Ha Hp].
  { apply (handle_replaced polls with_polls p_deleted p_set_deleted env
             (poll_step env section) poll_inst (poll_made section)
             (fun r => bool_decide (p_section r = section)) (names pd_id data)
             (polls (db st0)) items st u st'); auto.
    - intros x s pr s'. apply poll_step_spec.
    - intros pk (raw & Hr & E). apply (Hi2 raw pk Hr E). }
  split; [|exact Hp]. intros pk r0 Hr0 Hs Hn.
  apply (Ha pk r0 Hr0); [|exact Hn]. apply bool_decide_eq_true_2, Hs.
Qed.

Lemma tol_same_images :
  tol_sections same_images /\ tol_polls same_images /\ tol_options same_images.
Proof. repeat split. Qed.

Lemma tol_same_polls :
  tol_sections same_polls /\ tol_images same_polls /\ tol_options same_polls.
Proof. repeat split. Qed.

Lemma update_children env instance fields raw_images raw_questions
    images_data polls_data st section st' :
  validate_images env (Some (fst instance)) raw_images st = (inr images_data, st) ->
  validate_questions env (Some (fst instance)) raw_questions st
  = (inr polls_data, st) ->
  update env instance
         (mkSectionValidated fields (Some images_data) (Some polls_data)) st
  = (inr section, st') ->
  fst section = fst instance ->
  replaced env im_deleted (fun r => im_section r = fst instance)
           (names idata_id raw_images) (images (db st)) (images (db st'))
  /\ replaced env p_deleted (fun r => p_section r = fst instance)
              (names pd_id raw_questions) (polls (db st)) (polls (db st')).
Proof.
  intros Hvi Hvq H Hsame.
  destruct (validate_images_reads _ _ _ _ _ _ _ Hvi) as [_ Hi].
  destruct (validate_questions_reads _ _ _ _ _ _ _ Hvq) as [_ Hq].
  specialize (Hi _ eq_refl). specialize (Hq _ eq_refl).
  destruct tol_same_images as (Tis & Tip & Tio).
  destruct tol_same_polls as (Tps & Tpi & Tpo).
  apply atomic_body_returned in H as (st3 & H & Hdb). rewrite Hdb. clear Hdb.
  unfold update_body in H. simpl in H.
  apply bind_returns in H as (sec & st1 & Hsec & H).
  apply bind_returns in H as ([] & st2 & Himg & H).
  apply bind_returns in H as ([] & st3' & Hpoll & H).
  injection H as <- <-. rewrite Hsame in Himg, Hpoll.
  destruct (section_update_respects same_images _ _ _ Tis _ _ _ Hsec) as [_ Hi1].
  destruct (section_update_respects same_polls _ _ _ Tps _ _ _ Hsec) as [_ Hp1].
  destruct (handle_images_respects same_polls _ _ _ Tpi _ _ _ Himg) as [_ Hp2].
  destruct (handle_questions_respects same_images _ _ _ Tip Tio _ _ _ Hpoll)
    as [_ Hi3].
  unfold same_images, same_polls in *. simpl in Hi1, Hp1. split.
  - rewrite Hi3. eapply handle_images_replaced; eauto.
  - eapply handle_questions_replaced; [exact Hq| |exact Hpoll]. congruence.
Qed.

Lemma poll_update_children env poll data options_data serializer section
    ordering st saved st' :
  poll_is_valid env (Some poll) data st = (inr serializer, st) ->
  pd_options data = Some options_data ->
  save_poll env serializer section ordering st = (inr saved, st') ->
  replaced env o_deleted (fun r => o_poll r = fst poll)
           (names od_id options_data) (options (db st)) (options (db st')).
Proof.
  intros Hv Hod H.
  destruct (poll_is_valid_reads _ _ _ _ _ _ Hv) as [_ Hs].
  destruct (Hs _ eq_refl) as (Hinst & od' & items & Hod' & Hpv & Hfrom).
  rewrite Hod in Hod'. injection Hod' as <-.
  unfold save_poll in H.
  apply atomic_body_returned in H as (st3 & H & Hdb). rewrite Hdb. clear Hdb.
  rewrite Hpv, Hinst in H. simpl in H. destruct poll as [pk instance].
  apply bind_returns in H as (p & st1 & Hp & H).
  apply bind_returns in H as ([] & st2 & Hopts & H).
  injection H as <- <-.
  apply bind_returns in Hp as ([] & st0 & Hw & Hr).
  apply write_returns in Hw. injection Hr as <- <-. subst st0. simpl in Hopts.
  simpl. eapply handle_options_replaced; [exact Hfrom| |exact Hopts].
  reflexivity.
Qed.

End SoftDelete.

(** * The legacy models *)

Section LegacySection.
Import Kk.

Lemma py_max_spec l :
  l <> [] -> exists m, py_max l = Some m /\ m ∈ l /\ forall x, x ∈ l -> x <= m.
Proof.
  induction l as [|x l IH]; [congruence|]. intros _. simpl.
  destruct l as [|y l].
  - exists x. simpl. split; [reflexivity|]. split; [left|].
    intros z Hz. apply list_elem_of_singleton in Hz. lia.
  - destruct IH as (m & Hm & Hin & Hle); [discriminate|]. rewrite Hm.
    exists (Z.max x m). split; [reflexivity|]. split.
    + destruct (Z.max_spec x m) as [[_ ->]|[_ ->]]; [right; exact Hin|left].
    + intros z Hz. apply elem_of_cons in Hz as [->|Hz]; [lia|].
      specialize (Hle z Hz). lia.
Qed.


Lemma elem_of_sibling_orderings hearing d x :
  x ∈ sibling_orderings hearing d
  <-> exists k r, sections d !! k = Some r
                  /\ hearing_id r = Some hearing /\ ordering r = x.
Proof.
  unfold sibling_orderings. rewrite list_elem_of_fmap. split.
  - intros ([k r] & -> & Hin). apply elem_of_rows in Hin as [Hl Hp].
    apply bool_decide_eq_true_1 in Hp. eauto.
  - intros (k & r & Hl & Hh & <-). exists (k, r). split; [reflexivity|].
    apply elem_of_rows. split; [exact Hl|]. apply bool_decide_eq_true_2, Hh.
Qed.

Lemma super_save_ok generate_id self d hearing :
  hearing_id self = Some hearing -> truthy (Some hearing) = true ->
  exists k,
    super_save generate_id self d
    = inr (set_pk k self, with_sections (<[k := set_pk k self]> (sections d)) d)
    /\ (truthy (pk self) = true -> pk self = Some k)
    /\ (truthy (pk self) = false -> k = generate_id d).
Proof.
  intros Hh Ht. unfold super_save. rewrite Hh.
  destruct hearing as [|c h]; [discriminate Ht|].
  destruct (pk self) as [[|c' k']|]; simpl; eexists; (split; [reflexivity|]);
    split; intros; congruence.
Qed.


Lemma save_fresh generate_id hearing self d :
  fresh_section hearing self -> hearing ∈ hearings d ->
  exists m k,
    py_max (py_or (sibling_orderings hearing d) [0]) = Some m
    /\ k = generate_id d
    /\ save generate_id self d
       = inr (set_pk k (set_ordering (m + 1) self),
              with_sections
                (<[k := set_pk k (set_ordering (m + 1) self)]> (sections d)) d).
Proof.
  intros (Hpk & Ho & Hh & Ht) Hin. unfold save.
  rewrite Hpk, Ho, Hh, Ht. simpl.
  rewrite (bool_decide_eq_true_2 _ Hin).
  destruct (py_max_spec (py_or (sibling_orderings hearing d) [0])) as (m & Hm & _).
  { destruct (sibling_orderings hearing d); discriminate. }
  rewrite Hm.
  destruct (super_save_ok generate_id (set_ordering (m + 1) self) d hearing Hh Ht)
    as (k & Hs & _ & Hk).
  exists m, k. split; [reflexivity|]. split; [apply Hk, Hpk|exact Hs].
Qed.





(** C9.  Saving a scenario comment, or a legacy section comment, leaves
    the cached comment count of its owner equal to the number of comments
    stored for that owner, without any further call. *)
Theorem comment_save_recaches_owner :
  (forall c d s,
      scenarios d !! c_scenario c = Some s ->
      exists k d' s',
        ScenarioComment_save c d = inr (k, d')
        /\ scenario_comments d' !! k
           = Some (mkScenarioComment (Some k) (c_scenario c) (c_content c))
        /\ scenarios d' !! c_scenario c = Some s'
        /\ s_n_comments s'
           = Z.of_nat (length (rows (fun c' => bool_decide
                                                (c_scenario c' = c_scenario c))
                                    (scenario_comments d'))))
  /\ (forall c d s,
         sections d !! sc_section c = Some s ->
         exists k d' s',
           SectionComment_save c d = inr (k, d')
           /\ section_comments d' !! k
              = Some (mkSectionComment (Some k) (sc_section c) (sc_content c))
           /\ sections d' !! sc_section c = Some s'
           /\ n_comments s'
              = Z.of_nat (length (rows (fun c' => bool_decide
                                                   (sc_section c' = sc_section c))
                                       (section_comments d')))).
Proof.
  split.
  - intros c d s Hs. unfold ScenarioComment_save. cbn.
    unfold scenario_recache_n_comments. cbn. rewrite Hs.
    eexists _, _, _. split; [reflexivity|]. cbn.
    rewrite !lookup_insert_eq. auto.
  - intros c d s Hs. unfold SectionComment_save. cbn.
    unfold section_recache_n_comments. cbn. rewrite Hs.
    eexists _, _, _. split; [reflexivity|]. cbn.
    rewrite !lookup_insert_eq. auto.
Qed.

Lemma comment_save_recaches_owner_witness :
  s_n_comments KkSample.scenario1 = 2
  /\ (exists k d' s',
         ScenarioComment_save (mkScenarioComment None 5 "kolme") KkSample.db0
         = inr (k, d')
         /\ scenarios d' !! 5 = Some s' /\ s_n_comments s' = 3)
  /\ (exists k d' s',
         SectionComment_save (mkSectionComment None "a" "kolme") KkSample.db0
         = inr (k, d')
         /\ sections d' !! "a" = Some s' /\ n_comments s' = 3).
Proof.
  destruct comment_save_recaches_owner as (Hscenario & Hsection).
  split; [reflexivity|]. split.
  - destruct (Hscenario (mkScenarioComment None 5 "kolme") KkSample.db0
                KkSample.scenario1 eq_refl)
      as (k & d' & s' & Hs & _ & Hl & Hn).
    exists k, d', s'. split; [exact Hs|]. split; [exact Hl|].
    rewrite Hn. vm_compute in Hs. injection Hs as <- <-. vm_compute. reflexivity.
  - destruct (Hsection (mkSectionComment None "a" "kolme") KkSample.db0
                KkSample.old_section eq_refl)
      as (k & d' & s' & Hs & _ & Hl & Hn).
    exists k, d', s'. split; [exact Hs|]. split; [exact Hl|].
    rewrite Hn. vm_compute in Hs. injection Hs as <- <-. vm_compute. reflexivity.
Defined.
End LegacySection.

(** * The two section view sets *)

Section ClosureInfo.
Import Democracy.

(** The two view sets treat a section that is not of the closure-info
    type alike: both keep it. *)
Lemma other_sections_kept env hearing n section :
  is_closure_info env section = false ->
  nested_keeps env hearing n section = true
  /\ root_keeps env hearing n section = true.
Proof.
  intros H. unfold nested_keeps, root_keeps. rewrite H, andb_false_r.
  destruct (negb _); auto.
Qed.

(** On a closure-info section the two view sets agree exactly when the
    property [closed] of the hearing, which lies outside the excerpt, is
    the negation of the [open_hearings] condition. *)
Lemma closure_info_agreement env hearing n section :
  is_closure_info env section = true ->
  nested_keeps env hearing n section = root_keeps env hearing n section
  <-> hearing_closed env hearing n = negb (open_hearings hearing n).
Proof.
  intros H. unfold nested_keeps, root_keeps. rewrite H, andb_true_r.
  destruct (hearing_closed env hearing n), (open_hearings hearing n);
    simpl; split; congruence.
Qed.

(** The condition of the root view set at the two ends of the window:
    the hearing counts as open at [open_at] and no longer at [close_at]. *)
Lemma open_hearings_boundaries hearing :
  h_force_closed hearing = false ->
  h_open_at hearing < h_close_at hearing ->
  open_hearings hearing (h_open_at hearing) = true
  /\ open_hearings hearing (h_close_at hearing) = false.
Proof.
  intros Hf Hlt. unfold open_hearings. rewrite Hf. simpl. split.
  - apply andb_true_iff. split; lia.
  - apply andb_false_iff. right. lia.
Qed.

Lemma force_closed_is_not_open hearing n :
  h_force_closed hearing = true -> open_hearings hearing n = false.
Proof. intros H. unfold open_hearings. rewrite H. reflexivity. Qed.

End ClosureInfo.

(** * What the thumbnail serializer serves *)

Section ThumbnailFacts.
Import Dim Thumbnail.

Lemma parse_dimension_string_outcome int dim :
  match _parse_dimension_string int dim with
  | inr (w, h) => 0 < w /\ 0 < h
  | inl e => e = ValueError msg_format \/ e = ValueError msg_positive
  end.
Proof.
  unfold _parse_dimension_string.
  destruct (split_x dim) as [|a [|b [|c l]]]; try (left; reflexivity).
  destruct (int_pair int a b) as [w h].
  destruct (w >? 0) eqn:Ew; [|right; reflexivity].
  destruct (h >? 0) eqn:Eh; [|right; reflexivity].
  simpl. lia.
Qed.

(** X1.  For every string and whatever the builtin [int] reads: what
    [_parse_dimension_string] returns is a pair of strictly positive
    integers, each the value [int] gave for one of exactly two parts, and
    what it raises is a [ValueError] with one of its two messages. *)
Theorem parse_dimension_string_only (int : string -> option Z) dim :
  match _parse_dimension_string int dim with
  | inr (w, h) =>
      0 < w /\ 0 < h
      /\ exists a b, split_x dim = [a; b]
                     /\ int a = Some w /\ int b = Some h
  | inl e => e = ValueError msg_format \/ e = ValueError msg_positive
  end.
Proof.
  unfold _parse_dimension_string, int_pair.
  destruct (split_x dim) as [|a [|b [|c l]]]; try (left; reflexivity).
  destruct (int a) as [w|] eqn:Ea; [|right; reflexivity].
  destruct (int b) as [h|] eqn:Eb; [|right; reflexivity].
  destruct (w >? 0) eqn:Ew; [|right; reflexivity].
  destruct (h >? 0) eqn:Eh; [|right; reflexivity].
  simpl. split; [lia|]. split; [lia|]. exists a, b. auto.
Qed.

Lemma parsed_cases int dim :
  match _parse_dimension_string int dim with
  | inr size => parsed int dim = inr size
  | inl _ =>
      exists msg, (msg = msg_format \/ msg = msg_positive)
                  /\ parsed int dim
                     = inl (ParseError msg "invalid-dim-parameter")
  end.
Proof.
  pose proof (parse_dimension_string_outcome int dim) as H. unfold parsed.
  destruct (_parse_dimension_string int dim) as [e|[w h]]; [|reflexivity].
  destruct H as [-> | ->]; [exists msg_format | exists msg_positive];
    split; auto.
Qed.

(** X2.  Without a request or without [dim] the three methods serve the
    stored width, height and file.  With [dim] they stand or fall
    together on the parser: either the string parses, the reported width
    and height are the parsed, strictly positive ones and [_get_image]
    hands on what the thumbnail library answers (or raises) when asked
    for the stored file with the options size [(w, h)] and crop
    ["smart"]; or all three raise [ParseError] with the parser's message
    and the code [invalid-dim-parameter].  What the library serves for
    these options is not the code's to decide. *)
Theorem thumbnail_methods_agree {T} (int : string -> option Z)
    (get_thumbnail : string -> Z * Z -> string -> exn + T) request obj :
  match requested_dim request with
  | None =>
      get_width int request obj = inr (width obj)
      /\ get_height int request obj = inr (height obj)
      /\ _get_image int get_thumbnail request obj = inr (Original (image obj))
  | Some dim =>
      match _parse_dimension_string int dim with
      | inr (w, h) =>
          0 < w /\ 0 < h
          /\ get_width int request obj = inr w
          /\ get_height int request obj = inr h
          /\ _get_image int get_thumbnail request obj
             = match get_thumbnail (image obj) (w, h) "smart" with
               | inr thumbnail => inr (Thumb thumbnail)
               | inl e => inl (Uncaught e)
               end
      | inl _ =>
          exists msg,
            (msg = msg_format \/ msg = msg_positive)
            /\ get_width int request obj
               = inl (ParseError msg "invalid-dim-parameter")
            /\ get_height int request obj
               = inl (ParseError msg "invalid-dim-parameter")
            /\ _get_image int get_thumbnail request obj
               = inl (ParseError msg "invalid-dim-parameter")
      end
  end.
Proof.
  unfold get_width, get_height, _get_image.
  destruct (requested_dim request) as [dim|]; [|auto].
  pose proof (parsed_cases int dim) as Hp.
  pose proof (parse_dimension_string_outcome int dim) as Ho.
  destruct (_parse_dimension_string int dim) as [e|[w h]].
  - destruct Hp as (msg & Hm & ->). exists msg. auto.
  - rewrite Hp. destruct Ho as (Hw & Hh). auto.
Qed.

Lemma rstrip_blank s : rstrip (s +:+ " ") = rstrip s.
Proof.
  induction s as [|c s IH]; [reflexivity|].
  change (String c s +:+ " ") with (String c (s +:+ " ")).
  simpl. rewrite IH. reflexivity.
Qed.

Lemma no_x_app a b : no_x a -> no_x b -> no_x (a +:+ b).
Proof.
  induction a as [|c a IH]; simpl; [auto|]. intros [Hc Ha] Hb. auto.
Qed.

Lemma py_int_decorated p : py_int (decorated p) = Some (Z.pos p).
Proof.
  unfold py_int, decorated, decimal.
  pose proof (all_digits_string_of_uint (Pos.to_uint p)) as Hd.
  pose proof (to_uint_not_Nil p) as Hn.
  pose proof (digits_string_of_uint (Pos.to_uint p) 0 true) as E.
  set (s := NilEmpty.string_of_uint (Pos.to_uint p)) in *.
  change (lstrip (" +0" +:+ s +:+ " ")) with (String "+" (String "0" (s +:+ " "))).
  change (String "+" (String "0" (s +:+ " ")))
    with (String "+" (String "0" s) +:+ " ").
  rewrite rstrip_blank.
  assert (rstrip (String "+" (String "0" s)) = String "+" (String "0" s)) as ->.
  { change (rstrip (String "+" (String "0" s)))
      with (match rstrip (String "0" s) with
            | EmptyString => String "+" EmptyString
            | r => String "+" r
            end).
    rewrite (rstrip_digits (String "0" s)) by (split; [reflexivity|exact Hd]).
    reflexivity. }
  change (digits (String "0" s) 0 false) with (digits s 0 true).
  rewrite E, <- (to_uint_val p).
  destruct (Pos.to_uint p); reflexivity.
Qed.

Lemma no_x_decorated p : no_x (decorated p).
Proof.
  unfold decorated, decimal.
  change (" +0" +:+ NilEmpty.string_of_uint (Pos.to_uint p) +:+ " ")
    with (String " " (String "+" (String "0"
            (NilEmpty.string_of_uint (Pos.to_uint p) +:+ " ")))).
  repeat (split; [reflexivity|]).
  apply no_x_app; [apply all_digits_no_x, all_digits_string_of_uint|].
  split; [reflexivity|exact I].
Qed.

(** X3.  The parser reads more than the canonical form: blanks around a
    number, a plus sign and a leading zero are ignored by [int], so that
    a string other than ["<w>x<h>"] yields the same [(w, h)]. *)
Theorem parse_dimension_string_decorated (w h : positive) :
  _parse_dimension_string py_int (decorated w +:+ String "x" (decorated h))
  = inr (Z.pos w, Z.pos h)
  /\ decorated w +:+ String "x" (decorated h) <> dim_string w h.
Proof.
  split.
  - unfold _parse_dimension_string, int_pair.
    rewrite split_x_app by apply no_x_decorated.
    rewrite split_x_no_x by apply no_x_decorated.
    rewrite !py_int_decorated. reflexivity.
  - unfold dim_string, decorated, decimal. intros H.
    pose proof (all_digits_string_of_uint (Pos.to_uint w)) as Hd.
    destruct (NilEmpty.string_of_uint (Pos.to_uint w)) as [|c s];
      [discriminate H|].
    injection H as Hc _. destruct Hd as [Hd _]. rewrite <- Hc in Hd.
    discriminate Hd.
Qed.

End ThumbnailFacts.

(** * What validation lets through *)

Section ValidationExtras.
Import Democracy Children Notions Notions2.
Local Open Scope py_scope.

(** X4.  The three validation methods and the guard only read: whether
    they return or raise, the state is the one they were run in. *)
Theorem validation_only_reads env :
  (forall instance data st r st',
      validate_images env instance data st = (r, st') -> st' = st)
  /\ (forall instance data st r st',
         validate_options env instance data st = (r, st') -> st' = st)
  /\ (forall instance data st r st',
         validate_questions env instance data st = (r, st') -> st' = st)
  /\ (forall poll_data poll st r st',
         _validate_question_update env poll_data poll st = (r, st') -> st' = st).
Proof.
  split; [|split; [|split]].
  - intros instance data st r st' H.
    apply (validate_images_reads _ _ _ _ _ _ _ H).
  - intros instance data st r st' H.
    apply (validate_options_reads _ _ _ _ _ _ _ H).
  - intros instance data st r st' H.
    apply (validate_questions_reads _ _ _ _ _ _ _ H).
  - intros poll_data poll st r st'. apply guard_reads.
Qed.

Lemma validation_only_reads_witness :
  snd (validate_images Sample.env0 (Some "s1"%string) Sample.raw_images Sample.st0)
  = Sample.st0
  /\ snd (validate_questions Sample.env0 (Some "s1"%string)
            [Sample.poll7_text] Sample.st0)
     = Sample.st0.
Proof.
  destruct (validation_only_reads Sample.env0) as (Hi & _ & Hq & _).
  split.
  - destruct (validate_images Sample.env0 (Some "s1"%string) Sample.raw_images
                Sample.st0) as [r st'] eqn:E.
    apply (Hi _ _ _ _ _ E).
  - destruct (validate_questions Sample.env0 (Some "s1"%string)
                [Sample.poll7_text] Sample.st0) as [r st'] eqn:E.
    apply (Hq _ _ _ _ _ E).
Defined.

(** X5.  An id in a payload is accepted only when the serializer was
    built on a parent and the id is that of a child of this parent that
    the manager shows: an image or a poll of another section, an option
    of another poll, an unknown id, or any id on a create, make the whole
    validation raise. *)
Theorem accepted_ids_belong_to_the_parent env :
  (forall instance data st items st' raw pk,
      validate_images env instance data st = (inr items, st') ->
      raw ∈ data -> given_id (idata_id raw) = Some pk ->
      exists section r,
        instance = Some section /\ images (db st) !! pk = Some r
        /\ im_section r = section /\ in_manager env (im_deleted r) = true)
  /\ (forall instance data st items st' raw pk,
         validate_options env instance data st = (inr items, st') ->
         raw ∈ data -> given_id (od_id raw) = Some pk ->
         exists poll r,
           instance = Some poll /\ options (db st) !! pk = Some r
           /\ o_poll r = poll /\ in_manager env (o_deleted r) = true)
  /\ (forall instance data st items st' raw pk,
         validate_questions env instance data st = (inr items, st') ->
         raw ∈ data -> given_id (pd_id raw) = Some pk ->
         exists section r,
           instance = Some section /\ polls (db st) !! pk = Some r
           /\ p_section r = section /\ in_manager env (p_deleted r) = true).
Proof.
  split; [|split].
  - intros instance data st items st' raw pk H Hin Hid.
    destruct (validate_images_reads _ _ _ _ _ _ _ H) as [_ Hfrom].
    destruct (from_lookup _ _ _ _ (Hfrom items eq_refl)) as [_ Hall].
    apply list_elem_of_lookup in Hin as [i Hi].
    destruct (Hall i raw Hi) as (item & _ & _ & ser & _ & _ & Hinst).
    rewrite Hid in Hinst. destruct Hinst as (section & r & Hs & Hg & _).
    apply get_row_Some in Hg as [Hg Hp]. apply andb_true_iff in Hp as [Hp1 Hp2].
    apply bool_decide_eq_true_1 in Hp1. exists section, r. auto.
  - intros instance data st items st' raw pk H Hin Hid.
    destruct (validate_options_reads _ _ _ _ _ _ _ H) as [_ Hfrom].
    destruct (from_lookup _ _ _ _ (Hfrom items eq_refl)) as [_ Hall].
    apply list_elem_of_lookup in Hin as [i Hi].
    destruct (Hall i raw Hi) as (item & _ & _ & ser & _ & _ & Hinst).
    rewrite Hid in Hinst. destruct Hinst as (poll & r & Hs & Hg & _).
    apply get_row_Some in Hg as [Hg Hp]. apply andb_true_iff in Hp as [Hp1 Hp2].
    apply bool_decide_eq_true_1 in Hp1. exists poll, r. auto.
  - intros instance data st items st' raw pk H Hin Hid.
    destruct (validate_questions_reads _ _ _ _ _ _ _ H) as [_ Hfrom].
    destruct (from_lookup _ _ _ _ (Hfrom items eq_refl)) as [_ Hall].
    apply list_elem_of_lookup in Hin as [i Hi].
    destruct (Hall i raw Hi) as (item & _ & _ & ser & _ & Hinst & _).
    rewrite Hid in Hinst. destruct Hinst as (section & r & Hs & Hg & _).
    apply get_row_Some in Hg as [Hg Hp]. apply andb_true_iff in Hp as [Hp1 Hp2].
    apply bool_decide_eq_true_1 in Hp1. exists section, r. auto.
Qed.

Lemma accepted_ids_belong_to_the_parent_witness :
  exists section r,
    Some "s1"%string = Some section /\ images Sample.db0 !! 3 = Some r
    /\ im_section r = section /\ in_manager Sample.env0 (im_deleted r) = true.
Proof.
  destruct (accepted_ids_belong_to_the_parent Sample.env0) as (Hi & _).
  apply (Hi (Some "s1"%string) Sample.raw_images Sample.st0
            Sample.images_data Sample.st0
            (mkImageData (Some 3) (Some 99) None None) 3).
  - vm_compute. reflexivity.
  - right. left.
  - reflexivity.
Defined.

Lemma at_positions_cons {A} (P : Z -> A -> Prop) index x rest :
  at_positions P index (x :: rest)
  <-> P index x /\ at_positions P (index + 1) rest.
Proof.
  unfold at_positions. split.
  - intros H. split.
    + specialize (H 0%nat x eq_refl). rewrite Z.add_0_r in H. exact H.
    + intros i y Hy. specialize (H (S i) y Hy).
      replace (index + 1 + Z.of_nat i) with (index + Z.of_nat (S i)) by lia.
      exact H.
  - intros [Hx Hrest] [|i] y Hy; simpl in Hy.
    + injection Hy as <-. rewrite Z.add_0_r. exact Hx.
    + replace (index + Z.of_nat (S i)) with (index + 1 + Z.of_nat i) by lia.
      apply Hrest, Hy.
Qed.

Lemma validate_images_from_accepts env instance raw :
  forall index st,
    (exists items, validate_images_from env instance index raw st = (inr items, st))
    <-> at_positions (image_acceptable env instance (db st)) index raw.
Proof.
  induction raw as [|r rest IH]; intros index st.
  - split; [intros _ i x Hx; destruct i; discriminate Hx|].
    intros _. exists []. reflexivity.
  - rewrite at_positions_cons, <- (IH (index + 1) st).
    unfold image_acceptable. simpl.
    destruct (given_id (idata_id r)) as [pk|].
    + destruct instance as [section|].
      * unfold bind at 1 2. unfold read. simpl.
        destruct (get_row _ (images (db st)) pk) as [row|] eqn:Eg.
        -- unfold ret at 1. unfold image_is_valid.
           destruct (image_errors env (Some (pk, row)) _) as [msg|] eqn:Ee.
           ++ unfold bind, raise. split; [intros [x H]; discriminate H|].
              intros [(s & row' & Hs & Hg & He) _]. injection Hs as <-.
              rewrite Eg in Hg. injection Hg as <-. congruence.
           ++ unfold bind, ret.
              destruct (validate_images_from env (Some section) (index + 1) rest st)
                as [[e|its] st1] eqn:E;
                destruct (validate_images_reads _ _ _ _ _ _ _ E) as [-> _].
              ** split; [intros [x H]; discriminate H|].
                 intros [_ [x H]]. discriminate H.
              ** split; [|eauto]. intros _. split; [|eauto].
                 exists section, row. auto.
        -- unfold raise. split; [intros [x H]; discriminate H|].
           intros [(s & row' & Hs & Hg & _) _]. injection Hs as <-. congruence.
      * unfold bind, raise. split; [intros [x H]; discriminate H|].
        intros [(s & row' & Hs & _) _]. discriminate Hs.
    + unfold bind at 1 2. unfold ret at 1. unfold image_is_valid. simpl.
      destruct (idata_image r) as [c|].
      * destruct (image_errors env None _) as [msg|] eqn:Ee.
        -- unfold bind, raise. split; [intros [x H]; discriminate H|].
           intros [[_ He] _]. discriminate He.
        -- unfold ret at 1. unfold bind, ret.
           destruct (validate_images_from env instance (index + 1) rest st)
             as [[e|its] st1] eqn:E;
             destruct (validate_images_reads _ _ _ _ _ _ _ E) as [-> _].
           ++ split; [intros [x H]; discriminate H|].
              intros [_ [x H]]. discriminate H.
           ++ split; [|eauto]. intros _. split; eauto.
      * unfold raise. split; [intros [x H]; discriminate H|].
        intros [[[x Hx] _] _]. discriminate Hx.
Qed.

Lemma validate_options_from_accepts env instance raw :
  forall index st,
    (exists items, validate_options_from env instance index raw st = (inr items, st))
    <-> at_positions (option_acceptable env instance (db st)) index raw.
Proof.
  induction raw as [|r rest IH]; intros index st.
  - split; [intros _ i x Hx; destruct i; discriminate Hx|].
    intros _. exists []. reflexivity.
  - rewrite at_positions_cons, <- (IH (index + 1) st).
    unfold option_acceptable. simpl.
    destruct (given_id (od_id r)) as [pk|].
    + destruct instance as [poll|].
      * unfold bind at 1 2. unfold read. simpl.
        destruct (get_row _ (options (db st)) pk) as [row|] eqn:Eg.
        -- unfold ret at 1. unfold option_is_valid.
           destruct (option_errors env (Some (pk, row)) _) as [msg|] eqn:Ee.
           ++ unfold bind, raise. split; [intros [x H]; discriminate H|].
              intros [(s & row' & Hs & Hg & He) _]. injection Hs as <-.
              rewrite Eg in Hg. injection Hg as <-. congruence.
           ++ unfold bind, ret.
              destruct (validate_options_from env (Some poll) (index + 1) rest st)
                as [[e|its] st1] eqn:E;
                destruct (validate_options_reads _ _ _ _ _ _ _ E) as [-> _].
              ** split; [intros [x H]; discriminate H|].
                 intros [_ [x H]]. discriminate H.
              ** split; [|eauto]. intros _. split; [|eauto].
                 exists poll, row. auto.
        -- unfold raise. split; [intros [x H]; discriminate H|].
           intros [(s & row' & Hs & Hg & _) _]. injection Hs as <-. congruence.
      * unfold bind, raise. split; [intros [x H]; discriminate H|].
        intros [(s & row' & Hs & _) _]. discriminate Hs.
    + unfold bind at 1. unfold ret at 1. unfold option_is_valid.
      destruct (option_errors env None _) as [msg|] eqn:Ee.
      * unfold bind, raise. split; [intros [x H]; discriminate H|].
        intros [He _]. discriminate He.
      * unfold bind, ret.
        destruct (validate_options_from env instance (index + 1) rest st)
          as [[e|its] st1] eqn:E;
          destruct (validate_options_reads _ _ _ _ _ _ _ E) as [-> _].
        -- split; [intros [x H]; discriminate H|].
           intros [_ [x H]]. discriminate H.
        -- split; [|eauto]. intros _. split; eauto.
Qed.

(** X20.  What the two list validations accept, exactly: an array of
    image payloads passes when each element either names an image the
    section shows or names none and carries the image content, and
    [is_valid] of the image serializer finds nothing wrong with its
    fields; an array of option payloads passes when each element that
    names an option names one the poll shows, and [is_valid] of the
    option serializer finds nothing wrong with its fields.  The content
    of an image is thus mandatory for the new images only.  What
    [is_valid] finds wrong with a field is the serializers' declaration,
    which is outside the excerpt and taken as given. *)
Theorem list_validation_accepts_exactly env st :
  (forall instance raw,
      (exists items, validate_images env instance raw st = (inr items, st))
      <-> at_positions (image_acceptable env instance (db st)) 0 raw)
  /\ (forall instance raw,
         (exists items, validate_options env instance raw st = (inr items, st))
         <-> at_positions (option_acceptable env instance (db st)) 0 raw).
Proof.
  split; intros instance raw.
  - apply validate_images_from_accepts.
  - apply validate_options_from_accepts.
Qed.

Lemma list_validation_accepts_exactly_witness :
  (exists items,
      validate_images Sample.env0 (Some "s1"%string) Sample.raw_images Sample.st0
      = (inr items, Sample.st0))
  /\ ~ (exists items,
          validate_images Sample.env0 (Some "s1"%string)
            [mkImageData None None (Some (Sample.fi "T")) None] Sample.st0
          = (inr items, Sample.st0)).
Proof.
  destruct (list_validation_accepts_exactly Sample.env0 Sample.st0) as [Hi _].
  split.
  - apply Hi. intros [|[|[|i]]] x Hx; simpl in Hx; try discriminate Hx;
      injection Hx as <-.
    + exists "s1"%string, Sample.image_a. vm_compute. auto.
    + exists "s1"%string, Sample.image_c. vm_compute. auto.
    + vm_compute. eauto.
  - intros H. apply Hi in H.
    destruct (H 0%nat _ eq_refl) as [[c Hc] _]. discriminate Hc.
Defined.

End ValidationExtras.

(** * The guard on answered polls, further *)

Section GuardExtras.
Import Democracy Notions Notions2.

Lemma compare_options_texts env old_options :
  forall a b,
    od_text <$> a = od_text <$> b ->
    compare_options env old_options a = compare_options env old_options b.
Proof.
  induction old_options as [|old olds IH]; intros [|x a] [|y b] H;
    try reflexivity; try discriminate H.
  rewrite !fmap_cons in H. injection H as Hxy H. simpl. rewrite Hxy.
  destruct (od_text y); [|reflexivity].
  destruct (compare_serialized env _ _); [|reflexivity]. apply IH, H.
Qed.

Lemma question_unchanged_texts env old_text old_options a b :
  same_texts a b ->
  question_unchanged env old_text old_options a
  = question_unchanged env old_text old_options b.
Proof.
  intros [Ht Ho]. unfold question_unchanged. rewrite Ht.
  destruct (pd_text b); [|reflexivity].
  destruct (compare_serialized env old_text t); [|reflexivity].
  destruct (pd_options a) as [oa|], (pd_options b) as [ob|];
    try discriminate Ho; [|reflexivity].
  injection Ho as Ho.
  assert (length oa = length ob) as ->.
  { rewrite <- (length_fmap od_text oa), Ho. apply length_fmap. }
  destruct (_ =? _)%nat; [|reflexivity]. apply compare_options_texts, Ho.
Qed.

(** X6.  The guard looks at the text of the question and at the texts of
    the options, in their order, and at nothing else of the payload: two
    payloads with the same texts get the same verdict, so the type of an
    answered poll, its [is_independent_poll] flag and the ids of its
    options are free to change. *)
Theorem guard_reads_texts_only env a b poll st :
  same_texts a b ->
  _validate_question_update env a poll st
  = _validate_question_update env b poll st.
Proof.
  intros H. unfold _validate_question_update.
  destruct (negb _); [reflexivity|]. unfold bind, read.
  rewrite (question_unchanged_texts _ _ _ _ _ H). reflexivity.
Qed.

Lemma guard_reads_texts_only_witness :
  let retyped :=
    mkPollData (Some 7) (Some 40) (Some "multiple-choice")
               (Some (Sample.fi "Kysymys"))
               (Some [Sample.od None "Kylla"; Sample.od (Some 3) "Ei"])
               (Some true) in
  _validate_question_update Sample.env0 retyped (7, Sample.poll7) Sample.st0
  = (inr tt, Sample.st0).
Proof.
  intros retyped.
  rewrite (guard_reads_texts_only Sample.env0 retyped Sample.poll7_same
             (7, Sample.poll7) Sample.st0).
  - vm_compute. reflexivity.
  - split; reflexivity.
Defined.




End GuardExtras.

(** * The root image endpoint, further *)

Section ImageViewSetExtras.
Import Democracy Notions Notions2 Queries.
Local Open Scope py_scope.

(** The check the three operations start with. *)
Lemma admin_check {A} request pk (k : bool -> M A) st :
  (let* section := fetch_section pk in
   let* is_admin := _is_user_organisation_admin request section in
   k is_admin) st
  = match sections (db st) !! pk with
    | None => (inl DoesNotExist, st)
    | Some section =>
        match hearings (db st) !! s_hearing section with
        | None => (inl DoesNotExist, st)
        | Some hearing => k (administers request hearing) st
        end
    end.
Proof.
  unfold fetch_section, _is_user_organisation_admin, bind, read, ret, raise.
  destruct (sections (db st) !! pk) as [section|]; [|reflexivity].
  destruct (hearings (db st) !! s_hearing section) as [hearing|]; reflexivity.
Qed.

Lemma checked_returns {A} request pk (yes no : M A) st a st' :
  (forall st0, exists e, no st0 = (inl e, st0)) ->
  (let* section := fetch_section pk in
   let* is_admin := _is_user_organisation_admin request section in
   if is_admin then yes else no) st = (inr a, st') ->
  (exists section hearing,
      sections (db st) !! pk = Some section
      /\ hearings (db st) !! s_hearing section = Some hearing
      /\ administers request hearing = true)
  /\ yes st = (inr a, st').
Proof.
  intros Hno. rewrite admin_check.
  destruct (sections (db st) !! pk) as [section|]; [|discriminate].
  destruct (hearings (db st) !! s_hearing section) as [hearing|] eqn:Eh;
    [|discriminate].
  destruct (administers request hearing) eqn:Ea.
  - intros H. split; [|exact H]. exists section, hearing. auto.
  - destruct (Hno st) as [e ->]. discriminate.
Qed.

Lemma checked_raises {A} request pk (yes no : M A) st e st' :
  (forall st0 e0 st1, no st0 = (inl e0, st1) -> st1 = st0) ->
  (forall e0 st1, yes st = (inl e0, st1) -> st1 = st) ->
  (let* section := fetch_section pk in
   let* is_admin := _is_user_organisation_admin request section in
   if is_admin then yes else no) st = (inl e, st') ->
  st' = st.
Proof.
  intros Hno Hyes. rewrite admin_check.
  destruct (sections (db st) !! pk) as [section|];
    [|intros H; injection H as _ <-; reflexivity].
  destruct (hearings (db st) !! s_hearing section) as [hearing|];
    [|intros H; injection H as _ <-; reflexivity].
  destruct (administers request hearing).
  - apply Hyes.
  - apply Hno.
Qed.

Lemma write_raises env f st e st' :
  write env f st = (inl e, st') -> e = IntegrityError /\ st' = st.
Proof.
  unfold write. destruct (constraints env _); [discriminate|].
  intros H. injection H as <- <-. auto.
Qed.

Lemma save_image_update_raises env instance fields section st e st' :
  save_image env (mkImageSerializer (Some instance) fields) section st
  = (inl e, st') ->
  e = IntegrityError /\ st' = st.
Proof.
  unfold save_image. simpl. destruct instance as [pk image]. unfold bind.
  destruct (write env _ st) as [[e0|u] st1] eqn:E; [|discriminate].
  intros H. injection H as <- <-. apply (write_raises _ _ _ _ _ E).
Qed.

Lemma root_image_body_respects env validated_data :
  respects anything
    (let* section_image :=
       save_image env (mkImageSerializer None (rv_fields validated_data))
                  (rv_section validated_data) in
     let* d := read in
     let section_images :=
       section_images env (im_section (snd section_image)) d in
     match section_images with
     | [] => ret section_image
     | _ :: _ =>
         match aggregate_max section_images with
         | None => raise TypeError
         | Some ordering__max =>
             let row := im_set_ordering (ordering__max + 1) (snd section_image) in
             do write env (fun d =>
                  with_images (<[fst section_image := row]> (images d)) d)
             then ret (fst section_image, row)
         end
     end).
Proof.
  assert (tol_images anything) as Hi by (intros d t _; exact I).
  apply (respects_bind anything); [apply (save_image_respects anything), Hi|].
  intros image. apply (respects_bind anything); [apply (respects_read anything)|].
  intros d. cbv zeta.
  destruct (section_images env (im_section (snd image)) d) as [|x q];
    [apply (respects_ret anything)|].
  destruct (aggregate_max (x :: q)); [|apply (respects_raise anything)].
  apply (respects_bind anything); [|intros _; apply (respects_ret anything)].
  apply (respects_write anything). intros d0. exact I.
Qed.

Lemma root_image_create_restores env validated_data st e st' :
  root_image_create env validated_data st = (inl e, st') -> st' = st.
Proof.
  unfold root_image_create. apply atomic_failure_restores.
  apply root_image_body_respects.
Qed.

(** X8.  Whatever the three writing operations of the root image
    endpoint return, they return to a requester who administers the
    organisation of the hearing of a stored section: the section the
    payload names on a create, the section of the image as it was loaded
    on an update and on a delete.  A section or a hearing that is not
    stored, a hearing without an organisation and a requester who does
    not administer it all make the operation raise. *)
Theorem image_writes_are_authorised env request :
  (forall serializer st saved st',
      perform_create env request serializer st = (inr saved, st') ->
      exists pk section hearing,
        rv_section (ris_validated serializer) = Some pk
        /\ sections (db st) !! pk = Some section
        /\ hearings (db st) !! s_hearing section = Some hearing
        /\ administers request hearing = true)
  /\ (forall serializer st saved st',
         perform_update env request serializer st = (inr saved, st') ->
         exists instance section hearing,
           ris_instance serializer = Some instance
           /\ sections (db st) !! im_section (snd instance) = Some section
           /\ hearings (db st) !! s_hearing section = Some hearing
           /\ administers request hearing = true)
  /\ (forall instance st u st',
         perform_destroy env request instance st = (inr u, st') ->
         exists section hearing,
           sections (db st) !! im_section (snd instance) = Some section
           /\ hearings (db st) !! s_hearing section = Some hearing
           /\ administers request hearing = true).
Proof.
  split; [|split].
  - intros serializer st saved st'. unfold perform_create.
    destruct (rv_section (ris_validated serializer)) as [pk|]; [|discriminate].
    intros H. apply checked_returns in H as [(section & hearing & H) _].
    + exists pk, section, hearing. tauto.
    + intros st0. eexists. reflexivity.
  - intros serializer st saved st'. unfold perform_update.
    destruct (ris_instance serializer) as [instance|]; [|discriminate].
    intros H. apply checked_returns in H as [(section & hearing & H) _].
    + exists instance, section, hearing. tauto.
    + intros st0. eexists. reflexivity.
  - intros instance st u st'. unfold perform_destroy.
    intros H. apply checked_returns in H as [(section & hearing & H) _].
    + exists section, hearing. tauto.
    + intros st0. eexists. reflexivity.
Qed.

Lemma image_writes_are_authorised_witness :
  exists instance section hearing,
    Some (1, Sample.image_a) = Some instance
    /\ sections Sample.db0 !! im_section (snd instance) = Some section
    /\ hearings Sample.db0 !! s_hearing section = Some hearing
    /\ administers (mkRequest {[ 10 ]}) hearing = true.
Proof.
  destruct (image_writes_are_authorised Sample.env0 (mkRequest {[ 10 ]}))
    as (_ & Hu & _).
  refine (Hu (mkRootImageSerializer (Some (1, Sample.image_a))
                (mkRootImageValidated None (mkImageData None None None None)))
             Sample.st0 _ _ _).
  vm_compute. reflexivity.
Defined.

(** X9.  A writing operation of the root image endpoint that raises,
    whether it refuses the requester, misses the section or the hearing,
    or is refused by the database, leaves the state as it was; for a
    create this includes the row that was inserted before the ordering
    was set. *)
Theorem image_writes_fail_cleanly env request :
  (forall serializer st e st',
      perform_create env request serializer st = (inl e, st') -> st' = st)
  /\ (forall serializer st e st',
         perform_update env request serializer st = (inl e, st') -> st' = st)
  /\ (forall instance st e st',
         perform_destroy env request instance st = (inl e, st') -> st' = st).
Proof.
  split; [|split].
  - intros serializer st e st'. unfold perform_create.
    destruct (rv_section (ris_validated serializer)) as [pk|];
      [|intros H; injection H as _ <-; reflexivity].
    apply checked_raises.
    + intros st0 e0 st1 H. injection H as _ <-. reflexivity.
    + intros e0 st1. apply root_image_create_restores.
  - intros serializer st e st'. unfold perform_update.
    destruct (ris_instance serializer) as [instance|];
      [|intros H; injection H as _ <-; reflexivity].
    apply checked_raises.
    + intros st0 e0 st1 H. injection H as _ <-. reflexivity.
    + intros e0 st1 H. apply (save_image_update_raises _ _ _ _ _ _ _ H).
  - intros instance st e st'. unfold perform_destroy.
    apply checked_raises.
    + intros st0 e0 st1 H. injection H as _ <-. reflexivity.
    + intros e0 st1 H. apply (write_raises _ _ _ _ _ H).
Qed.

Lemma image_writes_fail_cleanly_witness :
  snd (perform_create Sample.env_no_polls (mkRequest {[ 10 ]})
         (mkRootImageSerializer None
            (mkRootImageValidated (Some "s1"%string) (Sample.new_image None)))
         Sample.st0)
  = Sample.st0.
Proof.
  destruct (image_writes_fail_cleanly Sample.env_no_polls (mkRequest {[ 10 ]}))
    as (Hc & _).
  refine (Hc (mkRootImageSerializer None
                (mkRootImageValidated (Some "s1"%string) (Sample.new_image None)))
             Sample.st0 IntegrityError _ _).
  vm_compute. reflexivity.
Defined.

Lemma elem_of_ImageViewSet_get_queryset visible d k r :
  (k, r) ∈ ImageViewSet_get_queryset visible d
  <-> images d !! k = Some r /\ visible r = true /\ im_deleted r = false.
Proof.
  unfold ImageViewSet_get_queryset.
  rewrite list_elem_of_filter, elem_of_rows. simpl. tauto.
Qed.

(** X10.  A delete through the root image endpoint that returns keeps
    the row of the image and sets its [deleted] flag, changes no other
    image and no other table, and takes the image, and no other, off the
    list the endpoint serves. *)
Theorem perform_destroy_hides_the_image env request pk image st u st' :
  images (db st) !! pk = Some image ->
  perform_destroy env request (pk, image) st = (inr u, st') ->
  images (db st') !! pk = Some (im_set_deleted image)
  /\ (forall k, k <> pk -> images (db st') !! k = images (db st) !! k)
  /\ only_images (db st) (db st')
  /\ forall visible,
      (forall r, (pk, r) ∉ ImageViewSet_get_queryset visible (db st'))
      /\ (forall k r, k <> pk ->
            (k, r) ∈ ImageViewSet_get_queryset visible (db st')
            <-> (k, r) ∈ ImageViewSet_get_queryset visible (db st)).
Proof.
  intros Hpk H. unfold perform_destroy in H.
  apply checked_returns in H as [_ H];
    [|intros st0; eexists; reflexivity].
  apply write_returns in H. subst st'. simpl.
  assert (forall k, k <> pk ->
            alter im_set_deleted pk (images (db st)) !! k = images (db st) !! k)
    as Hother.
  { intros k Hk. apply lookup_alter_ne. congruence. }
  split; [rewrite lookup_alter_eq, Hpk; reflexivity|].
  split; [exact Hother|]. split; [repeat split|].
  intros visible. split.
  - intros r Hin. apply elem_of_ImageViewSet_get_queryset in Hin as (Hl & _ & Hd).
    simpl in Hl. rewrite lookup_alter_eq, Hpk in Hl. injection Hl as <-.
    discriminate Hd.
  - intros k r Hk. rewrite !elem_of_ImageViewSet_get_queryset. simpl.
    rewrite (Hother k Hk). reflexivity.
Qed.

Lemma perform_destroy_hides_the_image_witness :
  exists st',
    perform_destroy Sample.env0 (mkRequest {[ 10 ]}) (2, Sample.image_b)
      Sample.st0 = (inr tt, st')
    /\ images (db st') !! 2 = Some (im_set_deleted Sample.image_b)
    /\ (2, Sample.image_b) ∈ ImageViewSet_get_queryset (fun _ => true) Sample.db0
    /\ forall r, (2, r) ∉ ImageViewSet_get_queryset (fun _ => true) (db st').
Proof.
  eexists. split; [vm_compute; reflexivity|].
  pose proof (perform_destroy_hides_the_image Sample.env0 (mkRequest {[ 10 ]})
                2 Sample.image_b Sample.st0 tt _ eq_refl eq_refl)
    as (H1 & _ & _ & H4).
  split; [exact H1|]. split.
  - apply elem_of_ImageViewSet_get_queryset. vm_compute. auto.
  - apply (H4 (fun _ => true)).
Defined.

(** X11.  On an update through the root image endpoint the section the
    payload names is not checked against the requester: when the
    requester administers the organisation of the section the image is
    stored under, the named section is stored, and the database accepts
    the image's row with the submitted fields under the named section,
    the update returns that row and the image belongs to the named
    section from then on, whether or not the requester administers the
    organisation of the hearing of that section. *)
Theorem perform_update_target_unchecked
    env request serializer instance section hearing target target_section st :
  let v := rv_fields (ris_validated serializer) in
  let image := snd instance in
  let row :=
    mkSectionImage target
                   (default (im_ordering image) (idata_ordering v))
                   (im_deleted image)
                   (default (im_title image) (idata_title v))
                   (default (im_image image) (idata_image v)) in
  ris_instance serializer = Some instance ->
  sections (db st) !! im_section (snd instance) = Some section ->
  hearings (db st) !! s_hearing section = Some hearing ->
  administers request hearing = true ->
  rv_section (ris_validated serializer) = Some target ->
  sections (db st) !! target = Some target_section ->
  constraints env
    (with_images (<[fst instance := row]> (images (db st))) (db st))
  = true ->
  exists st',
    perform_update env request serializer st = (inr (fst instance, row), st')
    /\ im_section row = target
    /\ images (db st') !! fst instance = Some row.
Proof.
  intros v image row Hi Hs Hh Ha Ht Hts Hc.
  unfold perform_update.
  rewrite Hi, admin_check, Hs, Hh, Ha.
  unfold save_image. simpl. destruct instance as [pk old]. rewrite Ht.
  unfold bind, write, ret. simpl. simpl in Hc.
  fold v. subst image. simpl in row. fold row. rewrite Hc.
  simpl.
  eexists. split; [reflexivity|]. split; [reflexivity|].
  simpl. apply lookup_insert_eq.
Qed.

Lemma perform_update_target_unchecked_witness :
  sections Sample.db0 !! "s2" = Some Sample.section2
  /\ hearings Sample.db0 !! s_hearing Sample.section2 = Some Sample.hearing2
  /\ administers (mkRequest {[ 10 ]}) Sample.hearing2 = false
  /\ exists row st',
      perform_update Sample.env0 (mkRequest {[ 10 ]})
        (mkRootImageSerializer (Some (1, Sample.image_a))
           (mkRootImageValidated (Some "s2"%string)
              (mkImageData None None None None)))
        Sample.st0 = (inr (1, row), st')
      /\ im_section row = "s2"%string
      /\ images (db st') !! 1 = Some row.
Proof.
  split; [vm_compute; reflexivity|]. split; [vm_compute; reflexivity|].
  split; [vm_compute; reflexivity|].
  eexists.
  refine (perform_update_target_unchecked Sample.env0 (mkRequest {[ 10 ]})
            (mkRootImageSerializer (Some (1, Sample.image_a))
               (mkRootImageValidated (Some "s2"%string)
                  (mkImageData None None None None)))
            (1, Sample.image_a) Sample.section1 Sample.hearing1 "s2"%string
            Sample.section2 Sample.st0 _ _ _ _ _ _ _);
    vm_compute; reflexivity.
Defined.

(** X12.  An update through the root image endpoint that submits no
    field, or only fields with the values the stored image has, by a
    requester who administers the organisation, on a database that
    accepts its present contents, returns the image and leaves the state
    exactly as it was. *)
Theorem perform_update_same_values
    env request pk image target fields section hearing st :
  images (db st) !! pk = Some image ->
  sections (db st) !! im_section image = Some section ->
  hearings (db st) !! s_hearing section = Some hearing ->
  administers request hearing = true ->
  constraints env (db st) = true ->
  (forall s, target = Some s -> s = im_section image) ->
  (forall n, idata_ordering fields = Some n -> n = im_ordering image) ->
  (forall t, idata_title fields = Some t -> t = im_title image) ->
  (forall c, idata_image fields = Some c -> c = im_image image) ->
  perform_update env request
    (mkRootImageSerializer (Some (pk, image))
                           (mkRootImageValidated target fields)) st
  = (inr (pk, image), st).
Proof.
  intros Hpk Hs Hh Ha Hc Ht Ho Htt Him. unfold perform_update. simpl.
  rewrite admin_check, Hs, Hh, Ha. unfold save_image. simpl.
  assert (mkSectionImage (default (im_section image) target)
            (default (im_ordering image) (idata_ordering fields))
            (im_deleted image)
            (default (im_title image) (idata_title fields))
            (default (im_image image) (idata_image fields)) = image) as ->.
  { destruct image as [s o dl t c]. simpl in *.
    destruct target as [s'|]; simpl; [rewrite (Ht s' eq_refl)|];
      (destruct (idata_ordering fields) as [n|]; simpl;
         [rewrite (Ho n eq_refl)|]);
      (destruct (idata_title fields) as [t'|]; simpl;
         [rewrite (Htt t' eq_refl)|]);
      (destruct (idata_image fields) as [c'|]; simpl;
         [rewrite (Him c' eq_refl)|]); reflexivity. }
  assert (with_images (<[pk := image]> (images (db st))) (db st) = db st) as Hid.
  { rewrite insert_id by exact Hpk. destruct (db st). reflexivity. }
  unfold bind, write, ret. rewrite Hid, Hc. destruct st. reflexivity.
Qed.

Lemma perform_update_same_values_witness :
  perform_update Sample.env0 (mkRequest {[ 10 ]})
    (mkRootImageSerializer (Some (1, Sample.image_a))
       (mkRootImageValidated None
          (mkImageData (Some 1) (Some 1) None (Some "aaa"%string))))
    Sample.st0
  = (inr (1, Sample.image_a), Sample.st0).
Proof.
  refine (perform_update_same_values Sample.env0 (mkRequest {[ 10 ]}) 1
            Sample.image_a None _ Sample.section1 Sample.hearing1 Sample.st0
            _ _ _ _ _ _ _ _ _);
    first [ vm_compute; reflexivity
          | intros x H; simpl in H; first [discriminate H | injection H as <-; reflexivity] ].
Defined.

End ImageViewSetExtras.

(** * Creation of an image and saving of a question, further *)

Section NestedTransactions.
Import Democracy Notions Notions2.
Local Open Scope py_scope.

#[global] Instance only_images_preorder : PreOrder only_images.
Proof.
  split; unfold only_images.
  - intros d. auto.
  - intros d1 d2 d3 (H1 & H2 & H3 & H4) (H1' & H2' & H3' & H4').
    repeat split; congruence.
Qed.

#[global] Instance only_options_preorder : PreOrder only_options.
Proof.
  split; unfold only_options.
  - intros d. auto.
  - intros d1 d2 d3 (H1 & H2 & H3 & H4) (H1' & H2' & H3' & H4').
    repeat split; congruence.
Qed.

#[global] Instance only_polls_preorder : PreOrder only_polls.
Proof.
  split; unfold only_polls.
  - intros d. auto.
  - intros d1 d2 d3 (H1 & H2 & H3) (H1' & H2' & H3').
    repeat split; congruence.
Qed.

Lemma tol_only_images : tol_images only_images.
Proof. intros d t _. repeat split. Qed.

Lemma tol_only_options : tol_options only_options.
Proof. intros d t _. repeat split. Qed.

Lemma tol_only_polls : tol_polls only_polls /\ tol_options only_polls.
Proof. split; intros d t _; repeat split. Qed.

Lemma greatest_bound submitted q kr :
  kr ∈ q -> im_ordering (snd kr) <= greatest submitted q.
Proof.
  intros Hin. unfold greatest.
  destruct (aggregate_max_spec q) as (m & -> & _ & Hle).
  - intros ->. inversion Hin.
  - specialize (Hle kr Hin). lia.
Qed.

(** X13.  The image the root endpoint creates sorts strictly after every
    other image its section shows, whatever ordering was submitted; the
    creation changes no other image and no other table. *)
Theorem root_image_create_sorts_last env validated_data st pk row st' :
  root_image_create env validated_data st = (inr (pk, row), st') ->
  (forall k r,
      (k, r) ∈ section_images env (im_section row) (db st') -> k <> pk ->
      im_ordering r < im_ordering row)
  /\ (forall k, k <> pk -> images (db st') !! k = images (db st) !! k)
  /\ only_images (db st) (db st').
Proof.
  intros H.
  destruct (root_image_create_respects only_images env validated_data
              tol_only_images _ _ _ H) as [_ Honly].
  destruct (root_image_create_returns _ _ _ _ _ _ H)
    as (section & _ & _ & Hsec & Hord & Hdb).
  assert (forall k, k <> pk -> images (db st') !! k = images (db st) !! k)
    as Hother.
  { intros k Hk. rewrite Hdb. apply lookup_insert_ne. congruence. }
  split; [|split; [exact Hother|exact Honly]].
  intros k r Hin Hk. unfold section_images in Hin.
  apply elem_of_rows in Hin as [Hl Hp]. rewrite (Hother k Hk) in Hl.
  rewrite Hord, Hsec in *.
  pose proof (greatest_bound
                (default (default_image_ordering env)
                   (idata_ordering (rv_fields validated_data)))
                (section_images env section (db st)) (k, r)) as Hb.
  simpl in Hb. unfold section_images in Hb at 1.
  rewrite elem_of_rows in Hb. specialize (Hb (conj Hl Hp)). lia.
Qed.

Lemma root_image_create_sorts_last_witness :
  let row := mkSectionImage "s1" 6 false [] "xxx" in
  let after := with_images (<[4 := row]> (images Sample.db0)) Sample.db0 in
  (3, Sample.image_c) ∈ section_images Sample.env0 "s1" after
  /\ forall k r,
       (k, r) ∈ section_images Sample.env0 "s1" after -> k <> 4 ->
       im_ordering r < 6.
Proof.
  intros row after. split; [apply elem_of_rows; vm_compute; auto|].
  refine (proj1 (root_image_create_sorts_last Sample.env0
                   (mkRootImageValidated (Some "s1"%string)
                      (Sample.new_image (Some 0)))
                   Sample.st0 4 row (mkState after []) _)).
  vm_compute. reflexivity.
Defined.

Lemma atomic_body_raised {A} (body : M A) st e st' :
  atomic body st = (inl e, st') ->
  exists st1, body (enter st) = (inl e, st1).
Proof.
  unfold atomic. fold (enter st).
  destruct (body (enter st)) as [[e'|a] st1]; [|discriminate].
  intros H. injection H as <- _. eauto.
Qed.

Lemma bind_raises {A B} (m : M A) (k : A -> M B) st e st' :
  bind m k st = (inl e, st') ->
  m st = (inl e, st')
  \/ exists a st1, m st = (inr a, st1) /\ k a st1 = (inl e, st').
Proof.
  unfold bind. destruct (m st) as [[e'|a] st1]; [intros H; injection H as <- <-; left; reflexivity|].
  intros H. right. exists a, st1. auto.
Qed.

(** X14.  A creation through the root image serializer that raises
    raises [IntegrityError], for want of a section or because the
    database refuses a write, and leaves the state as it was: the sum
    [ordering__max + 1] is never taken of an empty aggregate, and the row
    inserted first does not stay when the second write is refused. *)
Theorem root_image_create_failure env validated_data st e st' :
  root_image_create env validated_data st = (inl e, st') ->
  e = IntegrityError /\ st' = st.
Proof.
  intros H. split; [|apply (root_image_create_restores _ _ _ _ _ H)].
  unfold root_image_create in H.
  apply atomic_body_raised in H as [st1 H].
  apply bind_raises in H as [H|([k0 row0] & st2 & Hsave & H)].
  - unfold save_image in H. simpl in H.
    destruct (rv_section validated_data) as [section|];
      [|injection H as <- _; reflexivity].
    apply bind_raises in H as [H|(d & st2 & _ & H)]; [discriminate H|].
    apply bind_raises in H as [H|(u & st3 & _ & H)]; [|discriminate H].
    apply (write_raises _ _ _ _ _ H).
  - apply bind_raises in H as [H|(d & st3 & _ & H)]; [discriminate H|].
    cbv zeta in H.
    destruct (section_images env (im_section (snd (k0, row0))) d) as [|x q];
      [discriminate H|].
    destruct (aggregate_max (x :: q)) as [m|] eqn:Em; [|discriminate Em].
    apply bind_raises in H as [H|(u & st4 & _ & H)]; [|discriminate H].
    apply (write_raises _ _ _ _ _ H).
Qed.

Lemma root_image_create_failure_witness :
  root_image_create Sample.env0
    (mkRootImageValidated None (Sample.new_image None)) Sample.st0
  = (inl IntegrityError, Sample.st0).
Proof.
  destruct (root_image_create Sample.env0
              (mkRootImageValidated None (Sample.new_image None)) Sample.st0)
    as [[e|a] st'] eqn:E; [|vm_compute in E; discriminate E].
  destruct (root_image_create_failure _ _ _ _ _ E) as [-> ->]. reflexivity.
Defined.

Lemma save_poll_body_respects env serializer (make : M (Z * SectionPoll)) :
  respects anything make ->
  respects anything
    (let* poll := make in
     do _handle_options env (fst poll)
          (default [] (pv_options (ps_validated serializer)))
     then ret poll).
Proof.
  intros Hm. apply (respects_bind anything); [exact Hm|]. intros poll.
  apply (respects_bind anything).
  - apply (handle_options_respects anything). intros d t _. exact I.
  - intros _. apply (respects_ret anything).
Qed.

(** X15.  The saving of a question is a nested transaction: when it
    raises, in the write of the question or anywhere in the handling of
    its options, the question and the options written so far are gone and
    the state is the one the saving started in. *)
Theorem save_poll_all_or_nothing env serializer section ordering st e st' :
  save_poll env serializer section ordering st = (inl e, st') -> st' = st.
Proof.
  unfold save_poll. apply atomic_failure_restores.
  apply save_poll_body_respects.
  destruct (ps_instance serializer) as [[pk instance]|].
  - apply (respects_bind anything); [|intros _; apply (respects_ret anything)].
    apply (respects_write anything). intros d. exact I.
  - apply (respects_bind anything); [apply (respects_read anything)|]. intros d.
    apply (respects_bind anything); [|intros _; apply (respects_ret anything)].
    apply (respects_write anything). intros d0. exact I.
Qed.

Lemma save_poll_all_or_nothing_witness :
  constraints Sample2.env_fixed_options
    (with_polls (<[9 := Sample.poll8]> (polls Sample.db0)) Sample.db0) = true
  /\ save_poll Sample2.env_fixed_options Sample2.new_poll_serializer "s1" 3
       Sample.st0
     = (inl IntegrityError, Sample.st0).
Proof.
  split; [vm_compute; reflexivity|].
  destruct (save_poll Sample2.env_fixed_options Sample2.new_poll_serializer
              "s1" 3 Sample.st0) as [[e|a] st'] eqn:E;
    [|vm_compute in E; discriminate E].
  rewrite (save_poll_all_or_nothing _ _ _ _ _ _ _ E).
  vm_compute in E. injection E as <- _. reflexivity.
Defined.

End NestedTransactions.

(** * What the handlers leave alone *)

Section ChildrenFrame.
Import Democracy Children.
Context {R Item : Type}.
Variable tget : DB -> gmap Z R.
Variable tset : gmap Z R -> DB -> DB.
Variable deleted : R -> bool.
Variable set_deleted : R -> R.
Variable env : Env.
Variable step : Item -> M (Z * R).
Variable inst : Item -> option (Z * R).
Variable made : Item -> R -> Prop.
Variable in_parent : R -> bool.

Hypothesis tget_tset : forall t d, tget (tset t d) = t.
Hypothesis deleted_set_deleted : forall r, deleted (set_deleted r) = true.
Hypothesis step_spec :
  forall x st pr st',
    step x st = (inr pr, st') ->
    tget (db st') = <[fst pr := snd pr]> (tget (db st))
    /\ saved_as deleted inst made (tget (db st)) x pr.

(** A row outside the parent's related set that no item was built on
    comes out of the handler as it went in. *)
Lemma handle_frame data st u st' pk r0 :
  handle tget tset deleted set_deleted env step in_parent data st = (inr u, st') ->
  tget (db st) !! pk = Some r0 -> in_parent r0 = false ->
  (forall x snapshot, x ∈ data -> inst x <> Some (pk, snapshot)) ->
  tget (db st') !! pk = Some r0.
Proof.
  unfold handle. intros H Hr0 Hout Hnone.
  apply bind_returns in H as (kept & st1 & Hsave & H).
  apply bind_returns in H as (d & st2 & Hread & Hdel).
  injection Hread as <- <-.
  destruct (save_loop_stored tget deleted step inst made step_spec
              _ _ _ _ _ Hsave) as (saved & Hst & Hk & Hw).
  assert (pk ∉ fst <$> saved) as Hnotin.
  { intros Hin.
    destruct (stored_old_key deleted inst made data _ saved pk Hst Hin)
      as (x & snapshot & Hx & Hi); [eauto|].
    apply (Hnone x snapshot Hx Hi). }
  assert (tget (db st1) !! pk = Some r0) as Hr1.
  { rewrite Hw, written_other by exact Hnotin. exact Hr0. }
  destruct (soft_delete_loop tget tset deleted set_deleted env tget_tset
              deleted_set_deleted _ _ _ _ Hdel pk r0 Hr1)
    as (r & Hr & _ & Hsame).
  rewrite Hr. f_equal. apply Hsame. intros Hin.
  apply list_elem_of_fmap in Hin as ([k r'] & Hk' & Hin). simpl in Hk'. subst k.
  apply elem_of_exclude_ids in Hin as [_ Hin].
  unfold related in Hin. apply elem_of_rows in Hin as [Hl Hp].
  rewrite Hr1 in Hl. injection Hl as <-.
  rewrite Hout in Hp. discriminate Hp.
Qed.

End ChildrenFrame.

Section Frames.
Import Democracy Children Notions Notions2.
Local Open Scope py_scope.

Lemma image_instance_in_section env instance d index data items x pk snapshot :
  Validated.items_from (Validated.image_item env instance d) index data items ->
  x ∈ items -> image_inst x = Some (pk, snapshot) ->
  images d !! pk = Some snapshot /\ instance = Some (im_section snapshot).
Proof.
  intros H Hx Hi. destruct (from_lookup_item _ _ _ _ H) as [_ Hitem].
  apply list_elem_of_lookup in Hx as [i Hx].
  destruct (Hitem i x Hx) as (raw & Hr & _ & ser & Hs & _ & Hinst).
  unfold image_inst in Hi. rewrite Hs in Hi. simpl in Hi.
  destruct (given_id (idata_id raw)) as [pk'|] eqn:E; [|congruence].
  destruct Hinst as (section & r & -> & Hg & Hinst).
  rewrite Hinst in Hi. injection Hi as -> ->.
  apply get_row_Some in Hg as [Hg Hp]. apply andb_true_iff in Hp as [Hp _].
  apply bool_decide_eq_true_1 in Hp. subst section. auto.
Qed.

Lemma option_instance_in_poll env instance d index data items x pk snapshot :
  Validated.items_from (Validated.option_item env instance d) index data items ->
  x ∈ items -> option_inst x = Some (pk, snapshot) ->
  options d !! pk = Some snapshot /\ instance = Some (o_poll snapshot).
Proof.
  intros H Hx Hi. destruct (from_lookup_item _ _ _ _ H) as [_ Hitem].
  apply list_elem_of_lookup in Hx as [i Hx].
  destruct (Hitem i x Hx) as (raw & Hr & _ & ser & Hs & _ & Hinst).
  unfold option_inst in Hi. rewrite Hs in Hi. simpl in Hi.
  destruct (given_id (od_id raw)) as [pk'|] eqn:E; [|congruence].
  destruct Hinst as (poll & r & -> & Hg & Hinst).
  rewrite Hinst in Hi. injection Hi as -> ->.
  apply get_row_Some in Hg as [Hg Hp]. apply andb_true_iff in Hp as [Hp _].
  apply bool_decide_eq_true_1 in Hp. subst poll. auto.
Qed.

Lemma poll_instance_in_section env instance d index data items x pk snapshot :
  Validated.items_from (Validated.poll_item env instance d) index data items ->
  x ∈ items -> poll_inst x = Some (pk, snapshot) ->
  polls d !! pk = Some snapshot /\ instance = Some (p_section snapshot).
Proof.
  intros H Hx Hi. destruct (from_lookup_item _ _ _ _ H) as [_ Hitem].
  apply list_elem_of_lookup in Hx as [i Hx].
  destruct (Hitem i x Hx) as (raw & Hr & _ & ser & Hs & Hinst & _).
  unfold poll_inst in Hi. rewrite Hs in Hi. simpl in Hi.
  destruct (given_id (pd_id raw)) as [pk'|] eqn:E; [|congruence].
  destruct Hinst as (section & r & -> & Hg & Hinst).
  rewrite Hinst in Hi. injection Hi as -> ->.
  apply get_row_Some in Hg as [Hg Hp]. apply andb_true_iff in Hp as [Hp _].
  apply bool_decide_eq_true_1 in Hp. subst section. auto.
Qed.




(** X16.  Each writer stays in its tables, whether it returns or raises:
    the image handler and the three operations of the root image endpoint
    change nothing but images, the option handler nothing but options,
    the question handler and the saving of a question nothing but polls
    and options; and each leaves the stack of savepoints as it found
    it. *)
Theorem writers_stay_in_their_tables env :
  (forall section data, respects only_images (_handle_images env section data))
  /\ (forall poll data, respects only_options (_handle_options env poll data))
  /\ (forall section data, respects only_polls (_handle_questions env section data))
  /\ (forall serializer section ordering,
         respects only_polls (save_poll env serializer section ordering))
  /\ (forall request serializer,
         respects only_images (perform_create env request serializer))
  /\ (forall request serializer,
         respects only_images (perform_update env request serializer))
  /\ (forall request instance,
         respects only_images (perform_destroy env request instance)).
Proof.
  destruct tol_only_polls as [Tp To].
  split; [|split; [|split; [|split; [|split; [|split]]]]].
  - intros section data.
    apply (handle_images_respects only_images), tol_only_images.
  - intros poll data.
    apply (handle_options_respects only_options), tol_only_options.
  - intros section data.
    apply (handle_questions_respects only_polls); assumption.
  - intros serializer section ordering.
    apply (save_poll_respects only_polls); assumption.
  - intros request serializer.
    apply (perform_create_respects only_images), tol_only_images.
  - intros request serializer.
    apply (perform_update_respects only_images), tol_only_images.
  - intros request instance.
    apply (perform_destroy_respects only_images), tol_only_images.
Qed.


Lemma writers_stay_in_their_tables_witness :
  only_polls Sample.db0 (db (snd Sample.poll7_update))
  /\ savepoints (snd Sample.poll7_update) = [].
Proof.
  destruct (writers_stay_in_their_tables Sample.env0) as (_ & _ & _ & Hp & _).
  destruct (Hp Sample.poll7_serializer "s1"%string 1 Sample.st0
               (fst Sample.poll7_update) (snd Sample.poll7_update))
    as [Hs Ho].
  - unfold Sample.poll7_update. apply surjective_pairing.
  - split; [exact Ho|exact Hs].
Defined.


(** X18.  An update of a section whose payload carries neither an
    ['images'] nor a ['questions'] list is handled as one that carries
    two empty lists: when it returns, every image and every poll the
    section had is flagged deleted. *)
Theorem update_without_lists_clears_children env instance fields st section st' :
  update env instance (mkSectionValidated fields None None) st
  = (inr section, st') ->
  fst section = fst instance ->
  (forall pk r0,
      images (db st) !! pk = Some r0 -> im_section r0 = fst instance ->
      exists r, images (db st') !! pk = Some r /\ im_deleted r = true)
  /\ (forall pk r0,
         polls (db st) !! pk = Some r0 -> p_section r0 = fst instance ->
         exists r, polls (db st') !! pk = Some r /\ p_deleted r = true).
Proof.
  intros H Hsame.
  change (update env instance (mkSectionValidated fields (Some []) (Some [])) st
          = (inr section, st')) in H.
  destruct (update_children env instance fields [] [] [] [] st section st'
              eq_refl eq_refl H Hsame) as [[Hi _] [Hp _]].
  split.
  - intros pk r0 Hr0 Hs. apply (Hi pk r0 Hr0 Hs).
    intros (raw & Hin & _). inversion Hin.
  - intros pk r0 Hr0 Hs. apply (Hp pk r0 Hr0 Hs).
    intros (raw & Hin & _). inversion Hin.
Qed.

Lemma update_without_lists_clears_children_witness :
  let after :=
    snd (update Sample.env0 ("s1"%string, Sample.section1)
           (mkSectionValidated Sample.title_only None None) Sample.st0) in
  (exists r, images (db after) !! 2 = Some r /\ im_deleted r = true)
  /\ (exists r, polls (db after) !! 8 = Some r /\ p_deleted r = true).
Proof.
  intros after.
  destruct (update_without_lists_clears_children Sample.env0
              ("s1"%string, Sample.section1) Sample.title_only Sample.st0
              ("s1"%string, Sample.section1') after) as [Hi Hp].
  - vm_compute. reflexivity.
  - reflexivity.
  - split.
    + apply (Hi 2 Sample.image_b); reflexivity.
    + apply (Hp 8 Sample.poll8); reflexivity.
Defined.

End Frames.

(** * Orderings of named and new children alike *)

Section ChildrenPlaced.
Import Democracy Children Notions2.
Context {R Item : Type}.
Variable tget : DB -> gmap Z R.
Variable tset : gmap Z R -> DB -> DB.
Variable deleted : R -> bool.
Variable set_deleted : R -> R.
Variable env : Env.
Variable step : Item -> M (Z * R).
Variable inst : Item -> option (Z * R).
Variable made : Item -> R -> Prop.
Variable in_parent : R -> bool.

Hypothesis tget_tset : forall t d, tget (tset t d) = t.
Hypothesis deleted_set_deleted : forall r, deleted (set_deleted r) = true.
Hypothesis step_spec :
  forall x st pr st',
    step x st = (inr pr, st') ->
    tget (db st') = <[fst pr := snd pr]> (tget (db st))
    /\ saved_as deleted inst made (tget (db st)) x pr.

Lemma stored_lookup_key data :
  forall t saved,
    stored deleted inst made t data saved ->
    forall (i : nat) x pr k s,
      data !! i = Some x -> saved !! i = Some pr -> inst x = Some (k, s) ->
      fst pr = k.
Proof.
  induction data as [|y data IH]; intros t [|p saved] Hst;
    simpl in Hst; try contradiction.
  - intros i x pr k s Hx. destruct i; discriminate Hx.
  - destruct Hst as [[_ Hsa] Hst].
    intros [|i] x pr k s Hx Hp Hi; simpl in Hx, Hp.
    + injection Hx as <-. injection Hp as <-. rewrite Hi in Hsa. apply Hsa.
    + eapply IH; eauto.
Qed.

(** When the items built on instances are built on rows of the table,
    under pairwise distinct keys, the first loop writes each row under a
    key of its own. *)
Lemma stored_distinct data :
  forall t saved,
    stored deleted inst made t data saved ->
    (forall x pk snapshot, x ∈ data -> inst x = Some (pk, snapshot) ->
       is_Some (t !! pk)) ->
    NoDup (omap (fun x => fst <$> inst x) data) ->
    NoDup (fst <$> saved)
    /\ forall pr, pr ∈ saved -> written t saved !! fst pr = Some (snd pr).
Proof.
  induction data as [|x data IH]; intros t [|pr saved] Hst Hin Hnd;
    simpl in Hst; try contradiction.
  - split; [constructor|]. intros pr H. inversion H.
  - destruct Hst as [[_ Hsa] Hst].
    assert (NoDup (omap (fun x => fst <$> inst x) data)) as Hnd'.
    { simpl in Hnd. destruct (fst <$> inst x); [|exact Hnd].
      apply NoDup_cons in Hnd. apply Hnd. }
    destruct (IH _ _ Hst) as [Hnd1 Hall]; [|exact Hnd'|].
    { intros y pk snapshot Hy Hi.
      destruct (Hin y pk snapshot) as [r Hr]; [right; exact Hy|exact Hi|].
      destruct (decide (fst pr = pk)) as [<-|Hne].
      - rewrite lookup_insert_eq. eauto.
      - rewrite lookup_insert_ne by exact Hne. eauto. }
    assert (fst pr ∉ fst <$> saved) as Hnotin.
    { intros Hmem.
      destruct (stored_old_key deleted inst made data _ saved (fst pr) Hst Hmem)
        as (y & snapshot & Hy & Hi).
      { rewrite lookup_insert_eq. eauto. }
      simpl in Hnd. destruct (inst x) as [[pk0 s0]|] eqn:Ex.
      - destruct Hsa as [Hpk _]. simpl in Hnd.
        apply NoDup_cons in Hnd as [Hnot _]. apply Hnot.
        apply list_elem_of_omap. exists y. split; [exact Hy|].
        rewrite Hi. simpl. congruence.
      - destruct Hsa as [Hnone _].
        destruct (Hin y (fst pr) snapshot) as [r Hr]; [right; exact Hy|exact Hi|].
        congruence. }
    rewrite fmap_cons. split; [constructor; assumption|].
    intros pr' Hpr. unfold written. simpl.
    fold (written (<[fst pr := snd pr]> t) saved).
    apply elem_of_cons in Hpr as [->|Hpr].
    + rewrite written_other by exact Hnotin. apply lookup_insert_eq.
    + apply Hall, Hpr.
Qed.

Lemma handle_placed (row_ok : nat -> Z -> R -> Prop) data st u st' :
  handle tget tset deleted set_deleted env step in_parent data st = (inr u, st') ->
  (forall x pk snapshot, x ∈ data -> inst x = Some (pk, snapshot) ->
     is_Some (tget (db st) !! pk)) ->
  NoDup (omap (fun x => fst <$> inst x) data) ->
  (forall (i : nat) x pk row,
      data !! i = Some x -> made x row ->
      (forall k s, inst x = Some (k, s) -> pk = k) ->
      row_ok i pk row) ->
  placed (tget (db st')) (length data) row_ok.
Proof.
  intros H Hin Hnd Hok.
  destruct (handle_returns tget tset deleted set_deleted env step inst made
              in_parent tget_tset deleted_set_deleted step_spec data st u st' H)
    as (saved & Hst & _ & _ & Hfinal).
  destruct (stored_distinct _ _ _ Hst Hin Hnd) as [Hnd1 Hall].
  destruct (stored_lookup deleted inst made _ _ _ Hst) as (Hlen & Hmade).
  exists (fst <$> saved). split; [rewrite length_fmap; exact Hlen|].
  split; [exact Hnd1|]. intros i pk Hi.
  rewrite list_lookup_fmap in Hi.
  destruct (saved !! i) as [[pk' row]|] eqn:Es; [|discriminate Hi].
  simpl in Hi. injection Hi as ->.
  assert ((pk, row) ∈ saved) as Hmem by (eapply list_elem_of_lookup_2; exact Es).
  exists row. split.
  - rewrite Hfinal.
    + apply (Hall (pk, row) Hmem).
    + apply list_elem_of_fmap. exists (pk, row). auto.
  - destruct (lookup_lt_is_Some_2 data i) as [x Hx].
    { rewrite <- Hlen. eapply lookup_lt_Some. exact Es. }
    apply (Hok i x pk row Hx).
    + apply (Hmade i x (pk, row) Hx Es).
    + intros k s Hi.
      apply (stored_lookup_key _ _ _ Hst i x (pk, row) k s Hx Es Hi).
Qed.

End ChildrenPlaced.

Section Placed.
Import Democracy Children Notions Notions2.
Local Open Scope py_scope.

Lemma omap_pointwise {A B C} (f : A -> option C) (g : B -> option C) :
  forall (l1 : list A) (l2 : list B),
    length l1 = length l2 ->
    (forall (i : nat) a b, l1 !! i = Some a -> l2 !! i = Some b -> f a = g b) ->
    omap f l1 = omap g l2.
Proof.
  induction l1 as [|a l1 IH]; intros [|b l2] Hlen Hall; try discriminate Hlen.
  - reflexivity.
  - assert (omap f l1 = omap g l2) as Hrest.
    { apply IH; [simpl in Hlen; lia|].
      intros i a' b' Ha Hb. apply (Hall (S i) a' b' Ha Hb). }
    simpl. rewrite (Hall 0%nat a b eq_refl eq_refl).
    destruct (g b); [f_equal|]; exact Hrest.
Qed.

Lemma handle_options_placed env instance poll raw items st0 st u st' :
  Validated.items_from (Validated.option_item env instance (db st0)) 0 raw items ->
  options (db st) = options (db st0) ->
  NoDup (named_ids od_id raw) ->
  _handle_options env poll items st = (inr u, st') ->
  placed (options (db st')) (length raw)
    (fun i pk row =>
       o_poll row = poll /\ o_ordering row = Z.of_nat i + 1
       /\ forall r, raw !! i = Some r ->
            (forall id, given_id (od_id r) = Some id -> pk = id)
            /\ (forall t, od_text r = Some t -> o_text row = t)).
Proof.
  intros Hfrom Hsame Hnd Hh.
  destruct (from_lookup_item _ _ _ _ Hfrom) as [Hlen Hall].
  rewrite handle_options_shape in Hh. rewrite <- Hlen.
  refine (handle_placed options with_options o_deleted o_set_deleted env
            (option_step env poll) option_inst (option_made poll) _
            (fun t d => eq_refl) (fun r => eq_refl)
            (fun x s pr s' => option_step_spec env poll x s pr s')
            _ items st u st' Hh _ _ _).
  - intros x pk snapshot Hx Hi.
    destruct (option_instance_in_poll _ _ _ _ _ _ _ _ _ Hfrom Hx Hi) as [Hl _].
    rewrite Hsame. eauto.
  - unfold named_ids in Hnd.
    rewrite (omap_pointwise (fun x => fst <$> option_inst x)
               (fun r => given_id (od_id r)) items raw Hlen); [exact Hnd|].
    intros i x r Hx Hr.
    destruct (Hall i x Hx) as (raw' & Hraw & _ & ser & Hs & _ & Hinst).
    rewrite Hr in Hraw. injection Hraw as <-.
    unfold option_inst. rewrite Hs. simpl.
    destruct (given_id (od_id r)) as [pk|].
    + destruct Hinst as (p & row & _ & _ & ->). reflexivity.
    + rewrite Hinst. reflexivity.
  - intros i x pk row Hi (Hp & Ho & ser & Hs & Ht) Hkey.
    destruct (Hall i x Hi) as (r & Hraw & Hd & ser' & Hs' & Hv' & Hinst).
    assert (ser = ser') as -> by congruence.
    split; [exact Hp|]. split.
    + rewrite Hd in Ho. simpl in Ho. injection Ho as <-. lia.
    + intros r' Hr'. rewrite Hraw in Hr'. injection Hr' as <-. split.
      * intros id Hid. rewrite Hid in Hinst.
        destruct Hinst as (p & row0 & _ & _ & Hinst).
        apply (Hkey id row0). unfold option_inst. rewrite Hs'. exact Hinst.
      * intros t Hrt. apply Ht. rewrite Hv'. simpl. exact Hrt.
Qed.

Lemma handle_questions_placed env instance section raw items st0 st u st' :
  Validated.items_from (Validated.poll_item env instance (db st0)) 0 raw items ->
  polls (db st) = polls (db st0) ->
  NoDup (named_ids pd_id raw) ->
  _handle_questions env section items st = (inr u, st') ->
  placed (polls (db st')) (length raw)
    (fun i pk row =>
       p_section row = section /\ p_ordering row = Z.of_nat i + 1
       /\ forall r, raw !! i = Some r ->
            forall id, given_id (pd_id r) = Some id -> pk = id).
Proof.
  intros Hfrom Hsame Hnd Hh.
  destruct (from_lookup_item _ _ _ _ Hfrom) as [Hlen Hall].
  rewrite handle_questions_shape in Hh. rewrite <- Hlen.
  refine (handle_placed polls with_polls p_deleted p_set_deleted env
            (poll_step env section) poll_inst (poll_made section) _
            (fun t d => eq_refl) (fun r => eq_refl)
            (fun x s pr s' => poll_step_spec env section x s pr s')
            _ items st u st' Hh _ _ _).
  - intros x pk snapshot Hx Hi.
    destruct (poll_instance_in_section _ _ _ _ _ _ _ _ _ Hfrom Hx Hi) as [Hl _].
    rewrite Hsame. eauto.
  - unfold named_ids in Hnd.
    rewrite (omap_pointwise (fun x => fst <$> poll_inst x)
               (fun r => given_id (pd_id r)) items raw Hlen); [exact Hnd|].
    intros i x r Hx Hr.
    destruct (Hall i x Hx) as (raw' & Hraw & _ & ser & Hs & Hinst & _).
    rewrite Hr in Hraw. injection Hraw as <-.
    unfold poll_inst. rewrite Hs. simpl.
    destruct (given_id (pd_id r)) as [pk|].
    + destruct Hinst as (p & row & _ & _ & ->). reflexivity.
    + rewrite Hinst. reflexivity.
  - intros i x pk row Hi (Hp & Ho) Hkey.
    destruct (Hall i x Hi) as (r & Hraw & Hd & ser' & Hs' & Hinst & _).
    split; [exact Hp|]. split.
    + rewrite Hd in Ho. simpl in Ho. injection Ho as <-. lia.
    + intros r' Hr'. rewrite Hraw in Hr'. injection Hr' as <-.
      intros id Hid. rewrite Hid in Hinst.
      destruct Hinst as (p & row0 & _ & _ & Hinst).
      apply (Hkey id row0). unfold poll_inst. rewrite Hs'. exact Hinst.
Qed.

Lemma handle_images_placed env instance section raw items st0 st u st' :
  Validated.items_from (Validated.image_item env instance (db st0)) 0 raw items ->
  images (db st) = images (db st0) ->
  NoDup (named_ids idata_id raw) ->
  _handle_images env section items st = (inr u, st') ->
  placed (images (db st')) (length raw)
    (fun i pk row =>
       im_section row = section /\ im_ordering row = Z.of_nat i
       /\ forall r, raw !! i = Some r ->
            forall id, given_id (idata_id r) = Some id -> pk = id).
Proof.
  intros Hfrom Hsame Hnd Hh.
  destruct (from_lookup_item _ _ _ _ Hfrom) as [Hlen Hall].
  rewrite handle_images_shape in Hh. rewrite <- Hlen.
  refine (handle_placed images with_images im_deleted im_set_deleted env
            (image_step env section) image_inst (image_made env section) _
            (fun t d => eq_refl) (fun r => eq_refl)
            (fun x s pr s' => image_step_spec env section x s pr s')
            _ items st u st' Hh _ _ _).
  - intros x pk snapshot Hx Hi.
    destruct (image_instance_in_section _ _ _ _ _ _ _ _ _ Hfrom Hx Hi) as [Hl _].
    rewrite Hsame. eauto.
  - unfold named_ids in Hnd.
    rewrite (omap_pointwise (fun x => fst <$> image_inst x)
               (fun r => given_id (idata_id r)) items raw Hlen); [exact Hnd|].
    intros i x r Hx Hr.
    destruct (Hall i x Hx) as (raw' & Hraw & _ & ser & Hs & _ & Hinst).
    rewrite Hr in Hraw. injection Hraw as <-.
    unfold image_inst. rewrite Hs. simpl.
    destruct (given_id (idata_id r)) as [pk|].
    + destruct Hinst as (p & row & _ & _ & ->). reflexivity.
    + rewrite Hinst. reflexivity.
  - intros i x pk row Hi (Hp & ser & Hs & Ho) Hkey.
    destruct (Hall i x Hi) as (r & Hraw & Hd & ser' & Hs' & Hv' & Hinst).
    assert (ser = ser') as -> by congruence.
    split; [exact Hp|]. split.
    + apply Ho. rewrite Hv'. simpl. f_equal; lia.
    + intros r' Hr'. rewrite Hraw in Hr'. injection Hr' as <-.
      intros id Hid. rewrite Hid in Hinst.
      destruct Hinst as (p & row0 & _ & _ & Hinst).
      apply (Hkey id row0). unfold image_inst. rewrite Hs'. exact Hinst.
Qed.

(** X19.  Position decides the ordering of named and new children
    alike: when the ids of the incoming array are pairwise distinct, the
    handler, run on what validation returned, leaves one row per element
    under a key of its own, the named id for an element that names one;
    the row belongs to the parent and has the ordering of the position,
    counted from one for options and questions and from zero for images,
    and an option has the submitted text. *)
Theorem position_decides_ordering env :
  (forall instance poll raw items st u st',
      validate_options env instance raw st = (inr items, st) ->
      NoDup (named_ids od_id raw) ->
      _handle_options env poll items st = (inr u, st') ->
      placed (options (db st')) (length raw)
        (fun i pk row =>
           o_poll row = poll /\ o_ordering row = Z.of_nat i + 1
           /\ forall r, raw !! i = Some r ->
                (forall id, given_id (od_id r) = Some id -> pk = id)
                /\ (forall t, od_text r = Some t -> o_text row = t)))
  /\ (forall instance section raw items st u st',
         validate_questions env instance raw st = (inr items, st) ->
         NoDup (named_ids pd_id raw) ->
         _handle_questions env section items st = (inr u, st') ->
         placed (polls (db st')) (length raw)
           (fun i pk row =>
              p_section row = section /\ p_ordering row = Z.of_nat i + 1
              /\ forall r, raw !! i = Some r ->
                   forall id, given_id (pd_id r) = Some id -> pk = id))
  /\ (forall instance section raw items st u st',
         validate_images env instance raw st = (inr items, st) ->
         NoDup (named_ids idata_id raw) ->
         _handle_images env section items st = (inr u, st') ->
         placed (images (db st')) (length raw)
           (fun i pk row =>
              im_section row = section /\ im_ordering row = Z.of_nat i
              /\ forall r, raw !! i = Some r ->
                   forall id, given_id (idata_id r) = Some id -> pk = id)).
Proof.
  split; [|split].
  - intros instance poll raw items st u st' Hv Hnd Hh.
    destruct (validate_options_reads _ _ _ _ _ _ _ Hv) as [_ Hfrom].
    apply (handle_options_placed env instance poll raw items st st u st'
             (Hfrom items eq_refl) eq_refl Hnd Hh).
  - intros instance section raw items st u st' Hv Hnd Hh.
    destruct (validate_questions_reads _ _ _ _ _ _ _ Hv) as [_ Hfrom].
    apply (handle_questions_placed env instance section raw items st st u st'
             (Hfrom items eq_refl) eq_refl Hnd Hh).
  - intros instance section raw items st u st' Hv Hnd Hh.
    destruct (validate_images_reads _ _ _ _ _ _ _ Hv) as [_ Hfrom].
    apply (handle_images_placed env instance section raw items st st u st'
             (Hfrom items eq_refl) eq_refl Hnd Hh).
Qed.

Lemma position_decides_ordering_witness :
  placed
    (images (db (snd (_handle_images Sample.env0 "s1" Sample.images_data
                        Sample.st0))))
    3
    (fun i pk row =>
       im_section row = "s1"%string /\ im_ordering row = Z.of_nat i
       /\ forall r, Sample.raw_images !! i = Some r ->
            forall id, given_id (idata_id r) = Some id -> pk = id).
Proof.
  destruct (position_decides_ordering Sample.env0) as (_ & _ & Hi).
  apply (Hi (Some "s1"%string) "s1"%string Sample.raw_images Sample.images_data
            Sample.st0 tt
            (snd (_handle_images Sample.env0 "s1" Sample.images_data Sample.st0))).
  - vm_compute. reflexivity.
  - apply (bool_decide_unpack (NoDup (named_ids idata_id Sample.raw_images))).
    vm_compute. reflexivity.
  - vm_compute. reflexivity.
Defined.

End Placed.

(** * The legacy section and the root section view set, further *)

Section LegacySectionExtras.
Import Kk.

Lemma super_save_no_ValueError generate_id self d msg :
  super_save generate_id self d <> inl (ValueError msg).
Proof.
  unfold super_save. destruct (hearing_id self) as [[|c h]|]; discriminate.
Qed.

(** X21.  The ordering [Section.save] derives for a record without key
    and ordering is strictly greater than the ordering of every section
    the hearing has, so the new section sorts last; when the hearing the
    record refers to is not stored, the save raises [DoesNotExist]; and
    the maximum is never taken of an empty sequence, whatever record is
    saved. *)
Theorem derived_ordering_is_last generate_id hearing self d :
  fresh_section hearing self ->
  (hearing ∈ hearings d ->
   exists self' d',
     save generate_id self d = inr (self', d')
     /\ forall k r, sections d !! k = Some r -> hearing_id r = Some hearing ->
                    ordering r < ordering self')
  /\ (hearing ∉ hearings d -> save generate_id self d = inl DoesNotExist)
  /\ forall other d0 msg, save generate_id other d0 <> inl (ValueError msg).
Proof.
  intros Hf. split; [|split].
  - intros Hin.
    destruct (save_fresh generate_id hearing self d Hf Hin)
      as (m & k & Hm & _ & Hs).
    eexists _, _. split; [exact Hs|]. intros k' r Hl Hh. simpl.
    assert (ordering r ∈ sibling_orderings hearing d) as Hmem.
    { apply elem_of_sibling_orderings. eauto. }
    destruct (sibling_orderings hearing d) as [|x l] eqn:E; [inversion Hmem|].
    simpl py_or in Hm.
    destruct (py_max_spec (x :: l)) as (m' & Hm' & _ & Hle); [discriminate|].
    rewrite Hm in Hm'. injection Hm' as <-. specialize (Hle _ Hmem). lia.
  - intros Hout. destruct Hf as (Hpk & Ho & Hh & Ht). unfold save.
    rewrite Hpk, Ho, Hh, Ht. simpl.
    rewrite (bool_decide_eq_false_2 _ Hout). reflexivity.
  - intros other d0 msg. unfold save.
    destruct (_ && _); [|apply super_save_no_ValueError].
    destruct (hearing_id other) as [h|]; [|discriminate].
    destruct (bool_decide _); [|discriminate].
    destruct (py_max_spec (py_or (sibling_orderings h d0) [0])) as (m & -> & _).
    + destruct (sibling_orderings h d0); discriminate.
    + apply super_save_no_ValueError.
Qed.

Lemma derived_ordering_is_last_witness :
  exists self' d',
    save KkSample.gen (mkSection None (Some "h2"%string) 0 "uusi" 0) KkSample.db0
    = inr (self', d')
    /\ ordering KkSample.old_section < ordering self'.
Proof.
  destruct (derived_ordering_is_last KkSample.gen "h2"
              (mkSection None (Some "h2"%string) 0 "uusi" 0) KkSample.db0)
    as [Hin _].
  - repeat split.
  - destruct Hin as (self' & d' & Hs & Hlast).
    + vm_compute. reflexivity.
    + exists self', d'. split; [exact Hs|].
      apply (Hlast "a"%string KkSample.old_section); reflexivity.
Defined.

End LegacySectionExtras.

Section RootSectionExtras.
Import Democracy Queries.

(** X22.  The root section endpoint serves a stored section the
    visibility filters let through exactly when the section is not of the
    closure-info type, or its hearing is force-closed, or the instant of
    the request lies before [open_at] or at or after [close_at]: the
    closure info of a hearing is withheld from the instant the hearing
    opens until just before it closes, and served before the opening as
    well as after the closing. *)
Theorem root_sections_served env visible n d k section hearing :
  sections d !! k = Some section ->
  hearings d !! s_hearing section = Some hearing ->
  (k, section) ∈ RootSectionViewSet_get_queryset env visible n d
  <-> visible section = true
      /\ (s_type section <> closure_info env
          \/ h_force_closed hearing = true
          \/ n < h_open_at hearing
          \/ h_close_at hearing <= n).
Proof.
  intros Hs Hh. unfold RootSectionViewSet_get_queryset.
  rewrite list_elem_of_filter, elem_of_rows. simpl.
  unfold root_excluded. rewrite Hh. unfold open_hearings, is_closure_info.
  destruct (decide (s_type section = closure_info env)) as [Ht|Ht].
  - rewrite (bool_decide_eq_true_2 _ Ht), andb_true_r.
    destruct (h_force_closed hearing); simpl.
    + split; [intros (_ & _ & Hv); auto|]. intros [Hv _]. auto.
    + destruct (h_open_at hearing <=? n) eqn:Eo; simpl.
      * destruct (h_close_at hearing >? n) eqn:Ec; simpl.
        -- split; [intros [H _]; discriminate H|].
           intros [_ [H|[H|[H|H]]]]; [contradiction|discriminate|lia|lia].
        -- split; [intros (_ & _ & Hv)|intros [Hv _]; auto].
           split; [exact Hv|]. right. right. right. lia.
      * split; [intros (_ & _ & Hv)|intros [Hv _]; auto].
        split; [exact Hv|]. right. right. left. lia.
  - rewrite (bool_decide_eq_false_2 _ Ht), andb_false_r.
    split; [intros (_ & _ & Hv); auto|]. intros [Hv _]. auto.
Qed.

Lemma root_sections_served_witness :
  let info := mkSection "h1" "closure-info" 2 true [] false in
  let d := with_sections (<["c" := info]> (sections Sample.db0)) Sample.db0 in
  ("c"%string, info)
    ∈ RootSectionViewSet_get_queryset Sample.env0 (fun _ => true) 99 d
  /\ (("c"%string, info)
        ∉ RootSectionViewSet_get_queryset Sample.env0 (fun _ => true) 100 d)
  /\ (("c"%string, info)
        ∉ RootSectionViewSet_get_queryset Sample.env0 (fun _ => true) 199 d)
  /\ ("c"%string, info)
       ∈ RootSectionViewSet_get_queryset Sample.env0 (fun _ => true) 200 d.
Proof.
  intros info d.
  assert (forall n,
             ("c"%string, info)
               ∈ RootSectionViewSet_get_queryset Sample.env0 (fun _ => true) n d
             <-> true = true
                 /\ (s_type info <> closure_info Sample.env0
                     \/ h_force_closed Sample.hearing1 = true
                     \/ n < h_open_at Sample.hearing1
                     \/ h_close_at Sample.hearing1 <= n)) as H.
  { intros n.
    apply (root_sections_served Sample.env0 (fun _ => true) n d "c"%string info
             Sample.hearing1); vm_compute; reflexivity. }
  split; [apply H; split; [reflexivity|]; right; right; left; simpl; lia|].
  split; [rewrite H; intros [_ [Hc|[Hc|[Hc|Hc]]]];
          [apply Hc; reflexivity|discriminate Hc|simpl in Hc; lia|simpl in Hc; lia]|].
  split; [rewrite H; intros [_ [Hc|[Hc|[Hc|Hc]]]];
          [apply Hc; reflexivity|discriminate Hc|simpl in Hc; lia|simpl in Hc; lia]|].
  apply H; split; [reflexivity|]; right; right; right; simpl; lia.
Defined.

End RootSectionExtras.

(** * Creation of a section, further *)

Section SectionCreateExtras.
Import Democracy Notions Notions2.
Local Open Scope py_scope.

#[global] Instance same_sections_preorder : PreOrder same_sections.
Proof.
  split; unfold same_sections.
  - intros d. auto.
  - intros d1 d2 d3 [H1 H2] [H1' H2']. split; congruence.
Qed.

Lemma tol_same_sections :
  tol_images same_sections /\ tol_polls same_sections
  /\ tol_options same_sections.
Proof. repeat split. Qed.

(** X23.  A creation of a section that returns has added one row to the
    table of sections, under a key that was free, and has changed no
    other section and no hearing: a section is never overwritten by a
    create.  The row is the one returned; it is not flagged deleted and
    refers to the hearing the payload names, and it is stored under the
    id of the payload when that is not empty. *)
Theorem create_adds_one_section env validated_data st pk row st' :
  create env validated_data st = (inr (pk, row), st') ->
  sections (db st) !! pk = None
  /\ sections (db st') = <[pk := row]> (sections (db st))
  /\ hearings (db st') = hearings (db st)
  /\ s_deleted row = false
  /\ sf_hearing (sv_fields validated_data) = Some (s_hearing row)
  /\ forall c k, sf_id (sv_fields validated_data) = Some (String c k) ->
                 pk = String c k.
Proof.
  intros H. unfold create in H.
  apply atomic_body_returned in H as (st3 & H & Hdb). rewrite Hdb. clear Hdb.
  unfold create_body in H.
  apply bind_returns in H as (sec & st1 & Hsec & H).
  apply bind_returns in H as ([] & st2 & Himg & H).
  apply bind_returns in H as ([] & st3' & Hpoll & H).
  injection H as -> <-.
  destruct tol_same_sections as (Ti & Tp & To).
  destruct (handle_images_respects same_sections _ _ _ Ti _ _ _ Himg)
    as [_ [Hh2 Hs2]].
  destruct (handle_questions_respects same_sections _ _ _ Tp To _ _ _ Hpoll)
    as [_ [Hh3 Hs3]].
  rewrite Hs3, Hs2, Hh3, Hh2. clear Himg Hpoll Hs3 Hs2 Hh3 Hh2.
  unfold section_create in Hsec.
  destruct (sf_hearing (sv_fields validated_data)) as [hearing|];
    [|discriminate Hsec].
  apply bind_returns in Hsec as (d & st0 & Hread & Hsec).
  injection Hread as <- <-. simpl in Hsec.
  destruct (sections (db st) !! string_pk env (sf_id (sv_fields validated_data))
                                  (db st)) eqn:Efree; [discriminate Hsec|].
  apply bind_returns in Hsec as ([] & st0 & Hw & Hr).
  apply write_returns in Hw. injection Hr as <- <- <-. subst st0. simpl.
  split; [exact Efree|]. repeat split.
  intros c k ->. reflexivity.
Qed.

Lemma create_adds_one_section_witness :
  exists row st',
    create Sample.env0 Sample.new_section Sample.st0 = (inr ("s9"%string, row), st')
    /\ sections Sample.db0 !! "s9" = None
    /\ sections (db st') = <["s9"%string := row]> (sections Sample.db0).
Proof.
  destruct (create Sample.env0 Sample.new_section Sample.st0)
    as [[e|[pk row]] st'] eqn:E; [vm_compute in E; discriminate E|].
  assert (pk = "s9"%string) as ->.
  { apply (f_equal (fun r => match fst r with
                             | inr (k, _) => k
                             | inl _ => EmptyString
                             end)) in E.
    vm_compute in E. symmetry. exact E. }
  exists row, st'. split; [reflexivity|].
  destruct (create_adds_one_section _ _ _ _ _ _ E) as (H1 & H2 & _).
  split; [exact H1|exact H2].
Defined.

End SectionCreateExtras.

(** * Soft deletion on updates *)

Section SoftDeleteOnUpdate.
Import Democracy Children Notions Notions2.
Local Open Scope py_scope.

Lemma update_renamed_children env instance fields raw_images raw_questions
    images_data polls_data st section st' :
  validate_images env (Some (fst instance)) raw_images st = (inr images_data, st) ->
  validate_questions env (Some (fst instance)) raw_questions st
  = (inr polls_data, st) ->
  update env instance
         (mkSectionValidated fields (Some images_data) (Some polls_data)) st
  = (inr section, st') ->
  fst section <> fst instance ->
  (forall pk r,
      images (db st) !! pk = Some r -> im_section r = fst instance ->
      ~ names idata_id raw_images pk ->
      images (db st') !! pk = Some r)
  /\ (forall pk r,
         polls (db st) !! pk = Some r -> p_section r = fst instance ->
         ~ names pd_id raw_questions pk ->
         polls (db st') !! pk = Some r).
Proof.
  intros Hvi Hvq H Hne.
  destruct (validate_images_reads _ _ _ _ _ _ _ Hvi) as [_ Hi].
  destruct (validate_questions_reads _ _ _ _ _ _ _ Hvq) as [_ Hq].
  specialize (Hi _ eq_refl). specialize (Hq _ eq_refl).
  destruct (image_items_instances _ _ _ _ _ Hi) as [Hii _].
  destruct (poll_items_instances _ _ _ _ _ Hq) as [Hqi _].
  destruct tol_same_images as (Tis & Tip & Tio).
  destruct tol_same_polls as (Tps & Tpi & Tpo).
  apply atomic_body_returned in H as (st3 & H & Hdb). rewrite Hdb. clear Hdb.
  unfold update_body in H. simpl in H.
  apply bind_returns in H as (sec & st1 & Hsec & H).
  apply bind_returns in H as ([] & st2 & Himg & H).
  apply bind_returns in H as ([] & st3' & Hpoll & H).
  injection H as <- <-.
  destruct (section_update_respects same_images _ _ _ Tis _ _ _ Hsec) as [_ Hi1].
  destruct (section_update_respects same_polls _ _ _ Tps _ _ _ Hsec) as [_ Hp1].
  destruct (handle_images_respects same_polls _ _ _ Tpi _ _ _ Himg) as [_ Hp2].
  destruct (handle_questions_respects same_images _ _ _ Tip Tio _ _ _ Hpoll)
    as [_ Hi3].
  unfold same_images, same_polls in *. simpl in Hi1, Hp1. split.
  - intros pk r Hr Hs Hn. rewrite Hi3.
    rewrite handle_images_shape in Himg.
    apply (handle_frame images with_images im_deleted im_set_deleted env
             (image_step env (fst sec)) image_inst (image_made env (fst sec))
             (fun r => bool_decide (im_section r = fst sec))
             (fun t d => eq_refl) (fun r => eq_refl)
             (fun x s pr s' => image_step_spec env (fst sec) x s pr s')
             images_data st1 tt st2 pk r Himg).
    + rewrite Hi1. exact Hr.
    + apply bool_decide_eq_false_2. congruence.
    + intros x snapshot Hx Hinst. apply Hn.
      destruct (Hii x pk snapshot Hx Hinst) as [_ Hnamed]. exact Hnamed.
  - intros pk r Hr Hs Hn.
    rewrite handle_questions_shape in Hpoll.
    apply (handle_frame polls with_polls p_deleted p_set_deleted env
             (poll_step env (fst sec)) poll_inst (poll_made (fst sec))
             (fun r => bool_decide (p_section r = fst sec))
             (fun t d => eq_refl) (fun r => eq_refl)
             (fun x s pr s' => poll_step_spec env (fst sec) x s pr s')
             polls_data st2 tt st3' pk r Hpoll).
    + rewrite Hp2, Hp1. exact Hr.
    + apply bool_decide_eq_false_2. congruence.
    + intros x snapshot Hx Hinst. apply Hn.
      destruct (Hqi x pk snapshot Hx Hinst) as [_ Hnamed]. exact Hnamed.
Qed.

(** C5, as the code has it.  An update of a section that keeps the key
    of the section flags as deleted every image and every poll of the
    section that the incoming array does not name and leaves the flag of
    those it names as it was; an update of a poll does the same for its
    options; an update of a section that changes the key of the section
    leaves the images and the polls stored under the old key that the
    array does not name exactly as they were; and no operation removes a
    row of any table, whether it returns or raises. *)
Theorem children_soft_deleted env :
  (forall instance fields raw_images raw_questions images_data polls_data
          st section st',
      validate_images env (Some (fst instance)) raw_images st
      = (inr images_data, st) ->
      validate_questions env (Some (fst instance)) raw_questions st
      = (inr polls_data, st) ->
      update env instance
             (mkSectionValidated fields (Some images_data) (Some polls_data)) st
      = (inr section, st') ->
      fst section = fst instance ->
      replaced env im_deleted (fun r => im_section r = fst instance)
               (names idata_id raw_images) (images (db st)) (images (db st'))
      /\ replaced env p_deleted (fun r => p_section r = fst instance)
                  (names pd_id raw_questions) (polls (db st)) (polls (db st')))
  /\ (forall instance fields raw_images raw_questions images_data polls_data
             st section st',
         validate_images env (Some (fst instance)) raw_images st
         = (inr images_data, st) ->
         validate_questions env (Some (fst instance)) raw_questions st
         = (inr polls_data, st) ->
         update env instance
                (mkSectionValidated fields (Some images_data) (Some polls_data))
                st
         = (inr section, st') ->
         fst section <> fst instance ->
         (forall pk r,
             images (db st) !! pk = Some r -> im_section r = fst instance ->
             ~ names idata_id raw_images pk ->
             images (db st') !! pk = Some r)
         /\ (forall pk r,
                polls (db st) !! pk = Some r -> p_section r = fst instance ->
                ~ names pd_id raw_questions pk ->
                polls (db st') !! pk = Some r))
  /\ (forall poll data options_data serializer section ordering st saved st',
         poll_is_valid env (Some poll) data st = (inr serializer, st) ->
         pd_options data = Some options_data ->
         save_poll env serializer section ordering st = (inr saved, st') ->
         replaced env o_deleted (fun r => o_poll r = fst poll)
                  (names od_id options_data)
                  (options (db st)) (options (db st')))
  /\ (forall instance validated_data st r st',
         update env instance validated_data st = (r, st') ->
         grows (db st) (db st'))
  /\ (forall validated_data st r st',
         create env validated_data st = (r, st') -> grows (db st) (db st'))
  /\ (forall serializer section ordering st r st',
         save_poll env serializer section ordering st = (r, st') ->
         grows (db st) (db st'))
  /\ (forall request serializer st r st',
         perform_create env request serializer st = (r, st') ->
         grows (db st) (db st'))
  /\ (forall request serializer st r st',
         perform_update env request serializer st = (r, st') ->
         grows (db st) (db st'))
  /\ (forall request instance st r st',
         perform_destroy env request instance st = (r, st') ->
         grows (db st) (db st')).
Proof.
  destruct tol_grows as (Ts & Ti & Tp & To).
  split; [intros; eapply update_children; eauto|].
  split; [intros; eapply update_renamed_children; eauto|].
  split; [intros; eapply poll_update_children; eauto|].
  split; [|split; [|split; [|split; [|split]]]].
  - intros instance v st r st' H.
    apply (respects_atomic grows _ (update_body_respects grows _ _ _ Ts Ti Tp To)
             _ _ _ H).
  - intros v st r st' H.
    apply (respects_atomic grows _ (create_body_respects grows _ _ Ts Ti Tp To)
             _ _ _ H).
  - intros serializer section ordering st r st' H.
    apply (save_poll_respects grows _ _ _ _ Tp To _ _ _ H).
  - intros request serializer st r st' H.
    apply (perform_create_respects grows _ _ _ Ti _ _ _ H).
  - intros request serializer st r st' H.
    apply (perform_update_respects grows _ _ _ Ti _ _ _ H).
  - intros request instance st r st' H.
    apply (perform_destroy_respects grows _ _ _ Ti _ _ _ H).
Qed.

Lemma children_soft_deleted_witness :
  replaced Sample.env0 im_deleted (fun r => im_section r = "s1"%string)
           (names idata_id Sample.raw_images)
           (images Sample.db0) (images (db (snd Sample.update1)))
  /\ replaced Sample.env0 p_deleted (fun r => p_section r = "s1"%string)
              (names pd_id Sample.raw_questions)
              (polls Sample.db0) (polls (db (snd Sample.update1)))
  /\ (exists item,
         validate_questions Sample.env0 (Some "s1"%string)
           [Sample2.poll8_new_option] Sample.st0
         = (inr [item], Sample.st0)
         /\ pi_serializer item = Some Sample2.poll8_serializer)
  /\ replaced Sample.env0 o_deleted (fun r => o_poll r = 8)
              (names od_id [Sample.od None "Y"])
              (options Sample.db0) (options (db (snd Sample2.poll8_update)))
  /\ o_deleted <$> options (db (snd Sample2.poll8_update)) !! 3 = Some true.
Proof.
  destruct (children_soft_deleted Sample.env0) as (Hsection & _ & Hpoll & _).
  split.
  - apply (Hsection ("s1"%string, Sample.section1) Sample.title_only
             Sample.raw_images Sample.raw_questions
             Sample.images_data Sample.polls_data Sample.st0
             ("s1"%string, Sample.section1') (snd Sample.update1));
      vm_compute; reflexivity.
  - split.
    + apply (Hsection ("s1"%string, Sample.section1) Sample.title_only
               Sample.raw_images Sample.raw_questions
               Sample.images_data Sample.polls_data Sample.st0
               ("s1"%string, Sample.section1') (snd Sample.update1));
        vm_compute; reflexivity.
    + split; [eexists; split; vm_compute; reflexivity|].
      split; [|vm_compute; reflexivity].
      apply (Hpoll (8, Sample.poll8)
               (pd_set_ordering 1 Sample2.poll8_new_option)
               [Sample.od None "Y"] Sample2.poll8_serializer
               "s1"%string 1 Sample.st0
               (8, mkSectionPoll "s1" 1 false "single-choice"
                     (Sample.fi "Toinen kysymys") 0 false)
               (snd Sample2.poll8_update));
        vm_compute; reflexivity.
Defined.

(** C5, as the specification has it, fails on the code: the update
    [Sample2.rename_s1] of section [s1] carries two empty lists and another
    id; it returns, and the images 1, 2 and 3 and the polls 7 and 8 of
    [s1], none of which the incoming arrays name, are afterwards as they
    were, not flagged. *)
Lemma children_soft_deleted_counterexample :
  exists row st',
    update Sample.env0 ("s1"%string, Sample.section1) Sample2.rename_s1 Sample.st0
    = (inr ("s9"%string, row), st')
    /\ im_section Sample.image_a = "s1"%string
    /\ im_deleted Sample.image_a = false
    /\ images (db st') !! 1 = Some Sample.image_a
    /\ images (db st') !! 2 = Some Sample.image_b
    /\ images (db st') !! 3 = Some Sample.image_c
    /\ p_deleted Sample.poll8 = false
    /\ polls (db st') !! 7 = Some Sample.poll7
    /\ polls (db st') !! 8 = Some Sample.poll8.
Proof. eexists _, _. vm_compute. repeat split. Qed.


(** The example of the specification: of the images 1, 2 and 3 of a
    section, an update that names 1 and 3 leaves 2 flagged and 1 and 3
    not; no row is gone. *)
Example update_flags_the_image_left_out :
  im_deleted <$> images (db (snd Sample.update1)) !! 1 = Some false
  /\ im_deleted <$> images (db (snd Sample.update1)) !! 2 = Some true
  /\ im_deleted <$> images (db (snd Sample.update1)) !! 3 = Some false
  /\ p_deleted <$> polls (db (snd Sample.update1)) !! 7 = Some false
  /\ p_deleted <$> polls (db (snd Sample.update1)) !! 8 = Some true.
Proof. vm_compute. repeat split. Qed.

End SoftDeleteOnUpdate.

(** * What a create and an update persist *)

Section Persistence.
Import Democracy Children Notions Notions2.
Local Open Scope py_scope.














End Persistence.
